(** * HoverPeek: preflight classification, bounded fetch and TTL cache

    A shallow embedding of [src/background.ts] (the service worker of the
    HoverPeek extension) and the properties its specification states about
    it.

    Conventions of the embedding.
    - A JavaScript string is a [string]; non-ASCII text is held as UTF-8, so
      the ASCII needles the code searches for match exactly where they match
      in the UTF-16 original.
    - The browser primitives the code calls but does not define ([new URL],
      [String.prototype.toLowerCase], [parseInt], [fetch]) are the fields
      of the class [Platform]; every theorem holds for every platform.  The
      clock and [chrome.storage.local.set] are arguments of the functions
      of the cache.
    - An [async] function is a computation over the log of network requests
      issued so far; a rejected promise is the completion [Throw] and a
      promise that never settles is the completion [Pending].  A [fetch]
      that the code guards with an abort timer settles: when nothing
      arrives in time it rejects with an [AbortError].  The reads of a
      response body come after [clearTimeout] and can stay pending. *)

From Stdlib Require Import ZArith Lia Bool Ascii.
From Stdlib Require String.
From Stdlib.Strings Require Byte.
From stdpp Require Import base option list gmap strings pretty.
From Equations Require Import Equations.

Open Scope Z_scope.

(** ** The enumerations and records of the data model *)

Module LinkType.
Inductive t : Set :=
  Webpage | PDF | Download | Image | Video | Mailto | Tel | Anchor | Blocked.
#[global] Instance eq_dec : EqDecision t.
Proof. solve_decision. Defined.
End LinkType.

Module RiskLevel.
Inductive t : Set := Green | Amber | Red.
#[global] Instance eq_dec : EqDecision t.
Proof. solve_decision. Defined.

(** The order [Green < Amber < Red] of the data model. *)
Definition rank (r : t) : nat :=
  match r with Green => 0%nat | Amber => 1%nat | Red => 2%nat end.
Definition le (a b : t) : Prop := (rank a <= rank b)%nat.
End RiskLevel.

Module FetchPlan.
Inductive t : Set := Blocked | HeadOnly | PartialGet | NoFetch.
#[global] Instance eq_dec : EqDecision t.
Proof. solve_decision. Defined.
End FetchPlan.

Record RiskSignal := { level : RiskLevel.t; reason : string }.

#[global] Instance RiskSignal_eq_dec : EqDecision RiskSignal.
Proof. solve_decision. Defined.

(** The value [scoreRisk] returns: [{ risk, reasons }]. *)
Record RiskScore := { risk : RiskLevel.t; reasons : list string }.

(** ** Risk reduction: [scoreRisk] *)

Definition scoreRisk (signals : list RiskSignal) : RiskScore :=
  if decide (length signals = 0%nat) then
    {| risk := RiskLevel.Green; reasons := [] |}
  else
    let redSignals := filter (λ s, level s = RiskLevel.Red) signals in
    if decide (0 < length redSignals)%nat then
      {| risk := RiskLevel.Red; reasons := reason <$> take 2 redSignals |}
    else
      let amberSignals := filter (λ s, level s = RiskLevel.Amber) signals in
      if decide (0 < length amberSignals)%nat then
        {| risk := RiskLevel.Amber; reasons := reason <$> take 2 amberSignals |}
      else
        {| risk := RiskLevel.Green; reasons := [] |}.

(** What the specification calls "the first [n] reasons of tier [t]": walk
    the signals in list order and keep the reason of each signal of tier
    [t] until [n] of them are collected. *)
Fixpoint firstReasons (n : nat) (t : RiskLevel.t) (signals : list RiskSignal)
  : list string :=
  match n, signals with
  | O, _ => []
  | _, [] => []
  | S n', s :: rest =>
      if decide (level s = t) then reason s :: firstReasons n' t rest
      else firstReasons n t rest
  end.

Definition hasTier (t : RiskLevel.t) (signals : list RiskSignal) : Prop :=
  ∃ s, s ∈ signals ∧ level s = t.

(** ** The fetch planner: [decideFetchPlan] *)

Definition decideFetchPlan (type : LinkType.t) (risk : RiskLevel.t) : FetchPlan.t :=
  if decide (type = LinkType.Blocked) then FetchPlan.Blocked
  else if decide (risk = RiskLevel.Red ∧ type = LinkType.Download) then
    FetchPlan.Blocked
  else if decide (type ∈ [LinkType.Mailto; LinkType.Tel; LinkType.Anchor; LinkType.Video])
  then FetchPlan.NoFetch
  else if decide (type = LinkType.Image) then FetchPlan.PartialGet
  else if decide (type = LinkType.Webpage ∨ type = LinkType.PDF) then
    FetchPlan.PartialGet
  else if decide (type = LinkType.Download) then FetchPlan.HeadOnly
  else FetchPlan.PartialGet.

(** The priority table of the specification, written as data: each row is a
    guard on [(type, tier)] and the plan chosen when it is the first row
    whose guard holds; [PartialGet] is the default below the last row. *)
Definition planRows : list ((LinkType.t → RiskLevel.t → bool) * FetchPlan.t) :=
  [ (λ t _, bool_decide (t = LinkType.Blocked), FetchPlan.Blocked);
    (λ t r, bool_decide (t = LinkType.Download) && bool_decide (r = RiskLevel.Red),
       FetchPlan.Blocked);
    (λ t _, bool_decide (t ∈ [LinkType.Mailto; LinkType.Tel; LinkType.Anchor; LinkType.Video]),
       FetchPlan.NoFetch);
    (λ t _, bool_decide (t ∈ [LinkType.Image; LinkType.Webpage; LinkType.PDF]),
       FetchPlan.PartialGet);
    (λ t _, bool_decide (t = LinkType.Download), FetchPlan.HeadOnly) ].

Fixpoint firstRow (rows : list ((LinkType.t → RiskLevel.t → bool) * FetchPlan.t))
    (type : LinkType.t) (tier : RiskLevel.t) : FetchPlan.t :=
  match rows with
  | [] => FetchPlan.PartialGet
  | (guard, plan) :: rest =>
      if guard type tier then plan else firstRow rest type tier
  end.

Definition fetchPlanTable : LinkType.t → RiskLevel.t → FetchPlan.t :=
  firstRow planRows.

(** ** JavaScript built-ins on strings and arrays

    [String.prototype.includes], [startsWith], [endsWith], [split] (for a
    non-empty separator), [replace(/^prefix/, '')], [Array.prototype.join]
    and [slice(-n)], as far as the code uses them. *)

Module Js.

Definition startsWith (s needle : string) : bool := String.prefix needle s.

Fixpoint includes (s needle : string) : bool :=
  String.prefix needle s
  || match s with
     | EmptyString => false
     | String _ rest => includes rest needle
     end.

Definition endsWith (s needle : string) : bool :=
  String.prefix (String.rev needle) (String.rev s).

(** [s.split(sep)]: [cur] is the piece being read (reversed) and [skip] the
    number of characters of a separator occurrence still to be passed. *)
Fixpoint split_go (sep : string) (skip : nat) (cur : string) (s : string)
  : list string :=
  match s with
  | EmptyString => [String.rev cur]
  | String c rest =>
      match skip with
      | S k => split_go sep k cur rest
      | O =>
          if String.prefix sep s then
            String.rev cur :: split_go sep (String.length sep - 1) "" rest
          else split_go sep 0 (String c cur) rest
      end
  end.

Definition split (s sep : string) : list string := split_go sep 0 "" s.

(** [s.replace(/^prefix/, '')] for a literal prefix. *)
Fixpoint dropChars (n : nat) (s : string) : string :=
  match n, s with
  | S k, String _ rest => dropChars k rest
  | _, _ => s
  end.

Definition stripPrefix (prefix s : string) : string :=
  if String.prefix prefix s then dropChars (String.length prefix) s else s.

Definition join (parts : list string) (sep : string) : string :=
  String.concat sep parts.

(** [parts.slice(-n)] *)
Definition sliceLast {A} (n : nat) (parts : list A) : list A :=
  drop (length parts - n) parts.

(** JavaScript truthiness of a string that may be [null]/[undefined]:
    [x || fallback]. *)
Definition orElse (x : option string) (fallback : string) : string :=
  match x with
  | Some (String c s) => String c s
  | _ => fallback
  end.

Definition truthy (x : option string) : option string :=
  match x with
  | Some (String c s) => Some (String c s)
  | _ => None
  end.

(** The code points of a string held as UTF-8.  Every range the code tests
    lies in the Basic Multilingual Plane, where code point and UTF-16 code
    unit coincide.  [leadByte] reads the first byte of a sequence: a code
    point of its own, or the payload and the number of bytes to follow. *)
Definition leadByte (n : Z) : Z + (nat * Z) :=
  if n <? 0x80 then inl n
  else if (0xC0 <=? n) && (n <? 0xE0) then inr (1%nat, Z.land n 0x1F)
  else if (0xE0 <=? n) && (n <? 0xF0) then inr (2%nat, Z.land n 0x0F)
  else if (0xF0 <=? n) && (n <? 0xF8) then inr (3%nat, Z.land n 0x07)
  else inl 0xFFFD.

Fixpoint codePoints_go (pending : nat) (acc : Z) (bs : list Ascii.ascii) : list Z :=
  match bs with
  | [] => match pending with O => [] | S _ => [0xFFFD] end
  | b :: rest =>
      let n := Z.of_nat (Ascii.nat_of_ascii b) in
      let restart (bad : list Z) :=
        match leadByte n with
        | inl cp => bad ++ cp :: codePoints_go 0 0 rest
        | inr (k, payload) => bad ++ codePoints_go k payload rest
        end in
      match pending with
      | S k =>
          if (0x80 <=? n) && (n <? 0xC0) then
            let acc' := acc * 64 + Z.land n 0x3F in
            match k with
            | O => acc' :: codePoints_go 0 0 rest
            | S _ => codePoints_go k acc' rest
            end
          else restart [0xFFFD]
      | O => restart []
      end
  end.

Definition codePoints (s : string) : list Z :=
  codePoints_go 0 0 (String.list_ascii_of_string s).

(** [haystack] contains [needle] as a contiguous run. *)
Fixpoint includesRun (haystack needle : list Z) : bool :=
  bool_decide (needle `prefix_of` haystack)
  || match haystack with
     | [] => false
     | _ :: rest => includesRun rest needle
     end.

(** Lower-casing of the ASCII letters, the part of
    [String.prototype.toLowerCase] that ASCII text exercises. *)
Definition asciiLower (c : Ascii.ascii) : Ascii.ascii :=
  let n := Ascii.nat_of_ascii c in
  if (65 <=? n)%nat && (n <=? 90)%nat then Ascii.ascii_of_nat (n + 32) else c.

Fixpoint asciiLowerCase (s : string) : string :=
  match s with
  | EmptyString => EmptyString
  | String c rest => String (asciiLower c) (asciiLowerCase rest)
  end.

End Js.

(** ** The browser platform *)

(** The fields of a [URL] object that the code reads. *)
Module URL.
Record t := {
  href : string;
  protocol : string;
  hostname : string;
  pathname : string;
  search : string;
  hash : string;
  origin : string;
  searchParams : list (string * string);
}.
End URL.

(** [url.searchParams.get(name)]: the first value stored under [name]. *)
Definition searchParams_get (url : URL.t) (name : string) : option string :=
  (λ found, found.2.2) <$> list_find (λ kv, kv.1 = name) (URL.searchParams url).

(** A thrown value: an [Error] object with its [name] and [message]. *)
Record JsError := { errorName : string; errorMessage : string }.

Definition mkError (message : string) : JsError :=
  {| errorName := "Error"; errorMessage := message |}.

Inductive Method : Set := HEAD | GET.

(** A [fetch] call: method, URL and request headers.  Every call of the
    code omits credentials; HEAD probes ask for manual redirects. *)
Record Request := {
  method : Method;
  requestUrl : string;
  requestHeaders : list (string * string);
}.

(** What [reader.read()] yields next: a chunk, a rejected read, or nothing
    at all when the server stalls and the read never settles.  The end of
    the list is [done]. *)
Inductive StreamEvent :=
  | Chunk (value : list Byte.byte)
  | ReadError (e : JsError)
  | Stalled.

Record Response := {
  status : Z;
  headers_get : string → option string;
  body : option (list StreamEvent);
}.

Definition ok (r : Response) : bool := (200 <=? status r) && (status r <=? 299).

(** The promise [fetch] returns: fulfilled with a response, or rejected
    (network failure, or the [AbortError] of the timeout). *)
Inductive FetchOutcome :=
  | Responded (r : Response)
  | Rejected (e : JsError).

(** A JavaScript number as [parseInt] can return it. *)
Inductive Number :=
  | NaN
  | Finite (z : Z)
  | Infinity (negative : bool).

(** [value || undefined] for a number that may be [null]: zero and [NaN]
    are falsy. *)
Definition truthyNumber (value : option Number) : option Number :=
  match value with
  | Some NaN | Some (Finite 0) | None => None
  | Some n => Some n
  end.

Class Platform := {
  (** [new URL(input, base)]; [None] when the constructor throws. *)
  newURL : string → option string → option URL.t;
  (** [String.prototype.toLowerCase] *)
  toLowerCase : string → string;
  (** [parseInt(text, 10)] *)
  parseInt : string → Number;
  (** The answer of the network to a request, given the requests already
      issued. *)
  network : list Request → Request → FetchOutcome;
}.

(** ** Asynchronous computations *)

Inductive Completion (A : Type) :=
  | Normal (a : A)
  | Throw (e : JsError)
  | Pending.
Arguments Normal {A} a.
Arguments Throw {A} e.
Arguments Pending {A}.

(** An [async] function body: it extends the log of requests issued and
    completes normally, by throwing, or never. *)
Definition Async (A : Type) : Type := list Request → Completion A * list Request.

#[global] Instance Async_ret : MRet Async := λ A a log, (Normal a, log).
#[global] Instance Async_bind : MBind Async := λ A B k m log,
  match m log with
  | (Normal a, log') => k a log'
  | (Throw e, log') => (Throw e, log')
  | (Pending, log') => (Pending, log')
  end.

Definition throw {A} (e : JsError) : Async A := λ log, (Throw e, log).

(** [try { body } catch (error) { handler(error) }] *)
Definition tryCatch {A} (body : Async A) (handler : JsError → Async A) : Async A :=
  λ log,
    match body log with
    | (Normal a, log') => (Normal a, log')
    | (Throw e, log') => handler e log'
    | (Pending, log') => (Pending, log')
    end.

(** [await fetch(...)] under an abort timer *)
Definition fetch `{Platform} (request : Request) : Async Response :=
  λ log,
    match network log request with
    | Responded r => (Normal r, log ++ [request])
    | Rejected e => (Throw e, log ++ [request])
    end.

(** [new URL(input, base)] inside an [async] body. *)
Definition constructURL `{Platform} (input : string) (base : option string)
  : Async URL.t :=
  match newURL input base with
  | Some url => mret url
  | None => throw {| errorName := "TypeError"; errorMessage := "Invalid URL" |}
  end.

(** [await response.arrayBuffer()]: the whole body, the error of the read
    that fails, or no completion when a read stalls. *)
Fixpoint drain (stream : list StreamEvent) : Completion (list Byte.byte) :=
  match stream with
  | [] => Normal []
  | Chunk value :: rest =>
      match drain rest with
      | Normal bytes => Normal (value ++ bytes)
      | Throw e => Throw e
      | Pending => Pending
      end
  | ReadError e :: _ => Throw e
  | Stalled :: _ => Pending
  end.

Definition arrayBuffer (response : Response) : Async (list Byte.byte) :=
  λ log, (drain (default [] (body response)), log).

(** ** Records of the classifier *)

Record VideoPlatform := {
  platform : string;
  videoId : option string;
  embedUrl : option string;
}.

(** [{ textDomain, linkDomain }] *)
Record TextMismatch := { textDomain : string; linkDomain : string }.

Module Lexical.
Record t := { signals : list RiskSignal; textMismatch : option TextMismatch }.
End Lexical.

(** ** The pattern of [checkAnchorTextMismatch]

    [/(?:https?:\/\/)?([a-zA-Z0-9.-]+\.[a-zA-Z]{2,})/i], matched the way a
    backtracking engine does: at the leftmost position where it can match,
    with the optional scheme tried first, the [+] as long as possible and
    the letters after the last dot as long as possible.  Without the [u]
    flag, [i] folds only ASCII letters onto the letters the pattern names. *)

Module DomainPattern.

Definition isLetter (c : ascii) : bool :=
  let n := nat_of_ascii c in
  ((65 <=? n) && (n <=? 90) || (97 <=? n) && (n <=? 122))%nat.

Definition isDigit (c : ascii) : bool :=
  let n := nat_of_ascii c in ((48 <=? n) && (n <=? 57))%nat.

Definition isDomainChar (c : ascii) : bool :=
  isLetter c || isDigit c || bool_decide (c = "."%char) || bool_decide (c = "-"%char).

(** The longest prefix of [s] whose characters satisfy [p]. *)
Fixpoint run (p : ascii → bool) (s : string) : string :=
  match s with
  | String c rest => if p c then String c (run p rest) else EmptyString
  | EmptyString => EmptyString
  end.

Fixpoint takeChars (n : nat) (s : string) : string :=
  match n, s with
  | S k, String c rest => String c (takeChars k rest)
  | _, _ => EmptyString
  end.

(** The capture when [[a-zA-Z0-9.-]+] is given the first [k] characters:
    a dot must follow, and then at least two letters. *)
Definition captureAt (k : nat) (text : string) : option string :=
  match Js.dropChars k text with
  | String "." rest =>
      let letters := run isLetter rest in
      if (2 <=? String.length letters)%nat
      then Some (takeChars k text +:+ "." +:+ letters)
      else None
  | _ => None
  end.

(** Backtracking of the [+]: [k], then [k - 1], ... down to one character. *)
Fixpoint backtrack (k : nat) (text : string) : option string :=
  match k with
  | O => None
  | S k' =>
      match captureAt k text with
      | Some captured => Some captured
      | None => backtrack k' text
      end
  end.

(** The capture group matched at the start of [text]. *)
Definition domainAt (text : string) : option string :=
  backtrack (String.length (run isDomainChar text)) text.

(** What follows [https?:\/\/] at the start of [text], if it is there. *)
Definition afterScheme (text : string) : option string :=
  let lower := Js.asciiLowerCase text in
  if String.prefix "https://" lower then Some (Js.dropChars 8 text)
  else if String.prefix "http://" lower then Some (Js.dropChars 7 text)
  else None.

Definition matchAt (text : string) : option string :=
  match afterScheme text ≫= domainAt with
  | Some captured => Some captured
  | None => domainAt text
  end.

(** [text.match(domainPattern)[1]], or [None] when there is no match. *)
Fixpoint exec (text : string) : option string :=
  match matchAt text with
  | Some captured => Some captured
  | None =>
      match text with
      | String _ rest => exec rest
      | EmptyString => None
      end
  end.

End DomainPattern.

(** ** The helpers that need no network *)

Section Classifier.
Context `{Platform}.

(** The [try] of the source guards a property read that cannot throw. *)
Definition extractDomain (url : URL.t) : string := URL.hostname url.

(** [videoId ? `${prefix}${videoId}` : undefined] *)
Definition embedFor (prefix : string) (videoId : option string) : option string :=
  (λ id, prefix +:+ id) <$> Js.truthy videoId.

(** [s.split(sep)[1]?.split(cut)[0]] *)
Definition secondPieceUpTo (s sep cut : string) : option string :=
  piece ← Js.split s sep !! 1%nat; Js.split piece cut !! 0%nat.

Definition videoExts : list string :=
  [".mp4"; ".webm"; ".ogg"; ".mov"; ".avi"; ".mkv"; ".m4v"].

Definition detectVideoPlatform (url : URL.t) : option VideoPlatform :=
  let hostname := toLowerCase (URL.hostname url) in
  let pathname := URL.pathname url in
  if Js.includes hostname "youtube.com" || Js.includes hostname "youtu.be" then
    let videoId :=
      if Js.includes hostname "youtu.be" then secondPieceUpTo pathname "/" "?"
      else if Js.includes pathname "/watch" then Js.truthy (searchParams_get url "v")
      else if Js.includes pathname "/embed/" then secondPieceUpTo pathname "/embed/" "?"
      else if Js.includes pathname "/shorts/" then secondPieceUpTo pathname "/shorts/" "?"
      else None in
    Some {| platform := "youtube"; videoId := videoId;
            embedUrl := embedFor "https://www.youtube.com/embed/" videoId |}
  else if Js.includes hostname "vimeo.com" then
    let videoId := head (filter (λ piece, piece ≠ "") (Js.split pathname "/")) in
    Some {| platform := "vimeo"; videoId := videoId;
            embedUrl := embedFor "https://player.vimeo.com/video/" videoId |}
  else if Js.includes hostname "dailymotion.com" || Js.includes hostname "dai.ly" then
    let videoId :=
      if Js.includes hostname "dai.ly" then Js.split pathname "/" !! 1%nat
      else if Js.includes pathname "/video/" then secondPieceUpTo pathname "/video/" "_"
      else None in
    Some {| platform := "dailymotion"; videoId := videoId;
            embedUrl := embedFor "https://www.dailymotion.com/embed/video/" videoId |}
  else if Js.includes hostname "tiktok.com" then
    Some {| platform := "tiktok"; videoId := Some pathname; embedUrl := None |}
  else if Js.includes hostname "twitch.tv" then
    Some {| platform := "twitch"; videoId := Some pathname; embedUrl := None |}
  else if existsb (λ ext, Js.endsWith (toLowerCase pathname) ext) videoExts then
    Some {| platform := "video-file"; videoId := None; embedUrl := None |}
  else None.

Definition dangerousSchemes : list string :=
  ["javascript:"; "data:"; "file:"; "vbscript:"].

(** The Red signal the source pushes before [return null] is dropped with
    the local array; [null] is all the caller sees. *)
Definition normalizeAndGate (href pageOrigin : string)
  : option (URL.t * list RiskSignal) :=
  let signals : list RiskSignal := [] in
  match newURL href (Some pageOrigin) with
  | Some url =>
      if existsb (λ scheme, bool_decide (URL.protocol url = scheme)) dangerousSchemes
      then None
      else Some (url, signals)
  | None => None
  end.

Definition isSamePageAnchor (url : URL.t) (pageOrigin : string) : bool :=
  match newURL pageOrigin None with
  | Some pageUrl =>
      bool_decide (URL.hostname url = URL.hostname pageUrl)
      && bool_decide (URL.pathname url = URL.pathname pageUrl)
      && bool_decide (URL.hash url ≠ "")
      && bool_decide (URL.search url = URL.search pageUrl)
  | None => false
  end.

Definition inRange (lo hi cp : Z) : bool := (lo <=? cp) && (cp <=? hi).

Definition confusables : list (list Z) :=
  [ Js.codePoints "xn--"; [0x430]; [0x435]; [0x43E]; [0x440]; [0x441]; [0x445] ].

Definition detectHomograph (domain : string) : bool :=
  let chars := Js.codePoints domain in
  let hasCyrillic := existsb (inRange 0x400 0x4FF) chars in
  let hasLatin := existsb (λ cp, inRange 0x61 0x7A cp || inRange 0x41 0x5A cp) chars in
  let hasGreek := existsb (inRange 0x370 0x3FF) chars in
  if (hasCyrillic && hasLatin) || (hasGreek && hasLatin) then true
  else existsb (λ char, Js.includesRun chars char) confusables.

Definition extractTopLevel (domain : string) : string :=
  let parts := Js.split domain "." in
  if decide (2 ≤ length parts)%nat then Js.join (Js.sliceLast 2 parts) "."
  else domain.

Definition checkAnchorTextMismatch (anchorText hrefDomain : string)
  : option TextMismatch :=
  match Js.truthy (DomainPattern.exec anchorText) with
  | Some captured =>
      let textDomain := toLowerCase captured in
      let normalizedHrefDomain := Js.stripPrefix "www." (toLowerCase hrefDomain) in
      let normalizedTextDomain := Js.stripPrefix "www." textDomain in
      if decide (normalizedTextDomain ≠ normalizedHrefDomain) then
        Some {| textDomain := extractTopLevel normalizedTextDomain;
                linkDomain := extractTopLevel normalizedHrefDomain |}
      else None
  | None => None
  end.

Definition checkHttpsDowngrade (targetUrl : URL.t) (pageOrigin : string) : bool :=
  match newURL pageOrigin None with
  | Some pageUrl =>
      (bool_decide (URL.protocol pageUrl = "https:")
       || bool_decide (URL.protocol pageUrl = "chrome-extension:"))
      && bool_decide (URL.protocol targetUrl = "http:")
  | None => false
  end.

Definition performLexicalChecks (url : URL.t) (anchorText pageOrigin : string)
  : Lexical.t :=
  let signals : list RiskSignal := [] in
  let signals :=
    if detectHomograph (URL.hostname url) then
      signals ++ [{| level := RiskLevel.Amber; reason := "Suspicious domain characters" |}]
    else signals in
  let textMismatch := checkAnchorTextMismatch anchorText (URL.hostname url) in
  let signals :=
    if checkHttpsDowngrade url pageOrigin then
      signals ++ [{| level := RiskLevel.Amber; reason := "HTTP (not secure)" |}]
    else signals in
  {| Lexical.signals := signals; Lexical.textMismatch := textMismatch |}.

Definition downloadTypes : list string :=
  [ "application/octet-stream"; "application/x-msdownload";
    "application/x-msdos-program"; "application/zip";
    "application/x-zip-compressed"; "application/x-rar-compressed";
    "application/x-7z-compressed"; "application/x-tar"; "application/x-gzip" ].

Definition determineLinkTypeFromContentType
    (contentType : string) (contentDisposition : option string) : LinkType.t :=
  let ct := toLowerCase contentType in
  if match contentDisposition with
     | Some cd => Js.includes (toLowerCase cd) "attachment"
     | None => false
     end
  then LinkType.Download
  else if Js.includes ct "application/pdf" then LinkType.PDF
  else if Js.startsWith ct "image/" then LinkType.Image
  else if Js.startsWith ct "video/" || Js.includes ct "application/x-mpegurl"
  then LinkType.Video
  else if existsb (λ type, Js.includes ct type) downloadTypes then LinkType.Download
  else if Js.includes ct "text/html" || Js.includes ct "application/xhtml"
  then LinkType.Webpage
  else LinkType.Webpage.

Definition imageExts : list string :=
  [".jpg"; ".jpeg"; ".png"; ".gif"; ".webp"; ".svg"; ".bmp"; ".ico"].

Definition downloadExts : list string :=
  [".zip"; ".tar"; ".gz"; ".rar"; ".7z"; ".exe"; ".dmg"; ".deb"; ".rpm"].

Definition guesslinkTypeFromUrl (url : string) : option LinkType.t :=
  match newURL url None with
  | Some urlObj =>
      let pathname := toLowerCase (URL.pathname urlObj) in
      if Js.endsWith pathname ".pdf" || Js.includes pathname "/pdf/"
      then Some LinkType.PDF
      else if existsb (λ ext, Js.endsWith pathname ext) imageExts
      then Some LinkType.Image
      else if existsb (λ ext, Js.endsWith pathname ext) videoExts
      then Some LinkType.Video
      else if existsb (λ ext, Js.endsWith pathname ext) downloadExts
      then Some LinkType.Download
      else None
  | None => None
  end.

End Classifier.

(** [bytes[i] === v] *)
Definition byteIs (bytes : list Byte.byte) (i : nat) (v : Z) : bool :=
  match bytes !! i with
  | Some b => Z.of_N (Byte.to_N b) =? v
  | None => false
  end.

Definition checkMagicBytes (bytes : list Byte.byte) : option LinkType.t :=
  if (4 <=? length bytes)%nat
     && byteIs bytes 0 0x25 && byteIs bytes 1 0x50
     && byteIs bytes 2 0x44 && byteIs bytes 3 0x46
  then Some LinkType.PDF
  else if (4 <=? length bytes)%nat
     && byteIs bytes 0 0x50 && byteIs bytes 1 0x4B
     && (byteIs bytes 2 0x03 || byteIs bytes 2 0x05)
  then Some LinkType.Download
  else if (2 <=? length bytes)%nat && byteIs bytes 0 0x4D && byteIs bytes 1 0x5A
  then Some LinkType.Download
  else if (4 <=? length bytes)%nat
     && byteIs bytes 0 0x7F && byteIs bytes 1 0x45
     && byteIs bytes 2 0x4C && byteIs bytes 3 0x46
  then Some LinkType.Download
  else None.

(** ** The HEAD probe: [performHeadRequest] *)

Module HeadResult.
Record t := {
  finalUrl : string;
  contentType : string;
  contentLength : option Number;
  contentDisposition : option string;
  redirectCount : nat;
  signals : list RiskSignal;
}.
End HeadResult.

(** The locals the loop of [performHeadRequest] assigns. *)
Module HeadLoop.
Record t := {
  signals : list RiskSignal;
  currentUrl : string;
  redirectCount : nat;
}.
End HeadLoop.

(** How one pass through the body of the [while] ends. *)
Inductive LoopExit :=
  | Continue (locals : HeadLoop.t)
  | Break (locals : HeadLoop.t)
  | Return (result : HeadResult.t).

Definition maxRedirects : nat := 3.

(** [fetch(currentUrl, { method: 'HEAD', credentials: 'omit',
    redirect: 'manual' })] *)
Definition headRequest (url : string) : Request :=
  {| method := HEAD; requestUrl := url; requestHeaders := [] |}.

(** The content type guessed in the [catch] block and after the loop. *)
Definition fallbackContentType (guessedType : option LinkType.t) : string :=
  match guessedType with
  | Some LinkType.PDF => "application/pdf"
  | Some LinkType.Image => "image/jpeg"
  | Some LinkType.Video => "video/mp4"
  | _ => "text/html"
  end.

(** The content type guessed for status 405, where a download has a guess
    of its own. *)
Definition fallbackContentType405 (guessedType : option LinkType.t) : string :=
  match guessedType with
  | Some LinkType.PDF => "application/pdf"
  | Some LinkType.Image => "image/jpeg"
  | Some LinkType.Video => "video/mp4"
  | Some LinkType.Download => "application/octet-stream"
  | _ => "text/html"
  end.

Definition redirectsSignal (redirectCount : nat) : RiskSignal :=
  {| level := RiskLevel.Amber; reason := "Redirects x" +:+ pretty redirectCount |}.

(** A value together with the equation that names it, for the recursion
    below. *)
Definition inspect {A} (a : A) : {b | a = b} := exist _ a eq_refl.

Section Prober.
Context `{Platform}.

(** The result built from the locals when no usable response was read: in
    the [catch] block and after the loop. *)
Definition guessedResult (locals : HeadLoop.t) : HeadResult.t :=
  {| HeadResult.finalUrl := HeadLoop.currentUrl locals;
     HeadResult.contentType :=
       fallbackContentType (guesslinkTypeFromUrl (HeadLoop.currentUrl locals));
     HeadResult.contentLength := None;
     HeadResult.contentDisposition := None;
     HeadResult.redirectCount := HeadLoop.redirectCount locals;
     HeadResult.signals := HeadLoop.signals locals |}.

(** One pass through the body of the [while].  Everything thrown inside the
    [try] ends the function with [guessedResult] of the locals as they are
    at that point.  The [fetch] is the only [await] of the pass and its
    timer is cleared after it, so the pass always ends. *)
Definition headIteration (locals : HeadLoop.t) (log : list Request)
  : LoopExit * list Request :=
  let currentUrl := HeadLoop.currentUrl locals in
  let redirectCount := HeadLoop.redirectCount locals in
  let signals := HeadLoop.signals locals in
  let log' := log ++ [headRequest currentUrl] in
  match network log (headRequest currentUrl) with
  | Rejected _ => (Return (guessedResult locals), log')
  | Responded response =>
      if decide (status response = 405) then
        (Return
           {| HeadResult.finalUrl := currentUrl;
              HeadResult.contentType :=
                fallbackContentType405 (guesslinkTypeFromUrl currentUrl);
              HeadResult.contentLength := None;
              HeadResult.contentDisposition := None;
              HeadResult.redirectCount := redirectCount;
              HeadResult.signals := signals |}, log')
      else
        match
          (if (300 <=? status response) && (status response <? 400)
           then Js.truthy (headers_get response "Location") else None)
        with
        | Some location =>
            let redirectCount := S redirectCount in
            if decide (maxRedirects < redirectCount)%nat then
              (Break
                 {| HeadLoop.signals := signals ++ [redirectsSignal redirectCount];
                    HeadLoop.currentUrl := currentUrl;
                    HeadLoop.redirectCount := redirectCount |}, log')
            else
              match newURL location (Some currentUrl) with
              | Some next =>
                  (Continue
                     {| HeadLoop.signals := signals;
                        HeadLoop.currentUrl := URL.href next;
                        HeadLoop.redirectCount := redirectCount |}, log')
              | None =>
                  (Return
                     (guessedResult
                        {| HeadLoop.signals := signals;
                           HeadLoop.currentUrl := currentUrl;
                           HeadLoop.redirectCount := redirectCount |}), log')
              end
        | None =>
            let signals :=
              if decide (2 ≤ redirectCount)%nat
              then signals ++ [redirectsSignal redirectCount] else signals in
            let contentType :=
              Js.orElse (headers_get response "Content-Type") "text/html" in
            let contentLength := headers_get response "Content-Length" in
            let contentDisposition := headers_get response "Content-Disposition" in
            (Return
               {| HeadResult.finalUrl := currentUrl;
                  HeadResult.contentType := contentType;
                  HeadResult.contentLength := parseInt <$> Js.truthy contentLength;
                  HeadResult.contentDisposition := contentDisposition;
                  HeadResult.redirectCount := redirectCount;
                  HeadResult.signals := signals |}, log')
        end
  end.

(** [while (redirectCount <= maxRedirects) { ... }] and the statements
    after it.  A pass that continues has counted one more redirect, which
    is why the loop ends. *)
Equations? headLoop (locals : HeadLoop.t) (log : list Request)
  : HeadResult.t * list Request
  by wf (S maxRedirects - HeadLoop.redirectCount locals)%nat lt :=
headLoop locals log with decide (HeadLoop.redirectCount locals ≤ maxRedirects)%nat := {
  | right _ => (guessedResult locals, log)
  | left _ with inspect (headIteration locals log) := {
      | exist _ (pair (Continue locals') log') pass => headLoop locals' log'
      | exist _ (pair (Break locals') log') _ => (guessedResult locals', log')
      | exist _ (pair (Return result) log') _ => (result, log') } }.
Proof.
  unfold headIteration in pass.
  repeat (match type of pass with
          | context [match ?x with _ => _ end] => destruct x
          end; try discriminate).
  injection pass as <- <-; simpl in *; lia.
Qed.

Definition performHeadRequest (url : URL.t) : Async HeadResult.t :=
  λ log,
    let '(result, log') :=
      headLoop {| HeadLoop.signals := []; HeadLoop.currentUrl := URL.href url;
                  HeadLoop.redirectCount := 0 |} log in
    (Normal result, log').

End Prober.

(** ** The magic-byte sniff and the partial fetch *)

Module PartialFetch.
Record t := { data : list Byte.byte; contentType : string }.
End PartialFetch.

(** The [while] of [performPartialFetch]: [stream] is what [reader.read()]
    yields from here on.  The chunk that reaches [maxBytes] is pushed whole
    before the loop is left. *)
Fixpoint readChunks (maxBytes totalLength : Z) (chunks : list (list Byte.byte))
    (stream : list StreamEvent) : Completion (list (list Byte.byte) * Z) :=
  if totalLength <? maxBytes then
    match stream with
    | [] => Normal (chunks, totalLength)
    | ReadError e :: _ => Throw e
    | Stalled :: _ => Pending
    | Chunk value :: rest =>
        let chunks := chunks ++ [value] in
        let totalLength := totalLength + Z.of_nat (length value) in
        if maxBytes <=? totalLength then Normal (chunks, totalLength)
        else readChunks maxBytes totalLength chunks rest
    end
  else Normal (chunks, totalLength).

(** The timer of [performPartialFetch]; when it fires the pending [fetch]
    rejects with an [AbortError]. *)
Definition partialFetchTimeout (maxBytes : Z) : Z :=
  if 500000 <? maxBytes then 8000 else 3000.

Section Fetcher.
Context `{Platform}.

Definition sniffRequest (url : string) : Request :=
  {| method := GET; requestUrl := url;
     requestHeaders := [("Range", "bytes=0-4095")] |}.

Definition performSniff (url : string) : Async (option LinkType.t) :=
  tryCatch
    (response ← fetch (sniffRequest url);
     bytes ← arrayBuffer response;
     mret (checkMagicBytes bytes))
    (λ _, mret None).

Definition partialFetchRequest (url referer : string) : Request :=
  {| method := GET; requestUrl := url;
     requestHeaders :=
       [ ("User-Agent", "Mozilla/5.0 (Windows NT 10.0; Win64; x64) AppleWebKit/537.36 (KHTML, like Gecko) Chrome/120.0.0.0 Safari/537.36");
         ("Accept", "text/html,application/xhtml+xml,application/xml;q=0.9,image/avif,image/webp,image/apng,*/*;q=0.8");
         ("Accept-Language", "en-US,en;q=0.9");
         ("Accept-Encoding", "gzip, deflate, br");
         ("Referer", referer);
         ("Sec-Fetch-Dest", "document");
         ("Sec-Fetch-Mode", "navigate");
         ("Sec-Fetch-Site", "cross-site");
         ("Sec-Fetch-User", "?1");
         ("Upgrade-Insecure-Requests", "1") ] |}.

Definition performPartialFetch (url : string) (maxBytes : Z)
  : Async PartialFetch.t :=
  tryCatch
    (parsed ← constructURL url None;
     response ← fetch (partialFetchRequest url (URL.origin parsed +:+ "/"));
     if decide (status response = 999) then
       throw (mkError "HTTP 999 - Cloudflare protection")
     else if negb (ok response) then
       throw (mkError ("HTTP " +:+ pretty (status response)))
     else
       let contentType :=
         Js.orElse (headers_get response "Content-Type") "text/html" in
       match body response with
       | None => throw (mkError "No response body")
       | Some stream =>
           λ log,
             match readChunks maxBytes 0 [] stream with
             | Normal (chunks, totalLength) =>
                 (Normal {| PartialFetch.data := concat chunks;
                            PartialFetch.contentType := contentType |}, log)
             | Throw e => (Throw e, log)
             | Pending => (Pending, log)
             end
       end)
    (λ error,
       if decide (errorName error = "AbortError")
       then throw (mkError "Request timed out")
       else throw error).

End Fetcher.

(** ** The orchestrator: [performPreflightCheck] *)

Module PreflightResult.
Record t := {
  domain : string;
  type : LinkType.t;
  risk : RiskLevel.t;
  reasons : list string;
  size : option Number;
  finalUrl : string;
  fetchPlan : FetchPlan.t;
  redirectCount : option nat;
  textMismatch : option TextMismatch;
  videoPlatform : option VideoPlatform;
}.
End PreflightResult.

(** A result with only the six fields every branch sets. *)
Definition terminal (domain : string) (type : LinkType.t) (risk : RiskLevel.t)
    (reasons : list string) (finalUrl : string) (fetchPlan : FetchPlan.t)
  : PreflightResult.t :=
  {| PreflightResult.domain := domain;
     PreflightResult.type := type;
     PreflightResult.risk := risk;
     PreflightResult.reasons := reasons;
     PreflightResult.size := None;
     PreflightResult.finalUrl := finalUrl;
     PreflightResult.fetchPlan := fetchPlan;
     PreflightResult.redirectCount := None;
     PreflightResult.textMismatch := None;
     PreflightResult.videoPlatform := None |}.

Section Orchestrator.
Context `{Platform}.

(** The part of [performPreflightCheck] that follows the HEAD probe. *)
Definition classifyProbed (allSignals : list RiskSignal)
    (textMismatch : option TextMismatch) (headResult : HeadResult.t)
  : Async PreflightResult.t :=
  let allSignals := allSignals ++ HeadResult.signals headResult in
  let type :=
    determineLinkTypeFromContentType
      (HeadResult.contentType headResult)
      (HeadResult.contentDisposition headResult) in
  let urlBasedType := guesslinkTypeFromUrl (HeadResult.finalUrl headResult) in
  let type := match urlBasedType with Some guessed => guessed | None => type end in
  '(type, allSignals) ←
    (if bool_decide (type = LinkType.Download)
        && Js.includes (HeadResult.contentType headResult) "octet-stream"
     then
       sniffedType ← performSniff (HeadResult.finalUrl headResult);
       match sniffedType with
       | Some sniffed =>
           mret (sniffed,
                 if decide (sniffed = LinkType.Download) then
                   allSignals ++ [{| level := RiskLevel.Red;
                                     reason := "Executable download" |}]
                 else allSignals)
       | None => mret (type, allSignals)
       end
     else mret (type, allSignals));
  let score := scoreRisk allSignals in
  let fetchPlan := decideFetchPlan type (risk score) in
  videoPlatform ←
    (if decide (type = LinkType.Video) then
       parsed ← constructURL (HeadResult.finalUrl headResult) None;
       mret (detectVideoPlatform parsed)
     else mret None);
  parsed ← constructURL (HeadResult.finalUrl headResult) None;
  mret {| PreflightResult.domain := extractDomain parsed;
          PreflightResult.type := type;
          PreflightResult.risk := risk score;
          PreflightResult.reasons := reasons score;
          PreflightResult.size := truthyNumber (HeadResult.contentLength headResult);
          PreflightResult.finalUrl := HeadResult.finalUrl headResult;
          PreflightResult.fetchPlan := fetchPlan;
          PreflightResult.redirectCount := Some (HeadResult.redirectCount headResult);
          PreflightResult.textMismatch := textMismatch;
          PreflightResult.videoPlatform := videoPlatform |}.

Definition performPreflightCheck (href anchorText pageOrigin : string)
  : Async PreflightResult.t :=
  let allSignals : list RiskSignal := [] in
  match normalizeAndGate href pageOrigin with
  | None =>
      mret (terminal "blocked" LinkType.Blocked RiskLevel.Red ["Unsafe scheme"]
              href FetchPlan.Blocked)
  | Some (url, gateSignals) =>
      let allSignals := allSignals ++ gateSignals in
      if decide (URL.protocol url = "mailto:") then
        mret (terminal (Js.orElse (Some (URL.hostname url)) "email") LinkType.Mailto
                RiskLevel.Green [] (URL.href url) FetchPlan.NoFetch)
      else if decide (URL.protocol url = "tel:") then
        mret (terminal (Js.orElse (Some (URL.hostname url)) "phone") LinkType.Tel
                RiskLevel.Green [] (URL.href url) FetchPlan.NoFetch)
      else if isSamePageAnchor url pageOrigin then
        mret (terminal (extractDomain url) LinkType.Anchor RiskLevel.Green []
                (URL.href url) FetchPlan.NoFetch)
      else
        let lexicalResult := performLexicalChecks url anchorText pageOrigin in
        let allSignals := allSignals ++ Lexical.signals lexicalResult in
        let textMismatch := Lexical.textMismatch lexicalResult in
        if decide (URL.protocol url = "http:" ∨ URL.protocol url = "https:") then
          headResult ← performHeadRequest url;
          classifyProbed allSignals textMismatch headResult
        else
          mret (terminal (extractDomain url) LinkType.Blocked RiskLevel.Red
                  ["Unknown protocol"] (URL.href url) FetchPlan.Blocked)
  end.

End Orchestrator.

(** ** The TTL cache: [CacheManager]

    [Date.now()] is an argument of the methods that read the clock once.
    The [Map] is a finite map: nothing below depends on its iteration
    order. *)

Definition CACHE_DURATION : Z := 5 * 60 * 1000.

Record Entry (T : Type) := { data : T; timestamp : Z }.
Arguments data {T} _.
Arguments timestamp {T} _.

Record CacheManager (T : Type) := {
  memoryCache : gmap string (Entry T);
  storageKey : string;
  isInitialized : bool;
}.
Arguments memoryCache {T} _.
Arguments storageKey {T} _.
Arguments isInitialized {T} _.

(** What [await chrome.storage.local.get(storageKey)] gives: a rejection,
    or an object that may hold a record under the key. *)
Inductive StorageRead (T : Type) :=
  | ReadRejected
  | ReadFulfilled (stored : option (gmap string (Entry T))).
Arguments ReadRejected {T}.
Arguments ReadFulfilled {T} stored.

Section CacheManager.
Context {T : Type}.

(** [new CacheManager(storageKey)], before [initialize] has run. *)
Definition newCacheManager (key : string) : CacheManager T :=
  {| memoryCache := ∅; storageKey := key; isInitialized := false |}.

Definition withMemory (cache : CacheManager T) (memory : gmap string (Entry T))
  : CacheManager T :=
  {| memoryCache := memory; storageKey := storageKey cache;
     isInitialized := isInitialized cache |}.

Definition initialize (now : Z) (read : StorageRead T) (cache : CacheManager T)
  : CacheManager T :=
  let memory :=
    match read with
    | ReadFulfilled (Some stored) =>
        map_fold
          (λ key entry memory,
             if decide (now - timestamp entry < CACHE_DURATION)
             then <[key := entry]> memory else memory)
          (memoryCache cache) stored
    | _ => memoryCache cache
    end in
  {| memoryCache := memory; storageKey := storageKey cache;
     isInitialized := true |}.

Definition get (now : Z) (key : string) (cache : CacheManager T)
  : option (Entry T) * CacheManager T :=
  match memoryCache cache !! key with
  | Some cached =>
      if decide (now - timestamp cached < CACHE_DURATION) then (Some cached, cache)
      else (None, withMemory cache (delete key (memoryCache cache)))
  | None => (None, cache)
  end.

(** The synchronous part of [set]; the promise of [persistToStorage] it
    starts is not awaited. *)
Definition set (now : Z) (key : string) (value : T) (cache : CacheManager T)
  : CacheManager T :=
  let entry := {| data := value; timestamp := now |} in
  withMemory cache (<[key := entry]> (memoryCache cache)).

(** [clear] empties the map; a failing [chrome.storage.local.remove] is
    logged and changes nothing else. *)
Definition clear (cache : CacheManager T) : CacheManager T :=
  withMemory cache ∅.

(** *** Persistence

    [persistToStorage] and [cleanup] call each other.  A run is followed on
    its own, without other handlers in between: [attempts] lists the
    records handed to [chrome.storage.local.set] so far and [clockReads]
    counts the calls of [Date.now()]. *)

Record Persistence := {
  manager : CacheManager T;
  attempts : list (gmap string (Entry T));
  clockReads : nat;
}.

(** The [k]-th reading of the clock. *)
Variable dateNow : nat → Z.
(** Whether [chrome.storage.local.set] fulfils, given the earlier attempts
    and the record to store. *)
Variable storageSet : list (gmap string (Entry T)) → gmap string (Entry T) → bool.

Fixpoint persistToStorage (fuel : nat) (run : Persistence) : option Persistence :=
  match fuel with
  | O => None
  | S fuel =>
      if negb (isInitialized (manager run)) then Some run
      else
        let now := dateNow (clockReads run) in
        let toStore :=
          filter (λ kv, now - timestamp kv.2 < CACHE_DURATION)
                 (memoryCache (manager run)) in
        let run' :=
          {| manager := manager run;
             attempts := attempts run ++ [toStore];
             clockReads := S (clockReads run) |} in
        if storageSet (attempts run) toStore then Some run'
        else cleanup fuel run'
  end
with cleanup (fuel : nat) (run : Persistence) : option Persistence :=
  match fuel with
  | O => None
  | S fuel =>
      let now := dateNow (clockReads run) in
      let memory :=
        filter (λ kv, ¬ (CACHE_DURATION <= now - timestamp kv.2))
               (memoryCache (manager run)) in
      persistToStorage fuel
        {| manager := withMemory (manager run) memory;
           attempts := attempts run;
           clockReads := S (clockReads run) |}
  end.

End CacheManager.

(** ** The [preflightCheck] message handler *)

Record PreflightResponse := { success : bool; result : PreflightResult.t }.

Section Handler.
Context `{Platform}.

(** The answer sent with [sendResponse] ([None] when it is never called),
    the cache and the request log after a [preflightCheck] message;
    [nowGet] and [nowSet] are the clock readings of [preflightCache.get]
    and [preflightCache.set]. *)
Definition onPreflightCheck (nowGet nowSet : Z)
    (href : string) (anchorText : option string) (pageOrigin : string)
    (preflightCache : CacheManager PreflightResult.t) (log : list Request)
  : option PreflightResponse * CacheManager PreflightResult.t * list Request :=
  match get nowGet href preflightCache with
  | (Some cached, preflightCache) =>
      (Some {| success := true; result := data cached |}, preflightCache, log)
  | (None, preflightCache) =>
      match performPreflightCheck href (Js.orElse anchorText "") pageOrigin log with
      | (Normal result, log') =>
          (Some {| success := true; result := result |},
           set nowSet href result preflightCache, log')
      | (Throw _, log') =>
          (Some {| success := true;
                   result := terminal "unknown" LinkType.Webpage RiskLevel.Amber
                               ["Unable to check"] href FetchPlan.PartialGet |},
           preflightCache, log')
      | (Pending, log') => (None, preflightCache, log')
      end
  end.

End Handler.

(** ** Vocabulary for statements about the HEAD probe *)

Section Redirects.
Context `{Platform}.

(** Asked with HEAD for [url] after the requests of [log], the network
    answers with a redirect whose [Location] resolves to [next]. *)
Definition redirectsTo (log : list Request) (url : string) (next : URL.t) : Prop :=
  ∃ response location,
    network log (headRequest url) = Responded response
    ∧ 300 ≤ status response < 400
    ∧ headers_get response "Location" = Some location
    ∧ location ≠ ""
    ∧ newURL location (Some url) = Some next.

(** A chain of redirects that starts at [url] and passes through [hops],
    each hop asked for after the requests made for the hops before it. *)
Fixpoint redirectChain (log : list Request) (url : string) (hops : list URL.t)
  : Prop :=
  match hops with
  | [] => True
  | next :: rest =>
      redirectsTo log url next
      ∧ redirectChain (log ++ [headRequest url]) (URL.href next) rest
  end.

(** The URLs asked for along a chain, the first one included. *)
Definition visited (url : string) (hops : list URL.t) : list string :=
  url :: (URL.href <$> hops).

(** Where a chain ends. *)
Definition lastVisited (url : string) (hops : list URL.t) : string :=
  default url (last (URL.href <$> hops)).

(** The request log once every hop has been followed and before the last
    URL is asked for. *)
Definition logAlong (log : list Request) (url : string) (hops : list URL.t)
  : list Request :=
  log ++ (headRequest <$> take (length hops) (visited url hops)).

End Redirects.

(** The body of a response stalls: reading it to its end never settles. *)
Definition stalls (response : Response) : Prop :=
  drain (default [] (body response)) = Pending.


(** ** Scripted platforms

    Small platforms on which the functions above can be run: the URLs the
    parser knows are listed in a table, lower-casing is that of ASCII and
    the network answers from a script. *)

Module Scripted.

Definition mkURL (protocol hostname pathname search hash : string) : URL.t :=
  {| URL.href := protocol +:+ "//" +:+ hostname +:+ pathname +:+ search +:+ hash;
     URL.protocol := protocol;
     URL.hostname := hostname;
     URL.pathname := pathname;
     URL.search := search;
     URL.hash := hash;
     URL.origin := protocol +:+ "//" +:+ hostname;
     URL.searchParams := [] |}.

Definition page : URL.t := mkURL "https:" "example.com" "/page" "" "".
Definition report : URL.t := mkURL "https:" "example.com" "/report.pdf" "" "".
Definition hop1 : URL.t := mkURL "https:" "example.com" "/hop1" "" "".
Definition hop2 : URL.t := mkURL "https:" "example.com" "/hop2" "" "".
Definition hop3 : URL.t := mkURL "https:" "example.com" "/hop3" "" "".
Definition hop4 : URL.t := mkURL "https:" "example.com" "/hop4" "" "".
Definition news : URL.t := mkURL "https:" "news.example" "/" "" "".
Definition script : URL.t :=
  {| URL.href := "javascript:alert(1)"; URL.protocol := "javascript:";
     URL.hostname := ""; URL.pathname := "alert(1)"; URL.search := "";
     URL.hash := ""; URL.origin := "null"; URL.searchParams := [] |}.

(** The absolute URLs the scripted parser accepts, whatever the base. *)
Definition knownURLs : list URL.t :=
  [page; report; hop1; hop2; hop3; hop4; news; script].

Definition parse (input : string) (base : option string) : option URL.t :=
  (λ found, found.2) <$> list_find (λ url, URL.href url = input) knownURLs.

(** [parseInt(text, 10)] on a text that starts with decimal digits. *)
Fixpoint digits (acc : option Z) (text : string) : option Z :=
  match text with
  | String c rest =>
      if DomainPattern.isDigit c
      then digits (Some (default 0 acc * 10 + Z.of_nat (nat_of_ascii c) - 48)) rest
      else acc
  | EmptyString => acc
  end.

Definition parseDecimal (text : string) : Number :=
  match digits None text with
  | Some z => Finite z
  | None => NaN
  end.

Definition platform (answers : list Request → Request → FetchOutcome) : Platform :=
  {| newURL := parse;
     toLowerCase := Js.asciiLowerCase;
     parseInt := parseDecimal;
     network := answers |}.

Definition answer (code : Z) (headers : list (string * string))
    (stream : option (list StreamEvent)) : Response :=
  {| status := code;
     headers_get := λ name,
       (λ found, found.2.2) <$> list_find (λ header, header.1 = name) headers;
     body := stream |}.

Definition redirect (code : Z) (location : string) : Response :=
  answer code [("Location", location)] None.

Definition html : Response := answer 200 [("Content-Type", "text/html")] None.

(** No connection: every [fetch] rejects. *)
Definition offline : Platform :=
  platform (λ _ _, Rejected {| errorName := "TypeError";
                               errorMessage := "Failed to fetch" |}).

(** [/hop1] redirects to [/hop2], that to [/hop3], that to [/page], which
    answers 200: three redirects. *)
Definition threeHopsScript (request : Request) : FetchOutcome :=
  if decide (requestUrl request = URL.href hop1) then
    Responded (redirect 302 (URL.href hop2))
  else if decide (requestUrl request = URL.href hop2) then
    Responded (redirect 301 (URL.href hop3))
  else if decide (requestUrl request = URL.href hop3) then
    Responded (redirect 302 (URL.href page))
  else Responded html.

Definition threeHops : Platform := platform (λ _, threeHopsScript).

(** One hop more: [/hop4] redirects to [/hop1]. *)
Definition fourHops : Platform :=
  platform (λ _ request,
    if decide (requestUrl request = URL.href hop4) then
      Responded (redirect 302 (URL.href hop1))
    else threeHopsScript request).

(** Every resource is served as an attachment. *)
Definition attached : Response :=
  answer 200 [("Content-Type", "application/pdf");
              ("Content-Disposition", "attachment; filename=report.pdf")] None.

Definition attachments : Platform := platform (λ _ _, Responded attached).

(** Every body arrives as one chunk of six bytes. *)
Definition sixBytes : Platform :=
  platform (λ _ _,
    Responded
      (answer 200 [("Content-Type", "text/html")]
         (Some [Chunk [Byte.x3c; Byte.x68; Byte.x74; Byte.x6d; Byte.x6c; Byte.x3e]]))).

(** A cache of titles that holds one entry, written at time 1000, and a
    clock that advances by one millisecond per reading. *)
Definition titles : CacheManager string :=
  initialize 1000 ReadRejected
    (set 1000 "https://example.com/page" "Example" (newCacheManager "hoverpeek_title_cache")).

Definition clock (reads : nat) : Z := 1001 + Z.of_nat reads.

Definition firstRun : Persistence (T := string) :=
  {| manager := titles; attempts := []; clockReads := 0 |}.

(** A durable store that rejects every write, and one that rejects the
    first two. *)
Definition rejectAll (earlier : list (gmap string (Entry string)))
    (record : gmap string (Entry string)) : bool := false.

Definition rejectTwice (earlier : list (gmap string (Entry string)))
    (record : gmap string (Entry string)) : bool :=
  bool_decide (2 ≤ length earlier)%nat.

End Scripted.

(** ** The head of [generatePreview] and its [catch] block *)

(** [shouldProcess], the test that follows the early return for a Red
    tier. *)
Definition shouldProcess (type : LinkType.t) (fetchPlan : FetchPlan.t) : bool :=
  (bool_decide (type = LinkType.Webpage) || bool_decide (type = LinkType.PDF)
   || bool_decide (type = LinkType.Image))
  && bool_decide (fetchPlan = FetchPlan.PartialGet)
  || bool_decide (type = LinkType.Download)
     && bool_decide (fetchPlan = FetchPlan.HeadOnly).

(** The three updates the [catch] block of [generatePreview] chooses from,
    by the message of the error: the Cloudflare notice, the silent
    [clearLoading], and "Preview unavailable". *)
Inductive PreviewFailure : Set :=
  | CloudflareNotice
  | ClearLoading
  | PreviewUnavailable.

Definition classifyFailure (errorMessage : string) : PreviewFailure :=
  if Js.includes errorMessage "HTTP 999"
     || Js.includes errorMessage "Cloudflare protection"
  then CloudflareNotice
  else
    let isCommonFailure :=
      Js.includes errorMessage "HTTP 404"
      || Js.includes errorMessage "HTTP 403"
      || Js.includes errorMessage "HTTP 410"
      || Js.includes errorMessage "Failed to fetch"
      || Js.includes errorMessage "CORS"
      || Js.includes errorMessage "timed out" in
    if isCommonFailure then ClearLoading else PreviewUnavailable.

(** ** More vocabulary *)

(** The [href] of every URL the parser produces parses on its own, as it
    does for the URL objects of a browser. *)
Definition reparses `{Platform} : Prop :=
  ∀ input base url, newURL input base = Some url →
    is_Some (newURL (URL.href url) None).

(** The code of a character, as [Js.codePoints] gives it for ASCII. *)
Definition code (c : ascii) : Z := Z.of_nat (nat_of_ascii c).

Definition isAscii (s : string) : Prop :=
  Forall (λ c, (nat_of_ascii c < 128)%nat) (String.list_ascii_of_string s).

(** The bytes of the chunks of a stream, in order. *)
Definition chunkBytes (chunks : list (list Byte.byte)) : list StreamEvent :=
  Chunk <$> chunks.

(** The locals of [performHeadRequest] when the loop is entered. *)
Definition probeStart (url : URL.t) : HeadLoop.t :=
  {| HeadLoop.signals := []; HeadLoop.currentUrl := URL.href url;
     HeadLoop.redirectCount := 0 |}.

(** What a persistence run that has settled in [run'] has done since
    [run]: the map has only lost entries, and none that was less than five
    minutes old at every reading of the clock in between; the records
    handed to the store were added to the attempts and each of them was
    part of the map at the start. *)
Definition settledFrom {T : Type} (dateNow : nat → Z)
    (run run' : Persistence (T := T)) : Prop :=
  memoryCache (manager run') ⊆ memoryCache (manager run)
  ∧ storageKey (manager run') = storageKey (manager run)
  ∧ isInitialized (manager run') = isInitialized (manager run)
  ∧ (clockReads run ≤ clockReads run')%nat
  ∧ (∃ more, attempts run' = attempts run ++ more
       ∧ Forall (λ record, record ⊆ memoryCache (manager run)) more)
  ∧ (∀ key entry,
       memoryCache (manager run) !! key = Some entry →
       (∀ i, (clockReads run ≤ i < clockReads run')%nat →
             dateNow i - timestamp entry < CACHE_DURATION) →
       memoryCache (manager run') !! key = Some entry).

(** ** More scripted platforms *)

Module Sample.

Definition mail : URL.t :=
  {| URL.href := "mailto:team@example.com"; URL.protocol := "mailto:";
     URL.hostname := ""; URL.pathname := "team@example.com"; URL.search := "";
     URL.hash := ""; URL.origin := "null"; URL.searchParams := [] |}.

Definition setup : URL.t := Scripted.mkURL "https:" "example.com" "/files/setup" "" "".

Definition watch : URL.t :=
  {| URL.href := "https://www.youtube.com/watch?v=abc123";
     URL.protocol := "https:"; URL.hostname := "www.youtube.com";
     URL.pathname := "/watch"; URL.search := "?v=abc123"; URL.hash := "";
     URL.origin := "https://www.youtube.com";
     URL.searchParams := [("v", "abc123")] |}.

(** A fragment of [Scripted.page], reached over plain HTTP. *)
Definition fragment : URL.t :=
  Scripted.mkURL "http:" "example.com" "/page" "" "#intro".

Definition parse (input : string) (base : option string) : option URL.t :=
  (λ found, found.2)
    <$> list_find (λ url, URL.href url = input)
          [mail; setup; Scripted.page; fragment].

Definition platform (answers : list Request → Request → FetchOutcome) : Platform :=
  {| newURL := parse;
     toLowerCase := Js.asciiLowerCase;
     parseInt := Scripted.parseDecimal;
     network := answers |}.

(** A Windows executable served as [application/octet-stream]. *)
Definition executable : Platform :=
  platform (λ _ request,
    match method request with
    | HEAD =>
        Responded (Scripted.answer 200
                     [("Content-Type", "application/octet-stream");
                      ("Content-Length", "1048576")] None)
    | GET =>
        Responded (Scripted.answer 206 []
                     (Some [Chunk [Byte.x4d; Byte.x5a; Byte.x90; Byte.x00]]))
    end).

(** [/hop1] redirects to [/hop2] and that to [/hop3], where HEAD is not
    allowed: two redirects, then status 405. *)
Definition notAllowed : Platform :=
  Scripted.platform (λ _ request,
    if decide (requestUrl request = URL.href Scripted.hop3) then
      Responded (Scripted.answer 405 [] None)
    else Scripted.threeHopsScript request).

(** An [application/octet-stream] whose body stalls after two bytes. *)
Definition stalling : Platform :=
  platform (λ _ request,
    match method request with
    | HEAD =>
        Responded (Scripted.answer 200
                     [("Content-Type", "application/octet-stream")] None)
    | GET =>
        Responded (Scripted.answer 206 []
                     (Some [Chunk [Byte.x4d; Byte.x5a]; Stalled]))
    end).

(** Every request is answered with the status of a bot challenge. *)
Definition challenged : Platform :=
  platform (λ _ _, Responded (Scripted.answer 999 [] None)).

(** A body of ten bytes that arrives in chunks of three, three and four. *)
Definition tenBytes : Platform :=
  platform (λ _ _,
    Responded
      (Scripted.answer 200 [("Content-Type", "text/html")]
         (Some (chunkBytes
                  [ [Byte.x30; Byte.x31; Byte.x32];
                    [Byte.x33; Byte.x34; Byte.x35];
                    [Byte.x36; Byte.x37; Byte.x38; Byte.x39] ])))).

End Sample.

(** * Properties *)

(** ** Risk reduction *)

Lemma firstReasons_filter (n : nat) (t : RiskLevel.t) (signals : list RiskSignal) :
  firstReasons n t signals = reason <$> take n (filter (λ s, level s = t) signals).
Proof.
  revert n; induction signals as [|s rest IH]; intros n.
  - destruct n; reflexivity.
  - destruct n as [|n]; [reflexivity|].
    simpl. rewrite filter_cons. destruct (decide (level s = t)); simpl.
    + now rewrite IH.
    + apply IH.
Qed.

Lemma hasTier_filter (t : RiskLevel.t) (signals : list RiskSignal) :
  hasTier t signals ↔ (0 < length (filter (λ s, level s = t) signals))%nat.
Proof.
  unfold hasTier; split.
  - intros (s & Hin & Hs).
    assert (s ∈ filter (λ s, level s = t) signals) as Hf
      by (apply list_elem_of_filter; auto).
    destruct (filter _ signals); [inversion Hf | simpl; lia].
  - intros Hlen.
    destruct (filter (λ s, level s = t) signals) as [|s rest] eqn:E;
      [simpl in Hlen; lia|].
    assert (s ∈ filter (λ s, level s = t) signals) as Hf by (rewrite E; left).
    apply list_elem_of_filter in Hf as [? ?]. eauto.
Qed.

Lemma hasTier_nonempty (t : RiskLevel.t) (signals : list RiskSignal) :
  hasTier t signals → length signals ≠ 0%nat.
Proof. intros (s & Hin & _). destruct signals; [inversion Hin | discriminate]. Qed.

Lemma hasTier_app (t : RiskLevel.t) (l more : list RiskSignal) :
  hasTier t (l ++ more) ↔ hasTier t l ∨ hasTier t more.
Proof.
  unfold hasTier; split.
  - intros (s & Hin & Hs). apply elem_of_app in Hin as [?|?]; eauto.
  - intros [(s & ? & ?)|(s & ? & ?)]; exists s; rewrite elem_of_app; auto.
Qed.

Lemma scoreRisk_red (signals : list RiskSignal) :
  hasTier RiskLevel.Red signals →
  scoreRisk signals =
    {| risk := RiskLevel.Red; reasons := firstReasons 2 RiskLevel.Red signals |}.
Proof.
  intros Hred. unfold scoreRisk.
  destruct (decide (length signals = 0%nat)) as [E|_];
    [now apply hasTier_nonempty in Hred|].
  apply hasTier_filter in Hred.
  destruct (decide _) as [_|]; [|contradiction].
  now rewrite firstReasons_filter.
Qed.

Lemma scoreRisk_amber (signals : list RiskSignal) :
  ¬ hasTier RiskLevel.Red signals → hasTier RiskLevel.Amber signals →
  scoreRisk signals =
    {| risk := RiskLevel.Amber; reasons := firstReasons 2 RiskLevel.Amber signals |}.
Proof.
  intros Hred Hamber. unfold scoreRisk.
  destruct (decide (length signals = 0%nat)) as [E|_];
    [now apply hasTier_nonempty in Hamber|].
  rewrite hasTier_filter in Hred. rewrite hasTier_filter in Hamber.
  destruct (decide _) as [|_]; [contradiction|].
  destruct (decide _) as [_|]; [|contradiction].
  now rewrite firstReasons_filter.
Qed.

Lemma scoreRisk_green (signals : list RiskSignal) :
  ¬ hasTier RiskLevel.Red signals → ¬ hasTier RiskLevel.Amber signals →
  scoreRisk signals = {| risk := RiskLevel.Green; reasons := [] |}.
Proof.
  intros Hred Hamber. unfold scoreRisk.
  rewrite hasTier_filter in Hred. rewrite hasTier_filter in Hamber.
  destruct (decide (length signals = 0%nat)); [reflexivity|].
  destruct (decide _); [contradiction|].
  destruct (decide _); [contradiction|reflexivity].
Qed.

Lemma hasTier_dec (t : RiskLevel.t) (signals : list RiskSignal) :
  hasTier t signals ∨ ¬ hasTier t signals.
Proof.
  rewrite hasTier_filter.
  destruct (decide (0 < length (filter (λ s, level s = t) signals))%nat); auto.
Qed.

(** The tier of a list, by cases on the tiers present in it. *)
Lemma scoreRisk_tier (signals : list RiskSignal) :
  (hasTier RiskLevel.Red signals ∧ risk (scoreRisk signals) = RiskLevel.Red)
  ∨ (¬ hasTier RiskLevel.Red signals ∧ hasTier RiskLevel.Amber signals
     ∧ risk (scoreRisk signals) = RiskLevel.Amber)
  ∨ (¬ hasTier RiskLevel.Red signals ∧ ¬ hasTier RiskLevel.Amber signals
     ∧ risk (scoreRisk signals) = RiskLevel.Green).
Proof.
  destruct (hasTier_dec RiskLevel.Red signals) as [Hr|Hr].
  - left. now rewrite scoreRisk_red.
  - destruct (hasTier_dec RiskLevel.Amber signals) as [Ha|Ha].
    + right; left. now rewrite scoreRisk_amber.
    + right; right. now rewrite scoreRisk_green.
Qed.

Lemma scoreRisk_monotone (signals more : list RiskSignal) :
  RiskLevel.le (risk (scoreRisk signals)) (risk (scoreRisk (signals ++ more))).
Proof.
  unfold RiskLevel.le.
  destruct (scoreRisk_tier signals) as [[Hr ->]|[(Hr & Ha & ->)|(Hr & Ha & ->)]];
    destruct (scoreRisk_tier (signals ++ more))
      as [[Hr' ->]|[(Hr' & Ha' & ->)|(Hr' & Ha' & ->)]];
    simpl; try lia.
  - exfalso. apply Hr'. apply hasTier_app. auto.
  - exfalso. apply Hr'. apply hasTier_app. auto.
  - exfalso. apply Ha'. apply hasTier_app. auto.
Qed.

Lemma scoreRisk_tier_ext (l l' : list RiskSignal) :
  (hasTier RiskLevel.Red l ↔ hasTier RiskLevel.Red l') →
  (hasTier RiskLevel.Amber l ↔ hasTier RiskLevel.Amber l') →
  risk (scoreRisk l) = risk (scoreRisk l').
Proof.
  intros Hred Hamber.
  destruct (scoreRisk_tier l) as [[Hr ->]|[(Hr & Ha & ->)|(Hr & Ha & ->)]];
    destruct (scoreRisk_tier l') as [[Hr' ->]|[(Hr' & Ha' & ->)|(Hr' & Ha' & ->)]];
    try reflexivity; tauto.
Qed.

(** C4. Risk reduction: with a Red signal the tier is Red and the reasons
    are those of the first two Red signals in list order; without one but
    with an Amber signal the tier is Amber and the reasons are those of the
    first two Amber signals; otherwise the tier is Green and there is no
    reason.  Appending a Red signal to a list of tier Amber gives tier Red,
    appending any signals never lowers the tier, and appending Green
    signals leaves it as it is. *)
Theorem scoreRisk_reduction (signals : list RiskSignal) :
  (hasTier RiskLevel.Red signals →
   scoreRisk signals =
     {| risk := RiskLevel.Red; reasons := firstReasons 2 RiskLevel.Red signals |})
  ∧ (¬ hasTier RiskLevel.Red signals → hasTier RiskLevel.Amber signals →
     scoreRisk signals =
       {| risk := RiskLevel.Amber;
          reasons := firstReasons 2 RiskLevel.Amber signals |})
  ∧ (¬ hasTier RiskLevel.Red signals → ¬ hasTier RiskLevel.Amber signals →
     scoreRisk signals = {| risk := RiskLevel.Green; reasons := [] |})
  ∧ (∀ s, risk (scoreRisk signals) = RiskLevel.Amber → level s = RiskLevel.Red →
     risk (scoreRisk (signals ++ [s])) = RiskLevel.Red)
  ∧ (∀ more,
     RiskLevel.le (risk (scoreRisk signals)) (risk (scoreRisk (signals ++ more))))
  ∧ (∀ more, Forall (λ s, level s = RiskLevel.Green) more →
     risk (scoreRisk (signals ++ more)) = risk (scoreRisk signals)).
Proof.
  split; [apply scoreRisk_red|].
  split; [apply scoreRisk_amber|].
  split; [apply scoreRisk_green|].
  split; [|split; [apply scoreRisk_monotone|]].
  - intros s _ Hs. rewrite scoreRisk_red; [reflexivity|].
    exists s. split; [|exact Hs]. apply elem_of_app. right. left.
  - intros more Hgreen.
    assert (∀ t, t ≠ RiskLevel.Green → hasTier t (signals ++ more) ↔ hasTier t signals)
      as Hsame.
    { intros t Ht. rewrite hasTier_app. split; [|auto].
      intros [?|(s & Hin & Hs)]; [assumption|].
      rewrite Forall_forall in Hgreen. apply Hgreen in Hin. congruence. }
    apply scoreRisk_tier_ext; apply Hsame; discriminate.
Qed.

Lemma scoreRisk_reduction_witness :
  let signals :=
    [ {| level := RiskLevel.Amber; reason := "HTTP (not secure)" |};
      {| level := RiskLevel.Amber; reason := "Redirects x2" |} ] in
  let red := {| level := RiskLevel.Red; reason := "Executable download" |} in
  scoreRisk signals =
    {| risk := RiskLevel.Amber; reasons := ["HTTP (not secure)"; "Redirects x2"] |}
  ∧ risk (scoreRisk (signals ++ [red])) = RiskLevel.Red.
Proof.
  intros signals red.
  destruct (scoreRisk_reduction signals) as (_ & Hamber & _ & Happend & _).
  split.
  - apply Hamber.
    + intros (s & Hin & Hs).
      repeat (apply elem_of_cons in Hin as [->|Hin]); try discriminate.
      inversion Hin.
    + eexists; split; [left|reflexivity].
  - apply Happend; reflexivity.
Defined.

(** ** The fetch planner *)

(** C3. The planner is the priority table: for every type and tier,
    [decideFetchPlan] picks the plan of the first row of the table whose
    guard holds, and [PartialGet] when none does. *)
Theorem decideFetchPlan_is_table (type : LinkType.t) (tier : RiskLevel.t) :
  decideFetchPlan type tier = fetchPlanTable type tier.
Proof. destruct type, tier; reflexivity. Qed.

(** ** Asynchronous computations *)

Ltac run_async :=
  unfold mbind, mret, Async_bind, Async_ret, throw, tryCatch, constructURL,
    arrayBuffer in *.

Ltac in_list :=
  solve [repeat (first [apply list_elem_of_here | apply list_elem_of_further])].

(** ** The HEAD probe *)

Section ProberFacts.
Context `{Platform}.

Lemma headLoop_step (locals : HeadLoop.t) (log : list Request) :
  headLoop locals log =
    if decide (HeadLoop.redirectCount locals ≤ maxRedirects)%nat then
      match headIteration locals log with
      | (Continue locals', log') => headLoop locals' log'
      | (Break locals', log') => (guessedResult locals', log')
      | (Return result, log') => (result, log')
      end
    else (guessedResult locals, log).
Proof.
  rewrite headLoop_equation_1.
  destruct (decide _); simpl; [|reflexivity].
  destruct (headIteration locals log) as [[l'|l'|r] log']; reflexivity.
Qed.

Lemma truthy_nonempty (s : string) : s ≠ "" → Js.truthy (Some s) = Some s.
Proof. destruct s; [congruence|reflexivity]. Qed.

Lemma headIteration_redirect (signals : list RiskSignal) (url : string)
    (count : nat) (log : list Request) (next : URL.t) :
  redirectsTo log url next → (S count ≤ maxRedirects)%nat →
  headIteration
    {| HeadLoop.signals := signals; HeadLoop.currentUrl := url;
       HeadLoop.redirectCount := count |} log
  = (Continue {| HeadLoop.signals := signals; HeadLoop.currentUrl := URL.href next;
                 HeadLoop.redirectCount := S count |},
     log ++ [headRequest url]).
Proof.
  intros (response & location & Hnet & Hstatus & Hloc & Hne & Hurl) Hcount.
  unfold headIteration, fetch; simpl. rewrite Hnet.
  destruct (decide (status response = 405)); [lia|].
  replace ((300 <=? status response) && (status response <? 400)) with true
    by (symmetry; apply andb_true_iff; split; [apply Z.leb_le|apply Z.ltb_lt]; lia).
  rewrite Hloc, (truthy_nonempty _ Hne).
  destruct (decide (maxRedirects < S count)%nat); [lia|].
  now rewrite Hurl.
Qed.

Lemma lastVisited_cons (url : string) (next : URL.t) (rest : list URL.t) :
  lastVisited url (next :: rest) = lastVisited (URL.href next) rest.
Proof.
  unfold lastVisited. rewrite !fmap_cons, last_cons.
  destruct rest as [|hop rest]; [reflexivity|].
  rewrite fmap_cons, last_cons. now destruct (last _).
Qed.

(** Following a chain of redirects that stays within the cap. *)
Lemma headLoop_follow (hops : list URL.t) :
  ∀ (log : list Request) (url : string) (count : nat) (signals : list RiskSignal),
    redirectChain log url hops →
    (count + length hops ≤ maxRedirects)%nat →
    headLoop {| HeadLoop.signals := signals; HeadLoop.currentUrl := url;
                HeadLoop.redirectCount := count |} log
    = headLoop {| HeadLoop.signals := signals;
                  HeadLoop.currentUrl := lastVisited url hops;
                  HeadLoop.redirectCount := count + length hops |}
               (logAlong log url hops).
Proof.
  induction hops as [|next rest IH]; intros log url count signals Hchain Hcount.
  - unfold logAlong, lastVisited; simpl.
    now rewrite Nat.add_0_r, app_nil_r.
  - destruct Hchain as [Hhop Hrest]. simpl in Hcount.
    rewrite headLoop_step; simpl.
    destruct (decide (count ≤ maxRedirects)%nat); [|lia].
    rewrite (headIteration_redirect _ _ _ _ _ Hhop) by lia.
    rewrite (IH _ _ _ _ Hrest) by (simpl; lia).
    rewrite lastVisited_cons. unfold logAlong; simpl.
    rewrite <- app_assoc; simpl.
    now rewrite Nat.add_succ_r.
Qed.

(** The last URL answers with status 200. *)
Lemma headLoop_ok (signals : list RiskSignal) (url : string) (count : nat)
    (log : list Request) (response : Response) :
  network log (headRequest url) = Responded response →
  status response = 200 → (count ≤ maxRedirects)%nat →
  headLoop {| HeadLoop.signals := signals; HeadLoop.currentUrl := url;
              HeadLoop.redirectCount := count |} log
  = ({| HeadResult.finalUrl := url;
        HeadResult.contentType :=
          Js.orElse (headers_get response "Content-Type") "text/html";
        HeadResult.contentLength :=
          parseInt <$> Js.truthy (headers_get response "Content-Length");
        HeadResult.contentDisposition := headers_get response "Content-Disposition";
        HeadResult.redirectCount := count;
        HeadResult.signals :=
          if decide (2 ≤ count)%nat then signals ++ [redirectsSignal count]
          else signals |},
     log ++ [headRequest url]).
Proof.
  intros Hnet Hstatus Hcount.
  rewrite headLoop_step; simpl.
  destruct (decide (count ≤ maxRedirects)%nat); [|lia].
  unfold headIteration, fetch; simpl. rewrite Hnet, Hstatus. reflexivity.
Qed.

(** The last URL of a chain at the cap answers with one more redirect. *)
Lemma headLoop_cap (signals : list RiskSignal) (url location : string)
    (log : list Request) (response : Response) :
  network log (headRequest url) = Responded response →
  300 ≤ status response < 400 →
  headers_get response "Location" = Some location → location ≠ "" →
  headLoop {| HeadLoop.signals := signals; HeadLoop.currentUrl := url;
              HeadLoop.redirectCount := maxRedirects |} log
  = (guessedResult
       {| HeadLoop.signals := signals ++ [redirectsSignal (S maxRedirects)];
          HeadLoop.currentUrl := url;
          HeadLoop.redirectCount := S maxRedirects |},
     log ++ [headRequest url]).
Proof.
  intros Hnet Hstatus Hloc Hne.
  rewrite headLoop_step; simpl.
  unfold headIteration, fetch; simpl. rewrite Hnet.
  destruct (decide (status response = 405)); [lia|].
  replace ((300 <=? status response) && (status response <? 400)) with true
    by (symmetry; apply andb_true_iff; split; [apply Z.leb_le|apply Z.ltb_lt]; lia).
  rewrite Hloc, (truthy_nonempty _ Hne). reflexivity.
Qed.

(** The last URL answers with a status other than 405 and the answer is
    not a redirect that can be followed. *)
Lemma headLoop_answer (signals : list RiskSignal) (url : string) (count : nat)
    (log : list Request) (response : Response) :
  network log (headRequest url) = Responded response →
  status response ≠ 405 →
  ¬ (300 ≤ status response < 400)
  ∨ Js.truthy (headers_get response "Location") = None →
  (count ≤ maxRedirects)%nat →
  headLoop {| HeadLoop.signals := signals; HeadLoop.currentUrl := url;
              HeadLoop.redirectCount := count |} log
  = ({| HeadResult.finalUrl := url;
        HeadResult.contentType :=
          Js.orElse (headers_get response "Content-Type") "text/html";
        HeadResult.contentLength :=
          parseInt <$> Js.truthy (headers_get response "Content-Length");
        HeadResult.contentDisposition := headers_get response "Content-Disposition";
        HeadResult.redirectCount := count;
        HeadResult.signals :=
          if decide (2 ≤ count)%nat then signals ++ [redirectsSignal count]
          else signals |},
     log ++ [headRequest url]).
Proof.
  intros Hnet Hstatus Hfinal Hcount.
  rewrite headLoop_step; simpl.
  destruct (decide (count ≤ maxRedirects)%nat); [|lia].
  unfold headIteration; simpl. rewrite Hnet.
  destruct (decide (status response = 405)); [contradiction|].
  destruct Hfinal as [Hother| ->].
  - replace ((300 <=? status response) && (status response <? 400)) with false;
      [reflexivity|].
    symmetry. apply andb_false_iff.
    destruct (Z.leb_spec 300 (status response)); [right|left; reflexivity].
    apply Z.ltb_ge. lia.
  - now destruct ((300 <=? status response) && (status response <? 400)).
Qed.

(** The last URL answers with status 405: the probe returns before the
    rule for two or more redirects. *)
Lemma headLoop_not_allowed (signals : list RiskSignal) (url : string) (count : nat)
    (log : list Request) (response : Response) :
  network log (headRequest url) = Responded response →
  status response = 405 → (count ≤ maxRedirects)%nat →
  headLoop {| HeadLoop.signals := signals; HeadLoop.currentUrl := url;
              HeadLoop.redirectCount := count |} log
  = ({| HeadResult.finalUrl := url;
        HeadResult.contentType :=
          fallbackContentType405 (guesslinkTypeFromUrl url);
        HeadResult.contentLength := None;
        HeadResult.contentDisposition := None;
        HeadResult.redirectCount := count;
        HeadResult.signals := signals |},
     log ++ [headRequest url]).
Proof.
  intros Hnet Hstatus Hcount.
  rewrite headLoop_step; simpl.
  destruct (decide (count ≤ maxRedirects)%nat); [|lia].
  unfold headIteration; simpl. rewrite Hnet.
  destruct (decide (status response = 405)); [reflexivity|contradiction].
Qed.

(** The request for the last URL fails: the [catch] block returns. *)
Lemma headLoop_rejected (signals : list RiskSignal) (url : string) (count : nat)
    (log : list Request) (e : JsError) :
  network log (headRequest url) = Rejected e → (count ≤ maxRedirects)%nat →
  headLoop {| HeadLoop.signals := signals; HeadLoop.currentUrl := url;
              HeadLoop.redirectCount := count |} log
  = (guessedResult {| HeadLoop.signals := signals; HeadLoop.currentUrl := url;
                      HeadLoop.redirectCount := count |},
     log ++ [headRequest url]).
Proof.
  intros Hnet Hcount.
  rewrite headLoop_step; simpl.
  destruct (decide (count ≤ maxRedirects)%nat); [|lia].
  unfold headIteration; simpl. now rewrite Hnet.
Qed.

(** The last URL answers with a redirect to a location that does not
    parse: the redirect is counted, [new URL] throws and the [catch] block
    returns. *)
Lemma headLoop_unparsable (signals : list RiskSignal) (url : string) (count : nat)
    (log : list Request) (response : Response) (location : string) :
  network log (headRequest url) = Responded response →
  300 ≤ status response < 400 →
  headers_get response "Location" = Some location → location ≠ "" →
  newURL location (Some url) = None →
  (count < maxRedirects)%nat →
  headLoop {| HeadLoop.signals := signals; HeadLoop.currentUrl := url;
              HeadLoop.redirectCount := count |} log
  = (guessedResult {| HeadLoop.signals := signals; HeadLoop.currentUrl := url;
                      HeadLoop.redirectCount := S count |},
     log ++ [headRequest url]).
Proof.
  intros Hnet Hstatus Hloc Hne Hparse Hcount.
  rewrite headLoop_step; simpl.
  destruct (decide (count ≤ maxRedirects)%nat); [|lia].
  unfold headIteration; simpl. rewrite Hnet.
  destruct (decide (status response = 405)); [lia|].
  replace ((300 <=? status response) && (status response <? 400)) with true
    by (symmetry; apply andb_true_iff; split; [apply Z.leb_le|apply Z.ltb_lt]; lia).
  rewrite Hloc, (truthy_nonempty _ Hne).
  destruct (decide (maxRedirects < S count)%nat); [lia|].
  now rewrite Hparse.
Qed.

(** A probe that follows a chain within the cap continues from its end. *)
Lemma performHeadRequest_follow (url : URL.t) (hops : list URL.t)
    (log : list Request) :
  redirectChain log (URL.href url) hops → (length hops ≤ maxRedirects)%nat →
  performHeadRequest url log
  = (let '(result, log') :=
       headLoop {| HeadLoop.signals := [];
                   HeadLoop.currentUrl := lastVisited (URL.href url) hops;
                   HeadLoop.redirectCount := length hops |}
                (logAlong log (URL.href url) hops) in
     (Normal result, log')).
Proof.
  intros Hchain Hlen. unfold performHeadRequest.
  now rewrite (headLoop_follow hops _ _ 0%nat [] Hchain) by (simpl; lia).
Qed.

End ProberFacts.

(** C5, as stated, fails in its last part: after two redirects the
    third URL answers 405, and the probe returns with [redirectCount = 2]
    and no signal at all; the classification of the link is Green. *)
Lemma two_redirects_without_signal :
  redirectChain (H := Sample.notAllowed) [] (URL.href Scripted.hop1)
    [Scripted.hop2; Scripted.hop3]
  ∧ ∃ result log',
      @performHeadRequest Sample.notAllowed Scripted.hop1 [] = (Normal result, log')
      ∧ HeadResult.redirectCount result = 2%nat
      ∧ HeadResult.signals result = []
      ∧ length log' = 3%nat
      ∧ ∃ classified,
          (@performPreflightCheck Sample.notAllowed
             "https://example.com/hop1" "" "https://news.example/" []).1
          = Normal classified
          ∧ PreflightResult.risk classified = RiskLevel.Green
          ∧ PreflightResult.reasons classified = [].
Proof.
  split.
  - repeat split;
      (do 2 eexists; split; [reflexivity|]; simpl;
       split; [lia|]; split; [reflexivity|]; split; [discriminate|reflexivity]).
  - do 2 eexists. vm_compute. repeat split. eexists. repeat split.
Qed.

(** C5, amended. Let the network redirect a HEAD probe from [url] through
    [hops].  With three hops and a final answer of status 200 the probe
    returns [redirectCount = 3] after four requests, and its only signal
    is the "Redirects x3" of the rule for two or more redirects: the
    signal of the cap, "Redirects x4", is not there.  With three hops and
    a fourth redirect as the answer, the cap signal Amber "Redirects x4"
    is the only signal, the final URL is the one reached at hop 3, the
    count is 4 and no request is made for the fourth location.  The rule
    for two or more redirects applies only when the answer that ends the
    chain is read to the end of the loop body: for [n] hops within the
    cap and a final answer that is not a 405 and not a redirect that can
    be followed, the signal is Amber "Redirects x<n>" when [n] is at least
    2 and there is none otherwise; when the final answer has status 405,
    or the final request fails, the probe returns with count [n] and no
    signal, whatever [n] is; and when, after fewer than three hops, the
    final answer is a redirect to a location that does not parse, the
    probe returns with count [n + 1] and no signal. *)
Theorem redirect_cap `{Platform} (url : URL.t) (hops : list URL.t)
    (log : list Request) :
  redirectChain log (URL.href url) hops →
  let final := lastVisited (URL.href url) hops in
  let before := logAlong log (URL.href url) hops in
  let log' := before ++ [headRequest final] in
  (length hops = 3%nat →
   ∀ response,
     network before (headRequest final) = Responded response →
     status response = 200 →
     ∃ result, performHeadRequest url log = (Normal result, log')
       ∧ HeadResult.redirectCount result = 3%nat
       ∧ HeadResult.finalUrl result = final
       ∧ HeadResult.signals result =
           [{| level := RiskLevel.Amber; reason := "Redirects x3" |}]
       ∧ {| level := RiskLevel.Amber; reason := "Redirects x4" |}
           ∉ HeadResult.signals result)
  ∧ (length hops = 3%nat →
     ∀ response,
       network before (headRequest final) = Responded response →
       300 ≤ status response < 400 →
       (∃ location, headers_get response "Location" = Some location
                    ∧ location ≠ "") →
       ∃ result, performHeadRequest url log = (Normal result, log')
         ∧ HeadResult.signals result =
             [{| level := RiskLevel.Amber; reason := "Redirects x4" |}]
         ∧ HeadResult.finalUrl result = final
         ∧ HeadResult.redirectCount result = 4%nat
         ∧ length log' = (length log + 4)%nat)
  ∧ ((length hops ≤ 3)%nat →
     ∀ response,
       network before (headRequest final) = Responded response →
       status response ≠ 405 →
       ¬ (300 ≤ status response < 400)
       ∨ Js.truthy (headers_get response "Location") = None →
       ∃ result, performHeadRequest url log = (Normal result, log')
         ∧ HeadResult.redirectCount result = length hops
         ∧ HeadResult.finalUrl result = final
         ∧ HeadResult.signals result =
             if decide (2 ≤ length hops)%nat
             then [{| level := RiskLevel.Amber;
                      reason := "Redirects x" +:+ pretty (length hops) |}]
             else [])
  ∧ ((length hops ≤ 3)%nat →
     ∀ response,
       network before (headRequest final) = Responded response →
       status response = 405 →
       ∃ result, performHeadRequest url log = (Normal result, log')
         ∧ HeadResult.redirectCount result = length hops
         ∧ HeadResult.finalUrl result = final
         ∧ HeadResult.signals result = [])
  ∧ ((length hops ≤ 3)%nat →
     ∀ e,
       network before (headRequest final) = Rejected e →
       ∃ result, performHeadRequest url log = (Normal result, log')
         ∧ HeadResult.redirectCount result = length hops
         ∧ HeadResult.finalUrl result = final
         ∧ HeadResult.signals result = [])
  ∧ ((length hops < 3)%nat →
     ∀ response location,
       network before (headRequest final) = Responded response →
       300 ≤ status response < 400 →
       headers_get response "Location" = Some location → location ≠ "" →
       newURL location (Some final) = None →
       ∃ result, performHeadRequest url log = (Normal result, log')
         ∧ HeadResult.redirectCount result = S (length hops)
         ∧ HeadResult.finalUrl result = final
         ∧ HeadResult.signals result = []).
Proof.
  intros Hchain final before log'.
  pose proof (performHeadRequest_follow url hops log Hchain) as Hfollow.
  fold final before in Hfollow.
  split; [|split; [|split; [|split; [|split]]]].
  - intros Hlen response Hnet Hstatus.
    rewrite Hfollow by (unfold maxRedirects; lia).
    rewrite (headLoop_ok _ _ _ _ _ Hnet Hstatus) by (unfold maxRedirects; lia).
    eexists; split; [reflexivity|]. simpl. rewrite Hlen. simpl.
    repeat split; try reflexivity.
    intros Hin. apply list_elem_of_singleton in Hin. discriminate.
  - intros Hlen response Hnet Hstatus (location & Hloc & Hne).
    rewrite Hfollow by (unfold maxRedirects; lia).
    rewrite Hlen. change 3%nat with maxRedirects.
    rewrite (headLoop_cap _ _ _ _ _ Hnet Hstatus Hloc Hne).
    eexists; split; [reflexivity|]. simpl.
    repeat split; try reflexivity.
    unfold log', before, logAlong. rewrite !length_app, length_fmap, length_take.
    unfold visited, maxRedirects; simpl. rewrite length_fmap. lia.
  - intros Hlen response Hnet Hstatus Hfinal.
    rewrite Hfollow by (unfold maxRedirects; lia).
    rewrite (headLoop_answer _ _ _ _ _ Hnet Hstatus Hfinal)
      by (unfold maxRedirects; lia).
    eexists; split; [reflexivity|]. simpl. split; [reflexivity|].
    split; [reflexivity|].
    destruct (decide (2 ≤ length hops)%nat); reflexivity.
  - intros Hlen response Hnet Hstatus.
    rewrite Hfollow by (unfold maxRedirects; lia).
    rewrite (headLoop_not_allowed _ _ _ _ _ Hnet Hstatus)
      by (unfold maxRedirects; lia).
    eexists; split; [reflexivity|]. simpl. auto.
  - intros Hlen e Hnet.
    rewrite Hfollow by (unfold maxRedirects; lia).
    rewrite (headLoop_rejected _ _ _ _ _ Hnet) by (unfold maxRedirects; lia).
    eexists; split; [reflexivity|]. simpl. auto.
  - intros Hlen response location Hnet Hstatus Hloc Hne Hparse.
    rewrite Hfollow by (unfold maxRedirects; lia).
    rewrite (headLoop_unparsable _ _ _ _ _ _ Hnet Hstatus Hloc Hne Hparse)
      by (unfold maxRedirects; lia).
    eexists; split; [reflexivity|]. simpl. auto.
Qed.

Lemma redirect_cap_witness :
  (∃ result log',
     @performHeadRequest Scripted.threeHops Scripted.hop1 [] = (Normal result, log')
     ∧ HeadResult.redirectCount result = 3%nat
     ∧ HeadResult.finalUrl result = "https://example.com/page"
     ∧ HeadResult.signals result =
         [{| level := RiskLevel.Amber; reason := "Redirects x3" |}])
  ∧ (∃ result log',
       @performHeadRequest Scripted.fourHops Scripted.hop4 [] = (Normal result, log')
       ∧ HeadResult.signals result =
           [{| level := RiskLevel.Amber; reason := "Redirects x4" |}]
       ∧ HeadResult.finalUrl result = "https://example.com/hop3"
       ∧ length log' = 4%nat)
  ∧ (∃ result log',
       @performHeadRequest Sample.notAllowed Scripted.hop1 [] = (Normal result, log')
       ∧ HeadResult.redirectCount result = 2%nat
       ∧ HeadResult.signals result = []).
Proof.
  split; [|split].
  - destruct (@redirect_cap Scripted.threeHops Scripted.hop1
                [Scripted.hop2; Scripted.hop3; Scripted.page] [])
      as [Hthree _].
    + repeat split;
        (do 2 eexists; split; [reflexivity|]; simpl;
         split; [lia|]; split; [reflexivity|]; split; [discriminate|reflexivity]).
    + destruct (Hthree eq_refl Scripted.html eq_refl eq_refl)
        as (result & Hrun & Hcount & Hfinal & Hsignals & _).
      exists result. eexists. repeat split; eassumption.
  - destruct (@redirect_cap Scripted.fourHops Scripted.hop4
                [Scripted.hop1; Scripted.hop2; Scripted.hop3] [])
      as (_ & Hfour & _).
    + repeat split;
        (do 2 eexists; split; [reflexivity|]; simpl;
         split; [lia|]; split; [reflexivity|]; split; [discriminate|reflexivity]).
    + destruct (Hfour eq_refl (Scripted.redirect 302 (URL.href Scripted.page)) eq_refl)
        as (result & Hrun & Hsignals & Hfinal & _ & Hlen);
        [simpl; lia|eexists; split; [reflexivity|discriminate]|].
      exists result. eexists. repeat split; eassumption.
  - destruct (@redirect_cap Sample.notAllowed Scripted.hop1
                [Scripted.hop2; Scripted.hop3] [])
      as (_ & _ & _ & Hrefused & _).
    + repeat split;
        (do 2 eexists; split; [reflexivity|]; simpl;
         split; [lia|]; split; [reflexivity|]; split; [discriminate|reflexivity]).
    + destruct (Hrefused ltac:(simpl; lia) (Scripted.answer 405 [] None)
                  eq_refl eq_refl)
        as (result & Hrun & Hcount & _ & Hsignals).
      exists result. eexists. repeat split; eassumption.
Defined.

(** ** The gate and the orchestrator *)

Section OrchestratorFacts.
Context `{Platform}.

Lemma dangerous_existsb (scheme : string) :
  existsb (λ s, bool_decide (scheme = s)) dangerousSchemes = true
  ↔ scheme ∈ dangerousSchemes.
Proof.
  rewrite existsb_exists. split.
  - intros (s & Hin & Heq). apply bool_decide_eq_true in Heq as ->.
    now apply list_elem_of_In.
  - intros Hin. exists scheme. split; [now apply list_elem_of_In|].
    now apply bool_decide_eq_true.
Qed.

Lemma normalizeAndGate_None (href pageOrigin : string) :
  normalizeAndGate href pageOrigin = None
  ↔ newURL href (Some pageOrigin) = None
    ∨ ∃ url, newURL href (Some pageOrigin) = Some url
             ∧ URL.protocol url ∈ dangerousSchemes.
Proof.
  unfold normalizeAndGate.
  destruct (newURL href (Some pageOrigin)) as [url|]; [|intuition].
  destruct (existsb _ dangerousSchemes) eqn:E.
  - apply dangerous_existsb in E. split; [|reflexivity].
    intros _. right. eauto.
  - split; [discriminate|]. intros [?|(url' & [= <-] & Hin)]; [discriminate|].
    apply dangerous_existsb in Hin. congruence.
Qed.

Lemma normalizeAndGate_Some (href pageOrigin : string) (url : URL.t)
    (signals : list RiskSignal) :
  normalizeAndGate href pageOrigin = Some (url, signals)
  ↔ newURL href (Some pageOrigin) = Some url
    ∧ ¬ (URL.protocol url ∈ dangerousSchemes) ∧ signals = [].
Proof.
  unfold normalizeAndGate.
  destruct (newURL href (Some pageOrigin)) as [url'|]; [|intuition discriminate].
  destruct (existsb _ dangerousSchemes) eqn:E.
  - apply dangerous_existsb in E. split; [discriminate|].
    intros ([= ->] & Hnot & _). contradiction.
  - split.
    + intros [= -> <-]. repeat split. intros Hin.
      apply dangerous_existsb in Hin. congruence.
    + now intros ([= ->] & _ & ->).
Qed.

Lemma gate_blocks (href anchorText pageOrigin : string) (log : list Request) :
  normalizeAndGate href pageOrigin = None →
  performPreflightCheck href anchorText pageOrigin log
  = (Normal (terminal "blocked" LinkType.Blocked RiskLevel.Red ["Unsafe scheme"]
               href FetchPlan.Blocked), log).
Proof. intros Hgate. unfold performPreflightCheck. now rewrite Hgate. Qed.

(** The sniff makes one request and never rejects: it resolves with
    nothing, PDF or Download, or it stays pending, which it does exactly
    when the body of the response stalls. *)
Lemma performSniff_outcomes (url : string) (log : list Request) :
  ∃ outcome, performSniff url log = (outcome, log ++ [sniffRequest url])
    ∧ ((outcome = Pending
        ∧ ∃ response, network log (sniffRequest url) = Responded response
                      ∧ stalls response)
       ∨ (∃ sniffed, outcome = Normal sniffed
            ∧ (sniffed = None ∨ sniffed = Some LinkType.PDF
               ∨ sniffed = Some LinkType.Download)
            ∧ ∀ response, network log (sniffRequest url) = Responded response →
                          ¬ stalls response)).
Proof.
  unfold performSniff, fetch, stalls. run_async.
  destruct (network log (sniffRequest url)) as [response|e].
  - destruct (drain _) as [bytes|e|] eqn:Hdrain.
    + eexists; split; [reflexivity|]. right. eexists. split; [reflexivity|].
      split; [|intros r [= <-]; congruence].
      unfold checkMagicBytes.
      repeat (match goal with |- context [if ?c then _ else _] => destruct c end);
        auto.
    + eexists; split; [reflexivity|]. right. eexists. split; [reflexivity|].
      split; [auto|intros r [= <-]; congruence].
    + eexists; split; [reflexivity|]. left. split; [reflexivity|]. eauto.
  - eexists; split; [reflexivity|]. right. eexists. split; [reflexivity|].
    split; [auto|discriminate].
Qed.

(** The classification after the probe rejects only when the final URL of
    the probe does not parse. *)
Lemma classifyProbed_rejects (allSignals : list RiskSignal)
    (textMismatch : option TextMismatch) (headResult : HeadResult.t)
    (log log' : list Request) (e : JsError) :
  classifyProbed allSignals textMismatch headResult log = (Throw e, log') →
  newURL (HeadResult.finalUrl headResult) None = None.
Proof.
  destruct (newURL (HeadResult.finalUrl headResult) None) as [parsed|] eqn:Hparse;
    [|reflexivity].
  unfold classifyProbed. run_async. rewrite Hparse.
  destruct (bool_decide _ && Js.includes _ _).
  - destruct (performSniff_outcomes (HeadResult.finalUrl headResult) log)
      as (outcome & -> & [[-> _]|(sniffed & -> & _)]); [discriminate|].
    destruct sniffed as [sniffed|];
      repeat (match goal with |- context [decide ?P] => destruct (decide P) end);
      discriminate.
  - repeat (match goal with |- context [decide ?P] => destruct (decide P) end);
      discriminate.
Qed.

Lemma performPreflightCheck_rejects (href anchorText pageOrigin : string)
    (log log' : list Request) (e : JsError) :
  performPreflightCheck href anchorText pageOrigin log = (Throw e, log') →
  ∃ url, newURL href (Some pageOrigin) = Some url
    ∧ (URL.protocol url = "http:" ∨ URL.protocol url = "https:")
    ∧ ∃ headResult log1,
        performHeadRequest url log = (Normal headResult, log1)
        ∧ newURL (HeadResult.finalUrl headResult) None = None.
Proof.
  unfold performPreflightCheck.
  destruct (normalizeAndGate href pageOrigin) as [[url gateSignals]|] eqn:Hgate;
    [|discriminate].
  apply normalizeAndGate_Some in Hgate as (Hurl & _ & ->).
  destruct (decide (URL.protocol url = "mailto:")); [discriminate|].
  destruct (decide (URL.protocol url = "tel:")); [discriminate|].
  destruct (isSamePageAnchor url pageOrigin); [discriminate|].
  destruct (decide (_ ∨ _)) as [Hhttp|]; [|discriminate].
  intros Hrun. exists url. split; [exact Hurl|]. split; [exact Hhttp|].
  unfold mbind, Async_bind in Hrun.
  unfold performHeadRequest in *.
  destruct (headLoop _ log) as [headResult log1].
  exists headResult, log1. split; [reflexivity|].
  eapply classifyProbed_rejects. exact Hrun.
Qed.

(** The classification after the probe stays pending only when the body
    of the sniff response stalls. *)
Lemma classifyProbed_pending (allSignals : list RiskSignal)
    (textMismatch : option TextMismatch) (headResult : HeadResult.t)
    (log log' : list Request) :
  classifyProbed allSignals textMismatch headResult log = (Pending, log') →
  log' = log ++ [sniffRequest (HeadResult.finalUrl headResult)]
  ∧ ∃ response,
      network log (sniffRequest (HeadResult.finalUrl headResult))
      = Responded response
      ∧ stalls response.
Proof.
  unfold classifyProbed. run_async.
  destruct (bool_decide _ && Js.includes _ _).
  - destruct (performSniff_outcomes (HeadResult.finalUrl headResult) log)
      as (outcome & -> & [[-> Hstalls]|(sniffed & -> & _)]).
    + intros [= <-]. auto.
    + destruct (newURL (HeadResult.finalUrl headResult) None);
        destruct sniffed as [sniffed|];
        repeat (match goal with |- context [decide ?P] => destruct (decide P) end);
        discriminate.
  - destruct (newURL (HeadResult.finalUrl headResult) None);
      repeat (match goal with |- context [decide ?P] => destruct (decide P) end);
      discriminate.
Qed.

Lemma performPreflightCheck_pending (href anchorText pageOrigin : string)
    (log log' : list Request) :
  performPreflightCheck href anchorText pageOrigin log = (Pending, log') →
  ∃ url, newURL href (Some pageOrigin) = Some url
    ∧ (URL.protocol url = "http:" ∨ URL.protocol url = "https:")
    ∧ ∃ headResult log1 response,
        performHeadRequest url log = (Normal headResult, log1)
        ∧ log' = log1 ++ [sniffRequest (HeadResult.finalUrl headResult)]
        ∧ network log1 (sniffRequest (HeadResult.finalUrl headResult))
          = Responded response
        ∧ stalls response.
Proof.
  unfold performPreflightCheck.
  destruct (normalizeAndGate href pageOrigin) as [[url gateSignals]|] eqn:Hgate;
    [|discriminate].
  apply normalizeAndGate_Some in Hgate as (Hurl & _ & ->).
  destruct (decide (URL.protocol url = "mailto:")); [discriminate|].
  destruct (decide (URL.protocol url = "tel:")); [discriminate|].
  destruct (isSamePageAnchor url pageOrigin); [discriminate|].
  destruct (decide (_ ∨ _)) as [Hhttp|]; [|discriminate].
  intros Hrun. exists url. split; [exact Hurl|]. split; [exact Hhttp|].
  unfold mbind, Async_bind in Hrun.
  unfold performHeadRequest in *.
  destruct (headLoop _ log) as [headResult log1].
  apply classifyProbed_pending in Hrun as (-> & response & Hnet & Hstalls).
  exists headResult, log1, response. auto.
Qed.

(** A sniff whose request fails resolves with nothing. *)
Lemma performSniff_rejected (url : string) (log : list Request) (e : JsError) :
  network log (sniffRequest url) = Rejected e →
  performSniff url log = (Normal None, log ++ [sniffRequest url]).
Proof.
  intros Hnet. unfold performSniff, fetch. run_async. now rewrite Hnet.
Qed.

End OrchestratorFacts.

(** C1. When [href] parses against the page origin to a URL whose scheme
    is [javascript:], [data:], [file:] or [vbscript:], the orchestrator
    returns the result with type Blocked, tier Red, the single reason
    "Unsafe scheme" and plan Blocked, whatever the anchor text and the
    page origin; the request log is the one it started with, so no network
    probe was made. *)
Theorem unsafe_scheme_is_blocked `{Platform} (href anchorText pageOrigin : string)
    (url : URL.t) (log : list Request) :
  newURL href (Some pageOrigin) = Some url →
  URL.protocol url ∈ dangerousSchemes →
  performPreflightCheck href anchorText pageOrigin log
  = (Normal
       {| PreflightResult.domain := "blocked";
          PreflightResult.type := LinkType.Blocked;
          PreflightResult.risk := RiskLevel.Red;
          PreflightResult.reasons := ["Unsafe scheme"];
          PreflightResult.size := None;
          PreflightResult.finalUrl := href;
          PreflightResult.fetchPlan := FetchPlan.Blocked;
          PreflightResult.redirectCount := None;
          PreflightResult.textMismatch := None;
          PreflightResult.videoPlatform := None |}, log).
Proof.
  intros Hurl Hscheme. apply gate_blocks. apply normalizeAndGate_None. eauto.
Qed.

Lemma unsafe_scheme_is_blocked_witness :
  (@performPreflightCheck Scripted.attachments
     "javascript:alert(1)" "https://example.com/page" "https://news.example/" []).1
  = Normal (terminal "blocked" LinkType.Blocked RiskLevel.Red ["Unsafe scheme"]
              "javascript:alert(1)" FetchPlan.Blocked).
Proof.
  rewrite (@unsafe_scheme_is_blocked Scripted.attachments _ _ _ Scripted.script).
  - reflexivity.
  - reflexivity.
  - apply list_elem_of_here.
Defined.

(** C10. When [href] does not parse against the page origin, the gate
    returns [null] as it does for an unsafe scheme, and the orchestrator
    returns the same result: domain "blocked", type Blocked, tier Red,
    reasons ["Unsafe scheme"], plan Blocked, with [finalUrl] the raw
    [href]; no request is made. *)
Theorem unparsable_href_is_blocked `{Platform} (href anchorText pageOrigin : string)
    (log : list Request) :
  newURL href (Some pageOrigin) = None →
  normalizeAndGate href pageOrigin = None
  ∧ performPreflightCheck href anchorText pageOrigin log
    = (Normal
         {| PreflightResult.domain := "blocked";
            PreflightResult.type := LinkType.Blocked;
            PreflightResult.risk := RiskLevel.Red;
            PreflightResult.reasons := ["Unsafe scheme"];
            PreflightResult.size := None;
            PreflightResult.finalUrl := href;
            PreflightResult.fetchPlan := FetchPlan.Blocked;
            PreflightResult.redirectCount := None;
            PreflightResult.textMismatch := None;
            PreflightResult.videoPlatform := None |}, log).
Proof.
  intros Hparse.
  assert (normalizeAndGate href pageOrigin = None) as Hgate
    by (apply normalizeAndGate_None; auto).
  split; [exact Hgate|]. now apply gate_blocks.
Qed.

Lemma unparsable_href_is_blocked_witness :
  PreflightResult.finalUrl
    <$> (match (@performPreflightCheck Scripted.offline
                  "http://[::1" "local" "https://news.example/" []).1 with
         | Normal result => Some result
         | _ => None
         end)
  = Some "http://[::1".
Proof.
  destruct (@unparsable_href_is_blocked Scripted.offline
              "http://[::1" "local" "https://news.example/" []) as [_ ->].
  - reflexivity.
  - reflexivity.
Defined.

(** ** The message handler *)

(** C2, as stated, fails: with every [fetch] rejecting, the handler
    answers a link to a page with the result of a guessed classification
    (the host as domain, type Webpage, tier Green, no reason), not with the
    "Unable to check" result. *)
Lemma network_failure_is_not_unable_to_check :
  let href := "https://example.com/page" in
  let '(response, _, log') :=
    @onPreflightCheck Scripted.offline 0 0 href None "https://news.example/"
      (newCacheManager "hoverpeek_preflight_cache") [] in
  (∀ log request, ∃ e, @network Scripted.offline log request = Rejected e)
  ∧ log' = [headRequest href]
  ∧ ∃ answered,
      response = Some {| success := true; result := answered |}
      ∧ PreflightResult.domain answered = "example.com"
      ∧ PreflightResult.risk answered = RiskLevel.Green
      ∧ PreflightResult.reasons answered = []
      ∧ answered
          ≠ terminal "unknown" LinkType.Webpage RiskLevel.Amber ["Unable to check"]
              href FetchPlan.PartialGet.
Proof.
  vm_compute. split; [intros _ _; eexists; reflexivity|].
  split; [reflexivity|]. eexists. split; [reflexivity|].
  repeat split; discriminate.
Qed.

(** C2, amended. The handler never answers with an error, and what it
    does is one of four things.  On a fresh cache hit it answers
    [success: true] with the cached result and makes no request.  On a
    miss where [performPreflightCheck] resolves, it answers [success: true]
    with that result and stores it in the cache.  On a miss where
    [performPreflightCheck] rejects, it answers [success: true] with the
    result "unknown" / Webpage / Amber / ["Unable to check"] / PartialGet
    with the raw [href] and stores nothing; this happens only for an
    http(s) link whose final probed URL does not parse.  On a miss where
    [performPreflightCheck] never settles, it sends no answer; this happens
    only for an http(s) link whose sniff got a response the body of which
    stalls, the abort timer of the sniff being cleared before the body is
    read.  So the handler answers whenever no sniffed body stalls.
    A request that fails is absorbed where it is made: a HEAD request that
    fails at any hop within the cap ends the probe with the type guessed
    from the URL reached, the redirects counted so far and no signal; a
    sniff whose request fails resolves with nothing.  An [href] that does not
    parse against the page origin is classified as "blocked" / Blocked /
    Red / ["Unsafe scheme"] / Blocked with the raw [href], without a
    request. *)
Theorem preflight_handler_answers `{Platform} (nowGet nowSet : Z)
    (href : string) (anchorText : option string) (pageOrigin : string)
    (cache : CacheManager PreflightResult.t) (log : list Request) :
  (∃ response cache' log',
     onPreflightCheck nowGet nowSet href anchorText pageOrigin cache log
     = (response, cache', log')
     ∧ ((∃ cached, get nowGet href cache = (Some cached, cache')
           ∧ response = Some {| success := true; result := data cached |}
           ∧ log' = log)
        ∨ (∃ cache1 classified, get nowGet href cache = (None, cache1)
             ∧ performPreflightCheck href (Js.orElse anchorText "") pageOrigin log
               = (Normal classified, log')
             ∧ response = Some {| success := true; result := classified |}
             ∧ cache' = set nowSet href classified cache1)
        ∨ (get nowGet href cache = (None, cache')
           ∧ response
             = Some {| success := true;
                       result := terminal "unknown" LinkType.Webpage RiskLevel.Amber
                                   ["Unable to check"] href FetchPlan.PartialGet |}
           ∧ ∃ e url headResult log1,
               performPreflightCheck href (Js.orElse anchorText "") pageOrigin log
               = (Throw e, log')
               ∧ newURL href (Some pageOrigin) = Some url
               ∧ (URL.protocol url = "http:" ∨ URL.protocol url = "https:")
               ∧ performHeadRequest url log = (Normal headResult, log1)
               ∧ newURL (HeadResult.finalUrl headResult) None = None)
        ∨ (get nowGet href cache = (None, cache')
           ∧ response = None
           ∧ ∃ url headResult log1 sniffed,
               performPreflightCheck href (Js.orElse anchorText "") pageOrigin log
               = (Pending, log')
               ∧ newURL href (Some pageOrigin) = Some url
               ∧ (URL.protocol url = "http:" ∨ URL.protocol url = "https:")
               ∧ performHeadRequest url log = (Normal headResult, log1)
               ∧ log' = log1 ++ [sniffRequest (HeadResult.finalUrl headResult)]
               ∧ network log1 (sniffRequest (HeadResult.finalUrl headResult))
                 = Responded sniffed
               ∧ stalls sniffed))
     ∧ ((∀ log1 url sniffed,
           network log1 (sniffRequest url) = Responded sniffed → ¬ stalls sniffed) →
        ∃ answered, response = Some {| success := true; result := answered |}))
  ∧ (∀ url hops e,
       redirectChain log (URL.href url) hops → (length hops ≤ 3)%nat →
       network (logAlong log (URL.href url) hops)
         (headRequest (lastVisited (URL.href url) hops)) = Rejected e →
       performHeadRequest url log
       = (Normal (guessedResult
                    {| HeadLoop.signals := [];
                       HeadLoop.currentUrl := lastVisited (URL.href url) hops;
                       HeadLoop.redirectCount := length hops |}),
          logAlong log (URL.href url) hops
            ++ [headRequest (lastVisited (URL.href url) hops)]))
  ∧ (∀ url log1 e,
       network log1 (sniffRequest url) = Rejected e →
       performSniff url log1 = (Normal None, log1 ++ [sniffRequest url]))
  ∧ (newURL href (Some pageOrigin) = None →
     performPreflightCheck href (Js.orElse anchorText "") pageOrigin log
     = (Normal (terminal "blocked" LinkType.Blocked RiskLevel.Red ["Unsafe scheme"]
                  href FetchPlan.Blocked), log)).
Proof.
  split; [|split; [|split]].
  - unfold onPreflightCheck.
    destruct (get nowGet href cache) as [[cached|] cache1] eqn:Hget.
    + do 3 eexists. split; [reflexivity|]. split; [left; eauto|eauto].
    + destruct (performPreflightCheck _ _ _ log) as [[classified|e|] log'] eqn:Hrun.
      * do 3 eexists. split; [reflexivity|].
        split; [right; left; exists cache1, classified; auto|eauto].
      * do 3 eexists. split; [reflexivity|]. split; [|eauto].
        right; right; left. split; [reflexivity|]. split; [reflexivity|].
        destruct (performPreflightCheck_rejects _ _ _ _ _ _ Hrun)
          as (url & Hurl & Hhttp & headResult & log1 & Hhead & Hfinal).
        exists e, url, headResult, log1. auto.
      * destruct (performPreflightCheck_pending _ _ _ _ _ Hrun)
          as (url & Hurl & Hhttp & headResult & log1 & sniffed & Hhead & Hlog
              & Hnet & Hstalls).
        do 3 eexists. split; [reflexivity|]. split.
        -- right; right; right. split; [reflexivity|]. split; [reflexivity|].
           exists url, headResult, log1, sniffed. auto 10.
        -- intros Hsettles. destruct (Hsettles _ _ _ Hnet Hstalls).
  - intros url hops e Hchain Hlen Hnet.
    rewrite (performHeadRequest_follow url hops log Hchain)
      by (unfold maxRedirects; lia).
    now rewrite (headLoop_rejected _ _ _ _ _ Hnet) by (unfold maxRedirects; lia).
  - intros url log1 e Hnet. exact (performSniff_rejected url log1 e Hnet).
  - intros Hparse. apply gate_blocks. apply normalizeAndGate_None. auto.
Qed.

Lemma preflight_handler_answers_witness :
  (∃ answered cache' log',
     @onPreflightCheck Scripted.threeHops 0 0 "https://example.com/hop1" None
       "https://news.example/" (newCacheManager "hoverpeek_preflight_cache") []
     = (Some {| success := true; result := answered |}, cache', log')
     ∧ PreflightResult.reasons answered = ["Redirects x3"]
     ∧ memoryCache cache' !! "https://example.com/hop1"
       = Some {| data := answered; timestamp := 0 |})
  ∧ (∃ cache' log',
       @onPreflightCheck Sample.stalling 0 0 "https://example.com/files/setup" None
         "https://news.example/" (newCacheManager "hoverpeek_preflight_cache") []
       = (None, cache', log')
       ∧ length log' = 2%nat)
  ∧ (@performPreflightCheck Scripted.offline "http://[::1" "" "https://news.example/" []).1
    = Normal (terminal "blocked" LinkType.Blocked RiskLevel.Red ["Unsafe scheme"]
                "http://[::1" FetchPlan.Blocked).
Proof.
  split; [|split].
  - destruct (@preflight_handler_answers Scripted.threeHops 0 0
                "https://example.com/hop1" None "https://news.example/"
                (newCacheManager "hoverpeek_preflight_cache") [])
      as ((response & cache' & log' & Hanswer & _ & Hsettles) & _).
    destruct Hsettles as [answered ->].
    + intros log1 url sniffed Hnet. vm_compute in Hnet.
      repeat (match type of Hnet with
              | (if ?c then _ else _) = _ => destruct c
              end);
        injection Hnet as <-; discriminate.
    + exists answered, cache', log'. split; [exact Hanswer|].
      vm_compute in Hanswer. injection Hanswer as <- <- <-.
      split; reflexivity.
  - destruct (@preflight_handler_answers Sample.stalling 0 0
                "https://example.com/files/setup" None "https://news.example/"
                (newCacheManager "hoverpeek_preflight_cache") [])
      as ((response & cache' & log' & Hanswer & _ & _) & _).
    vm_compute in Hanswer. injection Hanswer as <- <- <-.
    do 2 eexists. split; reflexivity.
  - destruct (@preflight_handler_answers Scripted.offline 0 0
                "http://[::1" None "https://news.example/"
                (newCacheManager "hoverpeek_preflight_cache") [])
      as (_ & _ & _ & Hblocked).
    exact (f_equal fst (Hblocked eq_refl)).
Defined.

(** ** The type decision *)

Section TypeDecision.
Context `{Platform}.




End TypeDecision.




(** ** The partial fetch *)

(** C7 does not hold of the code: asked for at most 4 bytes of a body that
    arrives as one chunk of 6 bytes, [performPartialFetch] resolves with
    all 6 bytes.  The chunk that crosses the ceiling is kept whole. *)
Theorem partial_fetch_overshoots :
  ∃ fetched log',
    @performPartialFetch Scripted.sixBytes "https://example.com/page" 4 []
    = (Normal fetched, log')
    ∧ length (PartialFetch.data fetched) = 6%nat
    ∧ 4 < Z.of_nat (length (PartialFetch.data fetched)).
Proof. do 2 eexists. vm_compute. repeat split. Qed.

(** ** The TTL cache *)

Section CacheFacts.
Context {T : Type}.

Lemma get_after_set (t0 now : Z) (key : string) (value : T) (cache : CacheManager T) :
  now - t0 < CACHE_DURATION →
  get now key (set t0 key value cache)
  = (Some {| data := value; timestamp := t0 |}, set t0 key value cache).
Proof.
  intros Hfresh. unfold get, set; simpl. rewrite lookup_insert_eq. simpl.
  destruct (decide (now - t0 < CACHE_DURATION)); [reflexivity|contradiction].
Qed.

Lemma get_stale (now : Z) (key : string) (entry : Entry T) (cache : CacheManager T) :
  memoryCache cache !! key = Some entry →
  CACHE_DURATION <= now - timestamp entry →
  get now key cache = (None, withMemory cache (delete key (memoryCache cache))).
Proof.
  intros Hkey Hold. unfold get. rewrite Hkey.
  destruct (decide (now - timestamp entry < CACHE_DURATION)); [lia|reflexivity].
Qed.

End CacheFacts.

(** C8. Round trip: [get] of a key at a time less than five minutes after
    the [set] of a value under it returns that value (with the time of the
    [set]) and leaves the cache as it is.  Expiry: for an entry whose age
    is five minutes or more, so for every age beyond the TTL, [get] returns
    nothing and the entry is deleted from the in-memory map, after which
    the key is absent. *)
Theorem cache_round_trip {T : Type} (t0 now : Z) (key : string) (value : T)
    (cache : CacheManager T) :
  (now - t0 < CACHE_DURATION →
   get now key (set t0 key value cache)
   = (Some {| data := value; timestamp := t0 |}, set t0 key value cache))
  ∧ (∀ entry, memoryCache cache !! key = Some entry →
     CACHE_DURATION <= now - timestamp entry →
     ∃ cache', get now key cache = (None, cache')
       ∧ memoryCache cache' = delete key (memoryCache cache)
       ∧ memoryCache cache' !! key = None)
  ∧ (CACHE_DURATION <= now - t0 →
     (get now key (set t0 key value cache)).1 = None).
Proof.
  split; [apply get_after_set|]. split.
  - intros entry Hkey Hold. eexists. split; [now apply (get_stale _ _ entry)|].
    simpl. split; [reflexivity|apply lookup_delete_eq].
  - intros Hold.
    rewrite (get_stale now key {| data := value; timestamp := t0 |});
      [reflexivity| |exact Hold].
    unfold set; simpl. apply lookup_insert_eq.
Qed.

Lemma cache_round_trip_witness :
  (get 299999 "https://example.com/page"
     (set 0 "https://example.com/page" "Example"
        (newCacheManager "hoverpeek_title_cache"))).1
  = Some {| data := "Example"; timestamp := 0 |}
  ∧ (get 300001 "https://example.com/page"
       (set 0 "https://example.com/page" "Example"
          (newCacheManager "hoverpeek_title_cache"))).1 = None.
Proof.
  destruct (cache_round_trip 0 299999 "https://example.com/page" "Example"
              (newCacheManager "hoverpeek_title_cache")) as (Hfresh & _ & _).
  destruct (cache_round_trip 0 300001 "https://example.com/page" "Example"
              (newCacheManager "hoverpeek_title_cache")) as (_ & _ & Hstale).
  split.
  - rewrite Hfresh; [reflexivity|]. unfold CACHE_DURATION. lia.
  - apply Hstale. unfold CACHE_DURATION. lia.
Defined.

(** ** Persistence *)

Section PersistenceFacts.
Context {T : Type}.
Variable dateNow : nat → Z.

(** With a store that rejects every write, a run on an initialized cache
    does not settle, whatever the number of steps it is given. *)
Lemma persist_rejected_forever (fuel : nat) :
  ∀ run : Persistence (T := T),
    isInitialized (manager run) = true →
    persistToStorage dateNow (λ _ _, false) fuel run = None
    ∧ cleanup dateNow (λ _ _, false) fuel run = None.
Proof.
  induction fuel as [|fuel IH]; intros run Hinit; [split; reflexivity|].
  split; simpl.
  - rewrite Hinit. simpl. apply IH. exact Hinit.
  - apply IH. exact Hinit.
Qed.

End PersistenceFacts.

(** C9 does not hold of the code: the persist is retried after every
    failure, not once.  For a cache with one entry and a store that rejects
    the first two writes, the run makes three write attempts; for a store
    that rejects every write, the run never settles. *)
Theorem persist_retries_without_bound :
  (∃ settled,
     persistToStorage Scripted.clock Scripted.rejectTwice 5 Scripted.firstRun
     = Some settled
     ∧ length (attempts settled) = 3%nat)
  ∧ (∀ fuel,
       persistToStorage Scripted.clock Scripted.rejectAll fuel Scripted.firstRun
       = None).
Proof.
  split.
  - eexists. split; vm_compute; reflexivity.
  - intros fuel.
    now apply (persist_rejected_forever Scripted.clock fuel Scripted.firstRun).
Qed.

(** * Further properties of the code *)

(** ** The HEAD probe, for every network *)

Section ProbeInvariants.
Context `{Platform}.

(** How one pass through the loop can end. *)
Lemma headIteration_cases (locals : HeadLoop.t) (log : list Request) :
  let count := HeadLoop.redirectCount locals in
  let url := HeadLoop.currentUrl locals in
  let log' := log ++ [headRequest url] in
  (∃ result, headIteration locals log = (Return result, log')
     ∧ HeadResult.finalUrl result = url
     ∧ ((HeadResult.redirectCount result = count
         ∧ (HeadResult.signals result = HeadLoop.signals locals
            ∨ ((2 ≤ count)%nat
               ∧ HeadResult.signals result
                 = HeadLoop.signals locals ++ [redirectsSignal count])))
        ∨ (HeadResult.redirectCount result = S count
           ∧ (S count ≤ maxRedirects)%nat
           ∧ HeadResult.signals result = HeadLoop.signals locals)))
  ∨ (∃ location next,
       headIteration locals log
       = (Continue {| HeadLoop.signals := HeadLoop.signals locals;
                      HeadLoop.currentUrl := URL.href next;
                      HeadLoop.redirectCount := S count |}, log')
       ∧ (S count ≤ maxRedirects)%nat
       ∧ newURL location (Some url) = Some next)
  ∨ (headIteration locals log
     = (Break {| HeadLoop.signals :=
                   HeadLoop.signals locals ++ [redirectsSignal (S count)];
                 HeadLoop.currentUrl := url;
                 HeadLoop.redirectCount := S count |}, log')
     ∧ (maxRedirects < S count)%nat).
Proof.
  intros count url log'. subst count url log'.
  unfold headIteration, fetch. cbv zeta.
  destruct (network log (headRequest (HeadLoop.currentUrl locals)))
    as [response|e].
  - destruct (decide (status response = 405)).
    { left. eexists. split; [reflexivity|]. simpl. auto. }
    destruct (if (300 <=? status response) && (status response <? 400)
              then Js.truthy (headers_get response "Location") else None)
      as [location|].
    + destruct (decide (maxRedirects < S (HeadLoop.redirectCount locals))%nat).
      { right; right. auto. }
      destruct (newURL location (Some (HeadLoop.currentUrl locals)))
        as [next|] eqn:Hnext.
      * right; left. exists location, next. repeat split; [lia|exact Hnext].
      * left. eexists. split; [reflexivity|]. simpl.
        split; [reflexivity|]. right. repeat split. lia.
    + left. eexists. split; [reflexivity|]. simpl.
      split; [reflexivity|]. left. split; [reflexivity|].
      destruct (decide (2 ≤ HeadLoop.redirectCount locals)%nat); auto.
  - left. eexists. split; [reflexivity|]. simpl. auto.
Qed.

(** Induction along the passes of the loop. *)
Lemma headLoop_induction
    (P : HeadLoop.t → list Request → HeadResult.t → list Request → Prop) :
  (∀ locals log, (maxRedirects < HeadLoop.redirectCount locals)%nat →
     P locals log (guessedResult locals) log) →
  (∀ locals log result log',
     (HeadLoop.redirectCount locals ≤ maxRedirects)%nat →
     headIteration locals log = (Return result, log') →
     P locals log result log') →
  (∀ locals log locals' log',
     (HeadLoop.redirectCount locals ≤ maxRedirects)%nat →
     headIteration locals log = (Break locals', log') →
     P locals log (guessedResult locals') log') →
  (∀ locals log locals' log' result log'',
     (HeadLoop.redirectCount locals ≤ maxRedirects)%nat →
     headIteration locals log = (Continue locals', log') →
     P locals' log' result log'' →
     P locals log result log'') →
  ∀ locals log, P locals log (headLoop locals log).1 (headLoop locals log).2.
Proof.
  intros Hdone Hreturn Hbreak Hcontinue locals.
  remember (S maxRedirects - HeadLoop.redirectCount locals)%nat as budget eqn:Hb.
  revert locals Hb.
  induction budget as [budget IH] using lt_wf_ind. intros locals Hb log.
  rewrite headLoop_step.
  destruct (decide (HeadLoop.redirectCount locals ≤ maxRedirects)%nat) as [Hle|Hgt];
    [|apply Hdone; lia].
  destruct (headIteration locals log) as [[locals'|locals'|result] log'] eqn:Hpass.
  - eapply Hcontinue; [exact Hle|exact Hpass|].
    destruct (headIteration_cases locals log)
      as [(r & Hr & _)|[(loc & next & Hc & Hcap & _)|[Hbr _]]];
      rewrite Hpass in *; try discriminate.
    injection Hc as -> _.
    eapply (IH (S maxRedirects - S (HeadLoop.redirectCount locals))%nat);
      [lia|reflexivity].
  - now apply Hbreak.
  - now apply Hreturn.
Qed.

(** What every probe satisfies: the requests it adds, its count and its
    signals. *)
Lemma headLoop_bounds (locals : HeadLoop.t) (log : list Request) :
  (HeadLoop.redirectCount locals ≤ maxRedirects)%nat →
  HeadLoop.signals locals = [] →
  let result := (headLoop locals log).1 in
  let start := HeadLoop.redirectCount locals in
  ∃ extra, (headLoop locals log).2 = log ++ extra
    ∧ Forall (λ request, method request = HEAD ∧ requestHeaders request = []) extra
    ∧ (1 ≤ length extra)%nat
    ∧ (start + length extra ≤ S maxRedirects)%nat
    ∧ (HeadResult.redirectCount result ≤ start + length extra)%nat
    ∧ (start + length extra ≤ S (HeadResult.redirectCount result))%nat
    ∧ (HeadResult.signals result = []
       ∨ ((2 ≤ HeadResult.redirectCount result)%nat
          ∧ HeadResult.signals result
            = [redirectsSignal (HeadResult.redirectCount result)])).
Proof.
  revert locals log.
  apply (headLoop_induction
    (λ locals log result log',
       (HeadLoop.redirectCount locals ≤ maxRedirects)%nat →
       HeadLoop.signals locals = [] →
       ∃ extra, log' = log ++ extra
         ∧ Forall (λ request, method request = HEAD ∧ requestHeaders request = [])
                  extra
         ∧ (1 ≤ length extra)%nat
         ∧ (HeadLoop.redirectCount locals + length extra ≤ S maxRedirects)%nat
         ∧ (HeadResult.redirectCount result
            ≤ HeadLoop.redirectCount locals + length extra)%nat
         ∧ (HeadLoop.redirectCount locals + length extra
            ≤ S (HeadResult.redirectCount result))%nat
         ∧ (HeadResult.signals result = []
            ∨ ((2 ≤ HeadResult.redirectCount result)%nat
               ∧ HeadResult.signals result
                 = [redirectsSignal (HeadResult.redirectCount result)])))).
  - intros locals log Hgt Hle. lia.
  - intros locals log result log' _ Hpass Hle Hsig.
    destruct (headIteration_cases locals log)
      as [(r & Hr & _ & Hshape)|[(loc & next & Hc & _)|[Hbr _]]];
      rewrite Hpass in *; try discriminate.
    injection Hr as -> ->. eexists. split; [reflexivity|].
    split; [repeat constructor|]. simpl. rewrite Hsig in Hshape.
    destruct Hshape as [[-> [->|[Htwo ->]]]|(-> & ? & ->)];
      repeat split; auto; lia.
  - intros locals log locals' log' _ Hpass Hle Hsig.
    destruct (headIteration_cases locals log)
      as [(r & Hr & _)|[(loc & next & Hc & _)|[Hbr Hcap]]];
      rewrite Hpass in *; try discriminate.
    injection Hbr as -> ->. eexists. split; [reflexivity|].
    split; [repeat constructor|]. simpl. rewrite Hsig. simpl.
    unfold maxRedirects in *. repeat split; try lia. right. split; [lia|reflexivity].
  - intros locals log locals' log' result log'' _ Hpass IH Hle Hsig.
    destruct (headIteration_cases locals log)
      as [(r & Hr & _)|[(loc & next & Hc & Hcap & _)|[Hbr _]]];
      rewrite Hpass in *; try discriminate.
    injection Hc as -> ->. simpl in IH.
    destruct (IH Hcap Hsig) as (extra & -> & Hhead & Hone & Hmax & Hup & Hlow & Hshape).
    exists (headRequest (HeadLoop.currentUrl locals) :: extra).
    split; [now rewrite <- app_assoc|].
    split; [constructor; [split; reflexivity|exact Hhead]|].
    simpl. repeat split; try lia. exact Hshape.
Qed.

(** The final URL of a probe is the URL it starts from or the [href] of a
    URL the parser produced. *)
Lemma headLoop_finalUrl (Q : string → Prop) (locals : HeadLoop.t) (log : list Request) :
  (∀ location base next, newURL location base = Some next → Q (URL.href next)) →
  Q (HeadLoop.currentUrl locals) →
  Q (HeadResult.finalUrl (headLoop locals log).1).
Proof.
  intros Hparsed. revert locals log.
  apply (headLoop_induction
    (λ locals log result log',
       Q (HeadLoop.currentUrl locals) → Q (HeadResult.finalUrl result))).
  - intros locals log _ Hq. exact Hq.
  - intros locals log result log' _ Hpass Hq.
    destruct (headIteration_cases locals log)
      as [(r & Hr & Hfinal & _)|[(loc & next & Hc & _)|[Hbr _]]];
      rewrite Hpass in *; try discriminate.
    injection Hr as -> _. now rewrite Hfinal.
  - intros locals log locals' log' _ Hpass Hq.
    destruct (headIteration_cases locals log)
      as [(r & Hr & _)|[(loc & next & Hc & _)|[Hbr _]]];
      rewrite Hpass in *; try discriminate.
    injection Hbr as -> _. exact Hq.
  - intros locals log locals' log' result log'' _ Hpass IH _.
    destruct (headIteration_cases locals log)
      as [(r & Hr & _)|[(loc & next & Hc & _ & Hnext)|[Hbr _]]];
      rewrite Hpass in *; try discriminate.
    injection Hc as -> _. apply IH. simpl. eapply Hparsed. exact Hnext.
Qed.

End ProbeInvariants.

(** X1. Whatever the network answers, a HEAD probe resolves after one to
    four requests, all of them HEAD requests without headers added to the
    log it was given.  The redirect count it reports is at most four and
    differs from the number of requests by at most one, and its signals
    are either none or the single Amber signal "Redirects x<n>" for its own
    count [n], which is then at least two. *)
Theorem probe_is_bounded `{Platform} (url : URL.t) (log : list Request) :
  ∃ result extra,
    performHeadRequest url log = (Normal result, log ++ extra)
    ∧ Forall (λ request, method request = HEAD ∧ requestHeaders request = []) extra
    ∧ (1 ≤ length extra ≤ 4)%nat
    ∧ (HeadResult.redirectCount result ≤ length extra
       ≤ S (HeadResult.redirectCount result))%nat
    ∧ (HeadResult.signals result = []
       ∨ ((2 ≤ HeadResult.redirectCount result)%nat
          ∧ HeadResult.signals result
            = [{| level := RiskLevel.Amber;
                  reason := "Redirects x"
                            +:+ pretty (HeadResult.redirectCount result) |}])).
Proof.
  pose proof (headLoop_bounds
                {| HeadLoop.signals := []; HeadLoop.currentUrl := URL.href url;
                   HeadLoop.redirectCount := 0 |} log) as Hbounds.
  simpl in Hbounds.
  destruct Hbounds as (extra & Hlog & Hhead & Hone & Hmax & Hup & Hlow & Hshape);
    [unfold maxRedirects; lia|reflexivity|].
  unfold performHeadRequest.
  destruct (headLoop _ log) as [result log']. simpl in *. subst log'.
  exists result, extra. unfold maxRedirects in *. repeat split; try assumption; lia.
Qed.

Section OrchestratorShape.
Context `{Platform}.

Lemma performHeadRequest_run (url : URL.t) (log : list Request) :
  performHeadRequest url log
  = (Normal (headLoop (probeStart url) log).1, (headLoop (probeStart url) log).2).
Proof.
  unfold performHeadRequest, probeStart. now destruct (headLoop _ log).
Qed.

Lemma determineLinkTypeFromContentType_range (contentType : string)
    (contentDisposition : option string) :
  determineLinkTypeFromContentType contentType contentDisposition
  ∈ [LinkType.Webpage; LinkType.PDF; LinkType.Image; LinkType.Video;
     LinkType.Download].
Proof.
  unfold determineLinkTypeFromContentType.
  repeat (match goal with |- context [if ?c then _ else _] => destruct c end);
    in_list.
Qed.

Lemma guesslinkTypeFromUrl_range (url : string) (guessed : LinkType.t) :
  guesslinkTypeFromUrl url = Some guessed →
  guessed ∈ [LinkType.PDF; LinkType.Image; LinkType.Video; LinkType.Download].
Proof.
  unfold guesslinkTypeFromUrl. destruct (newURL url None); [|discriminate].
  repeat (match goal with |- context [if ?c then _ else _] => destruct c end);
    intros [= <-]; in_list.
Qed.

(** The two ways the orchestrator can run: to one of the results that need
    no network, or through the probe and the classification after it. *)
Lemma performPreflightCheck_cases (href anchorText pageOrigin : string)
    (log : list Request) :
  (∃ result,
     performPreflightCheck href anchorText pageOrigin log = (Normal result, log)
     ∧ PreflightResult.redirectCount result = None
     ∧ PreflightResult.fetchPlan result
       = decideFetchPlan (PreflightResult.type result) (PreflightResult.risk result)
     ∧ (PreflightResult.fetchPlan result = FetchPlan.NoFetch
        ∨ PreflightResult.fetchPlan result = FetchPlan.Blocked)
     ∧ ∀ url, newURL href (Some pageOrigin) = Some url →
         URL.protocol url ≠ "http:" ∧ URL.protocol url ≠ "https:"
         ∨ URL.protocol url ∈ dangerousSchemes
         ∨ isSamePageAnchor url pageOrigin = true)
  ∨ (∃ url headResult log1,
       newURL href (Some pageOrigin) = Some url
       ∧ (URL.protocol url = "http:" ∨ URL.protocol url = "https:")
       ∧ performHeadRequest url log = (Normal headResult, log1)
       ∧ performPreflightCheck href anchorText pageOrigin log
         = classifyProbed
             (Lexical.signals (performLexicalChecks url anchorText pageOrigin))
             (Lexical.textMismatch (performLexicalChecks url anchorText pageOrigin))
             headResult log1).
Proof.
  unfold performPreflightCheck.
  destruct (normalizeAndGate href pageOrigin) as [[url gateSignals]|] eqn:Hgate.
  - apply normalizeAndGate_Some in Hgate as (Hurl & Hsafe & ->).
    destruct (decide (URL.protocol url = "mailto:")) as [Hmail|].
    { left. eexists. split; [reflexivity|]. repeat split; auto.
      intros url' Hurl'. rewrite Hurl in Hurl'. injection Hurl' as <-.
      left. rewrite Hmail. split; discriminate. }
    destruct (decide (URL.protocol url = "tel:")) as [Htel|].
    { left. eexists. split; [reflexivity|]. repeat split; auto.
      intros url' Hurl'. rewrite Hurl in Hurl'. injection Hurl' as <-.
      left. rewrite Htel. split; discriminate. }
    destruct (isSamePageAnchor url pageOrigin) eqn:Hanchor.
    { left. eexists. split; [reflexivity|]. repeat split; auto.
      intros url' Hurl'. rewrite Hurl in Hurl'. injection Hurl' as <-. auto. }
    destruct (decide (_ ∨ _)) as [Hhttp|Hother].
    + right.
      exists url, (headLoop (probeStart url) log).1, (headLoop (probeStart url) log).2.
      split; [exact Hurl|]. split; [exact Hhttp|].
      split; [apply performHeadRequest_run|].
      unfold mbind, Async_bind. rewrite performHeadRequest_run. reflexivity.
    + left. eexists. split; [reflexivity|]. repeat split; auto.
      intros url' Hurl'. rewrite Hurl in Hurl'. injection Hurl' as <-.
      left. split; intros Heq; apply Hother; auto.
  - left. eexists. split; [reflexivity|]. repeat split; auto.
    intros url Hurl. apply normalizeAndGate_None in Hgate
      as [Hnone|(url' & Hurl' & Hin)]; [congruence|].
    rewrite Hurl in Hurl'. injection Hurl' as <-. auto.
Qed.

Lemma lexical_signals_amber (url : URL.t) (anchorText pageOrigin : string) :
  Forall (λ s, level s = RiskLevel.Amber)
         (Lexical.signals (performLexicalChecks url anchorText pageOrigin)).
Proof.
  unfold performLexicalChecks; simpl.
  destruct (detectHomograph _), (checkHttpsDowngrade _ _); repeat constructor.
Qed.

Lemma amber_has_no_red (signals : list RiskSignal) :
  Forall (λ s, level s = RiskLevel.Amber) signals →
  filter (λ s, level s = RiskLevel.Red) signals = [].
Proof.
  induction 1 as [|s rest Hs _ IH]; [reflexivity|].
  rewrite filter_cons. destruct (decide _) as [Hred|]; [congruence|exact IH].
Qed.

(** What the classification after the probe returns. *)
Lemma classifyProbed_shape (allSignals : list RiskSignal)
    (textMismatch : option TextMismatch) (headResult : HeadResult.t)
    (log log' : list Request) (result : PreflightResult.t) :
  classifyProbed allSignals textMismatch headResult log = (Normal result, log') →
  let finalUrl := HeadResult.finalUrl headResult in
  PreflightResult.finalUrl result = finalUrl
  ∧ PreflightResult.redirectCount result = Some (HeadResult.redirectCount headResult)
  ∧ PreflightResult.textMismatch result = textMismatch
  ∧ PreflightResult.fetchPlan result
    = decideFetchPlan (PreflightResult.type result) (PreflightResult.risk result)
  ∧ PreflightResult.type result
    ∈ [LinkType.Webpage; LinkType.PDF; LinkType.Image; LinkType.Video;
       LinkType.Download]
  ∧ (∃ parsed, newURL finalUrl None = Some parsed
       ∧ PreflightResult.domain result = URL.hostname parsed
       ∧ PreflightResult.videoPlatform result
         = if decide (PreflightResult.type result = LinkType.Video)
           then detectVideoPlatform parsed else None)
  ∧ ((log' = log
      ∧ {| risk := PreflightResult.risk result;
           reasons := PreflightResult.reasons result |}
        = scoreRisk (allSignals ++ HeadResult.signals headResult))
     ∨ (∃ sniffed,
          performSniff finalUrl log = (Normal sniffed, log')
          ∧ log' = log ++ [sniffRequest finalUrl]
          ∧ Js.includes (HeadResult.contentType headResult) "octet-stream" = true
          ∧ ((sniffed ≠ Some LinkType.Download
              ∧ {| risk := PreflightResult.risk result;
                   reasons := PreflightResult.reasons result |}
                = scoreRisk (allSignals ++ HeadResult.signals headResult))
             ∨ (sniffed = Some LinkType.Download
                ∧ PreflightResult.type result = LinkType.Download
                ∧ {| risk := PreflightResult.risk result;
                     reasons := PreflightResult.reasons result |}
                  = scoreRisk
                      ((allSignals ++ HeadResult.signals headResult)
                       ++ [{| level := RiskLevel.Red;
                              reason := "Executable download" |}]))))).
Proof.
  intros Hrun finalUrl. subst finalUrl.
  pose proof (determineLinkTypeFromContentType_range
                (HeadResult.contentType headResult)
                (HeadResult.contentDisposition headResult)) as Hheaders.
  pose proof (guesslinkTypeFromUrl_range (HeadResult.finalUrl headResult)) as Hguess.
  revert Hrun. unfold classifyProbed. run_async.
  set (fromHeaders := determineLinkTypeFromContentType _ _) in *.
  set (resolved := match guesslinkTypeFromUrl _ with
                   | Some guessed => guessed
                   | None => fromHeaders
                   end).
  assert (resolved ∈ [LinkType.Webpage; LinkType.PDF; LinkType.Image;
                      LinkType.Video; LinkType.Download]) as Hresolved.
  { unfold resolved. destruct (guesslinkTypeFromUrl _) as [guessed|]; [|exact Hheaders].
    apply list_elem_of_further. now apply Hguess. }
  destruct (newURL (HeadResult.finalUrl headResult) None) as [parsed|] eqn:Hparse.
  - assert (∀ result,
              PreflightResult.finalUrl result = HeadResult.finalUrl headResult →
              PreflightResult.redirectCount result
              = Some (HeadResult.redirectCount headResult) →
              PreflightResult.textMismatch result = textMismatch →
              PreflightResult.fetchPlan result
              = decideFetchPlan (PreflightResult.type result)
                  (PreflightResult.risk result) →
              PreflightResult.type result
              ∈ [LinkType.Webpage; LinkType.PDF; LinkType.Image; LinkType.Video;
                 LinkType.Download] →
              PreflightResult.domain result = URL.hostname parsed →
              PreflightResult.videoPlatform result
              = (if decide (PreflightResult.type result = LinkType.Video)
                 then detectVideoPlatform parsed else None) →
              ∀ P : Prop, P →
              PreflightResult.finalUrl result = HeadResult.finalUrl headResult
              ∧ PreflightResult.redirectCount result
                = Some (HeadResult.redirectCount headResult)
              ∧ PreflightResult.textMismatch result = textMismatch
              ∧ PreflightResult.fetchPlan result
                = decideFetchPlan (PreflightResult.type result)
                    (PreflightResult.risk result)
              ∧ PreflightResult.type result
                ∈ [LinkType.Webpage; LinkType.PDF; LinkType.Image; LinkType.Video;
                   LinkType.Download]
              ∧ (∃ parsed', Some parsed = Some parsed'
                   ∧ PreflightResult.domain result = URL.hostname parsed'
                   ∧ PreflightResult.videoPlatform result
                     = if decide (PreflightResult.type result = LinkType.Video)
                       then detectVideoPlatform parsed' else None)
              ∧ P) as Hfields.
    { intros; repeat split; try assumption. exists parsed. auto. }
    destruct (bool_decide (resolved = LinkType.Download) && Js.includes _ _)
      eqn:Hsniffing.
    + apply andb_true_iff in Hsniffing as [Hdl Hoctet].
      apply bool_decide_eq_true in Hdl.
      destruct (performSniff_outcomes (HeadResult.finalUrl headResult) log)
        as (outcome & Hsniff & [[-> _]|(sniffed & -> & Hkind & _)]);
        rewrite Hsniff; [discriminate|].
      destruct Hkind as [->|[->| ->]]; simpl.
      * destruct (decide (resolved = LinkType.Video)) as [Hv|Hv]; [congruence|].
        intros [= <- <-]. apply Hfields; simpl; try reflexivity; try assumption.
        { destruct (decide (resolved = LinkType.Video)); [congruence|reflexivity]. }
        right. exists None. repeat split; try assumption.
        left. split; [discriminate|now destruct (scoreRisk _)].
      * intros [= <- <-]. apply Hfields; simpl; try reflexivity; [in_list|].
        right. exists (Some LinkType.PDF). repeat split; try assumption.
        left. split; [discriminate|now destruct (scoreRisk _)].
      * intros [= <- <-]. apply Hfields; simpl; try reflexivity; [in_list|].
        right. exists (Some LinkType.Download). repeat split; try assumption.
        right. repeat split. now destruct (scoreRisk _).
    + destruct (decide (resolved = LinkType.Video)) as [Hv|Hv];
        intros [= <- <-]; apply Hfields; simpl; try reflexivity; try assumption.
      * destruct (decide (resolved = LinkType.Video)); [reflexivity|congruence].
      * left. split; [reflexivity|now destruct (scoreRisk _)].
      * destruct (decide (resolved = LinkType.Video)); [congruence|reflexivity].
      * left. split; [reflexivity|now destruct (scoreRisk _)].
  - destruct (bool_decide (resolved = LinkType.Download) && Js.includes _ _).
    + destruct (performSniff_outcomes (HeadResult.finalUrl headResult) log)
        as (outcome & -> & [[-> _]|(sniffed & -> & _)]); [discriminate|].
      destruct sniffed as [sniffed|];
        repeat (match goal with |- context [decide ?P] => destruct (decide P) end);
        discriminate.
    + repeat (match goal with |- context [decide ?P] => destruct (decide P) end);
        discriminate.
Qed.

End OrchestratorShape.

Section OrchestratorBudget.
Context `{Platform}.

Lemma classifyProbed_log (allSignals : list RiskSignal)
    (textMismatch : option TextMismatch) (headResult : HeadResult.t)
    (log : list Request) :
  ∃ outcome extra,
    classifyProbed allSignals textMismatch headResult log = (outcome, log ++ extra)
    ∧ (extra = [] ∨ extra = [sniffRequest (HeadResult.finalUrl headResult)]).
Proof.
  unfold classifyProbed. run_async.
  destruct (bool_decide _ && Js.includes _ _).
  - destruct (performSniff_outcomes (HeadResult.finalUrl headResult) log)
      as (outcome & -> & [[-> _]|(sniffed & -> & _)]);
      [do 2 eexists; (split; [reflexivity|]); auto|].
    destruct sniffed as [sniffed|];
      repeat (match goal with
              | |- context [decide ?P] => destruct (decide P)
              | |- context [newURL ?u ?b] => destruct (newURL u b)
              end);
      do 2 eexists; (split; [reflexivity|]); auto.
  - repeat (match goal with
            | |- context [decide ?P] => destruct (decide P)
            | |- context [newURL ?u ?b] => destruct (newURL u b)
            end);
      eexists; exists []; rewrite app_nil_r; (split; [reflexivity|]); auto.
Qed.

End OrchestratorBudget.

(** X2. One classification makes at most five requests, added to the log
    it was given: first at most four HEAD requests without headers, then
    at most one GET, the sniff, with the header [Range: bytes=0-4095].  It
    makes none unless [href] parses to an [http:] or [https:] URL. *)
Theorem preflight_network_budget `{Platform} (href anchorText pageOrigin : string)
    (log : list Request) :
  ∃ outcome probes sniffs,
    performPreflightCheck href anchorText pageOrigin log
    = (outcome, log ++ probes ++ sniffs)
    ∧ (length probes ≤ 4)%nat
    ∧ Forall (λ request, method request = HEAD ∧ requestHeaders request = [])
        probes
    ∧ (sniffs = []
       ∨ ∃ url, sniffs = [{| method := GET; requestUrl := url;
                             requestHeaders := [("Range", "bytes=0-4095")] |}])
    ∧ (length (probes ++ sniffs) ≤ 5)%nat
    ∧ (probes ++ sniffs ≠ [] →
       ∃ url, newURL href (Some pageOrigin) = Some url
              ∧ (URL.protocol url = "http:" ∨ URL.protocol url = "https:")).
Proof.
  destruct (performPreflightCheck_cases href anchorText pageOrigin log)
    as [(result & -> & _)|(url & headResult & log1 & Hurl & Hhttp & Hhead & ->)].
  - eexists; exists [], []. rewrite app_nil_r. split; [reflexivity|].
    split; [simpl; lia|]. split; [constructor|]. split; [auto|].
    split; [simpl; lia|simpl; congruence].
  - rewrite performHeadRequest_run in Hhead. injection Hhead as <- <-.
    destruct (headLoop_bounds (probeStart url) log)
      as (probes & -> & Hheads & _ & Hmax & _); [unfold maxRedirects; simpl; lia|reflexivity|].
    destruct (classifyProbed_log
                (Lexical.signals (performLexicalChecks url anchorText pageOrigin))
                (Lexical.textMismatch (performLexicalChecks url anchorText pageOrigin))
                (headLoop (probeStart url) log).1 (log ++ probes))
      as (outcome & sniffs & -> & Hsniffs).
    exists outcome, probes, sniffs. rewrite app_assoc. split; [reflexivity|].
    simpl in Hmax. unfold maxRedirects in Hmax.
    split; [lia|].
    split; [eapply Forall_impl; [exact Hheads|]; simpl; auto|].
    split; [destruct Hsniffs as [->| ->]; [left|right]; eauto|].
    rewrite length_app.
    split; [destruct Hsniffs as [->| ->]; simpl; lia|eauto].
Qed.

(** X3. Every result of the orchestrator carries the plan that the planner
    gives for its own type and tier; so a Red download is never planned
    for a fetch and a fetch of any kind is never planned for a Blocked
    type. *)
Theorem every_result_follows_the_planner `{Platform}
    (href anchorText pageOrigin : string) (log log' : list Request)
    (result : PreflightResult.t) :
  performPreflightCheck href anchorText pageOrigin log = (Normal result, log') →
  PreflightResult.fetchPlan result
  = decideFetchPlan (PreflightResult.type result) (PreflightResult.risk result)
  ∧ (PreflightResult.type result = LinkType.Download →
     PreflightResult.risk result = RiskLevel.Red →
     PreflightResult.fetchPlan result = FetchPlan.Blocked)
  ∧ (PreflightResult.type result = LinkType.Blocked →
     PreflightResult.fetchPlan result = FetchPlan.Blocked).
Proof.
  intros Hrun.
  assert (PreflightResult.fetchPlan result
          = decideFetchPlan (PreflightResult.type result)
              (PreflightResult.risk result)) as Hplan.
  { destruct (performPreflightCheck_cases href anchorText pageOrigin log)
      as [(r & Hr & _ & Hplan & _)|(url & headResult & log1 & _ & _ & _ & Hr)];
      rewrite Hr in Hrun.
    - now injection Hrun as <- _.
    - now apply classifyProbed_shape in Hrun as (_ & _ & _ & Hplan & _). }
  split; [exact Hplan|].
  split; [intros Htype Hrisk|intros Htype];
    rewrite Hplan, Htype, ?Hrisk; reflexivity.
Qed.

Lemma every_result_follows_the_planner_witness :
  ∃ result log',
    @performPreflightCheck Sample.executable
      "https://example.com/files/setup" "setup" "https://news.example/" []
    = (Normal result, log')
    ∧ PreflightResult.type result = LinkType.Download
    ∧ PreflightResult.risk result = RiskLevel.Red
    ∧ PreflightResult.fetchPlan result = FetchPlan.Blocked.
Proof.
  do 2 eexists.
  assert (@performPreflightCheck Sample.executable
            "https://example.com/files/setup" "setup" "https://news.example/" []
          = (Normal _, _)) as Hrun by (vm_compute; reflexivity).
  split; [exact Hrun|].
  destruct (@every_result_follows_the_planner Sample.executable _ _ _ _ _ _ Hrun)
    as (_ & Hblocked & _).
  split; [reflexivity|]. split; [reflexivity|]. apply Hblocked; reflexivity.
Defined.

(** X4. A link that was probed is rated Red only when the sniff found the
    signature of an executable or an archive: its type is then Download,
    its plan Blocked, its only reason "Executable download", and the last
    request made is the sniff of the final URL. *)
Theorem red_means_executable `{Platform} (href anchorText pageOrigin : string)
    (log log' : list Request) (result : PreflightResult.t) :
  performPreflightCheck href anchorText pageOrigin log = (Normal result, log') →
  PreflightResult.redirectCount result ≠ None →
  PreflightResult.risk result = RiskLevel.Red →
  PreflightResult.type result = LinkType.Download
  ∧ PreflightResult.fetchPlan result = FetchPlan.Blocked
  ∧ PreflightResult.reasons result = ["Executable download"]
  ∧ ∃ before,
      log' = before ++ [sniffRequest (PreflightResult.finalUrl result)]
      ∧ performSniff (PreflightResult.finalUrl result) before
        = (Normal (Some LinkType.Download), log').
Proof.
  intros Hrun Hprobed Hred.
  destruct (performPreflightCheck_cases href anchorText pageOrigin log)
    as [(r & Hr & Hnone & _)|(url & headResult & log1 & _ & _ & Hhead & Hr)];
    rewrite Hr in Hrun.
  { injection Hrun as <- _. contradiction. }
  assert (Forall (λ s, level s = RiskLevel.Amber)
            (Lexical.signals (performLexicalChecks url anchorText pageOrigin)
             ++ HeadResult.signals headResult)) as Hamber.
  { apply Forall_app. split; [apply lexical_signals_amber|].
    rewrite performHeadRequest_run in Hhead. injection Hhead as <- _.
    destruct (headLoop_bounds (probeStart url) log)
      as (_ & _ & _ & _ & _ & _ & _ & [->|[_ ->]]);
      [unfold maxRedirects; simpl; lia|reflexivity| |]; repeat constructor. }
  assert (risk (scoreRisk
                  (Lexical.signals (performLexicalChecks url anchorText pageOrigin)
                   ++ HeadResult.signals headResult)) ≠ RiskLevel.Red) as Hnot.
  { destruct (scoreRisk_tier
                (Lexical.signals (performLexicalChecks url anchorText pageOrigin)
                 ++ HeadResult.signals headResult))
      as [[Hr' _]|[(_ & _ & ->)|(_ & _ & ->)]]; try discriminate.
    apply hasTier_filter in Hr'. rewrite (amber_has_no_red _ Hamber) in Hr'.
    simpl in Hr'. lia. }
  apply classifyProbed_shape in Hrun
    as (Hfinal & _ & _ & Hplan & _ & _ & [[_ Hscore]|(sniffed & Hsniff & Hlog & _ & Hscore)]).
  { exfalso. apply Hnot. rewrite <- Hscore. exact Hred. }
  destruct Hscore as [[_ Hscore]|(-> & Htype & Hscore)].
  { exfalso. apply Hnot. rewrite <- Hscore. exact Hred. }
  split; [exact Htype|].
  split; [rewrite Hplan, Htype, Hred; reflexivity|].
  split.
  - change (PreflightResult.reasons result)
      with (reasons {| risk := PreflightResult.risk result;
                       reasons := PreflightResult.reasons result |}).
    rewrite Hscore, scoreRisk_red, firstReasons_filter.
    + rewrite filter_app, (amber_has_no_red _ Hamber). reflexivity.
    + eexists. split; [apply elem_of_app; right; apply list_elem_of_here|reflexivity].
  - exists log1. rewrite Hfinal. split; [exact Hlog|exact Hsniff].
Qed.

Lemma red_means_executable_witness :
  ∃ result log',
    @performPreflightCheck Sample.executable
      "https://example.com/files/setup" "setup" "https://news.example/" []
    = (Normal result, log')
    ∧ PreflightResult.reasons result = ["Executable download"]
    ∧ length log' = 2%nat.
Proof.
  do 2 eexists.
  assert (@performPreflightCheck Sample.executable
            "https://example.com/files/setup" "setup" "https://news.example/" []
          = (Normal _, _)) as Hrun by (vm_compute; reflexivity).
  split; [exact Hrun|].
  destruct (@red_means_executable Sample.executable _ _ _ _ _ _ Hrun)
    as (_ & _ & Hreasons & _); [discriminate|reflexivity|].
  split; [exact Hreasons|reflexivity].
Defined.

(** X5. For a link that is probed, the result describes where the probe
    ended: its type is Webpage, PDF, Image, Video or Download, its redirect
    count is that of the probe, its domain is the host of the final URL
    (not of the [href]), its [finalUrl] parses, a video platform is
    reported only for type Video, and the text mismatch is the one
    computed from the anchor text and the host of the link. *)
Theorem probed_result_shape `{Platform} (href anchorText pageOrigin : string)
    (log log' : list Request) (result : PreflightResult.t) (url : URL.t) :
  performPreflightCheck href anchorText pageOrigin log = (Normal result, log') →
  newURL href (Some pageOrigin) = Some url →
  PreflightResult.redirectCount result ≠ None →
  PreflightResult.type result
  ∈ [LinkType.Webpage; LinkType.PDF; LinkType.Image; LinkType.Video;
     LinkType.Download]
  ∧ (∃ headResult log1,
       performHeadRequest url log = (Normal headResult, log1)
       ∧ PreflightResult.redirectCount result
         = Some (HeadResult.redirectCount headResult)
       ∧ PreflightResult.finalUrl result = HeadResult.finalUrl headResult)
  ∧ (∃ parsed, newURL (PreflightResult.finalUrl result) None = Some parsed
       ∧ PreflightResult.domain result = URL.hostname parsed)
  ∧ (PreflightResult.videoPlatform result ≠ None →
     PreflightResult.type result = LinkType.Video)
  ∧ PreflightResult.textMismatch result
    = checkAnchorTextMismatch anchorText (URL.hostname url).
Proof.
  intros Hrun Hurl Hprobed.
  destruct (performPreflightCheck_cases href anchorText pageOrigin log)
    as [(r & Hr & Hnone & _)|(url' & headResult & log1 & Hurl' & _ & Hhead & Hr)];
    rewrite Hr in Hrun.
  { injection Hrun as <- _. contradiction. }
  rewrite Hurl in Hurl'. injection Hurl' as <-.
  apply classifyProbed_shape in Hrun
    as (Hfinal & Hcount & Hmismatch & _ & Htype & (parsed & Hparse & Hdomain & Hvideo) & _).
  split; [exact Htype|].
  split; [exists headResult, log1; auto|].
  split; [exists parsed; rewrite Hfinal; auto|].
  split; [|exact Hmismatch].
  intros Hsome. rewrite Hvideo in Hsome.
  destruct (decide (PreflightResult.type result = LinkType.Video)); congruence.
Qed.

Lemma probed_result_shape_witness :
  ∃ result log',
    @performPreflightCheck Scripted.threeHops
      "https://example.com/hop1" "" "https://news.example/" []
    = (Normal result, log')
    ∧ PreflightResult.domain result = "example.com"
    ∧ PreflightResult.finalUrl result = "https://example.com/page".
Proof.
  do 2 eexists.
  assert (@performPreflightCheck Scripted.threeHops
            "https://example.com/hop1" "" "https://news.example/" []
          = (Normal _, _)) as Hrun by (vm_compute; reflexivity).
  split; [exact Hrun|].
  destruct (@probed_result_shape Scripted.threeHops _ _ _ _ _ _ Scripted.hop1 Hrun)
    as (_ & _ & (parsed & Hparse & Hdomain) & _); [reflexivity|discriminate|].
  split; reflexivity.
Defined.

(** X6. When [href] parses to a URL whose scheme is neither [http:] nor
    [https:], no request is made and the plan is NoFetch or Blocked: a
    [mailto:] link is Mailto / Green with domain "email" when it has no
    host, a [tel:] link is Tel / Green, and any other scheme that is not
    a same-page anchor is Blocked / Red with the reason "Unknown protocol"
    (or "Unsafe scheme" for the four unsafe ones). *)
Theorem other_schemes_need_no_network `{Platform}
    (href anchorText pageOrigin : string) (url : URL.t) (log : list Request) :
  newURL href (Some pageOrigin) = Some url →
  URL.protocol url ≠ "http:" → URL.protocol url ≠ "https:" →
  ∃ result,
    performPreflightCheck href anchorText pageOrigin log = (Normal result, log)
    ∧ (PreflightResult.fetchPlan result = FetchPlan.NoFetch
       ∨ PreflightResult.fetchPlan result = FetchPlan.Blocked)
    ∧ PreflightResult.redirectCount result = None
    ∧ (URL.protocol url = "mailto:" →
       PreflightResult.type result = LinkType.Mailto
       ∧ PreflightResult.risk result = RiskLevel.Green
       ∧ PreflightResult.domain result = Js.orElse (Some (URL.hostname url)) "email")
    ∧ (URL.protocol url = "tel:" →
       PreflightResult.type result = LinkType.Tel
       ∧ PreflightResult.risk result = RiskLevel.Green
       ∧ PreflightResult.domain result = Js.orElse (Some (URL.hostname url)) "phone")
    ∧ (URL.protocol url ≠ "mailto:" → URL.protocol url ≠ "tel:" →
       isSamePageAnchor url pageOrigin = false →
       PreflightResult.type result = LinkType.Blocked
       ∧ PreflightResult.risk result = RiskLevel.Red
       ∧ PreflightResult.fetchPlan result = FetchPlan.Blocked
       ∧ (PreflightResult.reasons result = ["Unknown protocol"]
          ∨ PreflightResult.reasons result = ["Unsafe scheme"]
            ∧ URL.protocol url ∈ dangerousSchemes)).
Proof.
  intros Hurl Hhttp Hhttps. unfold performPreflightCheck.
  destruct (normalizeAndGate href pageOrigin) as [[url' gateSignals]|] eqn:Hgate.
  - apply normalizeAndGate_Some in Hgate as (Hurl' & Hsafe & ->).
    rewrite Hurl in Hurl'. injection Hurl' as <-.
    destruct (decide (URL.protocol url = "mailto:")) as [Hmail|Hmail].
    { eexists. split; [reflexivity|]. simpl. rewrite Hmail.
      repeat split; auto; try discriminate; congruence. }
    destruct (decide (URL.protocol url = "tel:")) as [Htel|Htel].
    { eexists. split; [reflexivity|]. simpl.
      repeat split; auto; try discriminate; congruence. }
    destruct (isSamePageAnchor url pageOrigin).
    { eexists. split; [reflexivity|]. simpl.
      repeat split; auto; try discriminate; congruence. }
    destruct (decide (_ ∨ _)) as [[?|?]|_]; [contradiction|contradiction|].
    eexists. split; [reflexivity|]. simpl.
    repeat split; auto; try discriminate; congruence.
  - apply normalizeAndGate_None in Hgate as [Hnone|(url' & Hurl' & Hin)];
      [congruence|].
    rewrite Hurl in Hurl'. injection Hurl' as <-.
    eexists. split; [reflexivity|]. simpl.
    assert (URL.protocol url ≠ "mailto:" ∧ URL.protocol url ≠ "tel:") as [Hm Ht].
    { split; intros Heq; rewrite Heq in Hin;
        repeat (apply elem_of_cons in Hin as [Hin|Hin]; [discriminate|]);
        inversion Hin. }
    split; [auto|]. split; [reflexivity|].
    split; [intros; contradiction|]. split; [intros; contradiction|].
    intros _ _ _. repeat split. right. auto.
Qed.

Lemma other_schemes_need_no_network_witness :
  ∃ result,
    @performPreflightCheck Sample.challenged
      "mailto:team@example.com" "write to us" "https://news.example/" []
    = (Normal result, [])
    ∧ PreflightResult.type result = LinkType.Mailto
    ∧ PreflightResult.domain result = "email".
Proof.
  destruct (@other_schemes_need_no_network Sample.challenged
              "mailto:team@example.com" "write to us" "https://news.example/"
              Sample.mail [])
    as (result & Hrun & _ & _ & Hmail & _);
    [reflexivity|discriminate|discriminate|].
  exists result. split; [exact Hrun|].
  destruct Hmail as (Htype & _ & Hdomain); [reflexivity|]. auto.
Defined.

(** X7. On a platform where the [href] of every parsed URL parses again,
    the orchestrator never rejects, so the handler never has to fall back
    on "Unable to check": a classification either resolves with a result
    or never settles, and it fails to settle only when the sniff got a
    response the body of which stalls.  When no sniffed body stalls, it
    resolves with a result. *)
Theorem preflight_never_rejects `{Platform} (href anchorText pageOrigin : string)
    (log : list Request) :
  reparses →
  (∀ e log',
     performPreflightCheck href anchorText pageOrigin log ≠ (Throw e, log'))
  ∧ ((∃ result log',
        performPreflightCheck href anchorText pageOrigin log = (Normal result, log'))
     ∨ (∃ url headResult log1 sniffed,
          performPreflightCheck href anchorText pageOrigin log
          = (Pending, log1 ++ [sniffRequest (HeadResult.finalUrl headResult)])
          ∧ newURL href (Some pageOrigin) = Some url
          ∧ performHeadRequest url log = (Normal headResult, log1)
          ∧ network log1 (sniffRequest (HeadResult.finalUrl headResult))
            = Responded sniffed
          ∧ stalls sniffed))
  ∧ ((∀ log1 url sniffed,
        network log1 (sniffRequest url) = Responded sniffed → ¬ stalls sniffed) →
     ∃ result log',
       performPreflightCheck href anchorText pageOrigin log = (Normal result, log')).
Proof.
  intros Hreparses.
  assert (∀ e log',
            performPreflightCheck href anchorText pageOrigin log ≠ (Throw e, log'))
    as Hnever.
  { intros e log' Hrun.
    apply performPreflightCheck_rejects in Hrun
      as (url & Hurl & _ & headResult & log1 & Hhead & Hfinal).
    rewrite performHeadRequest_run in Hhead. injection Hhead as <- _.
    assert (is_Some (newURL
              (HeadResult.finalUrl (headLoop (probeStart url) log).1) None))
      as [? Hok].
    { apply (headLoop_finalUrl (λ u, is_Some (newURL u None))).
      - intros location base next Hnext. eapply Hreparses. exact Hnext.
      - simpl. eapply Hreparses. exact Hurl. }
    congruence. }
  split; [exact Hnever|].
  destruct (performPreflightCheck href anchorText pageOrigin log)
    as [[result|e|] log'] eqn:Hrun.
  - split; [left|intros _]; eauto.
  - destruct (Hnever e log' eq_refl).
  - apply performPreflightCheck_pending in Hrun
      as (url & Hurl & _ & headResult & log1 & sniffed & Hhead & -> & Hnet & Hstalls).
    split.
    + right. exists url, headResult, log1, sniffed. auto.
    + intros Hsettles. destruct (Hsettles _ _ _ Hnet Hstalls).
Qed.

Lemma scripted_reparses (answers : list Request → Request → FetchOutcome) :
  @reparses (Scripted.platform answers).
Proof.
  intros input base url Hparse. simpl in *. unfold Scripted.parse in Hparse.
  apply fmap_Some in Hparse as ([i found] & Hfind & ->).
  apply list_find_Some in Hfind as (Hlookup & _ & _). simpl.
  repeat (destruct i as [|i];
          [injection Hlookup as <-; vm_compute; eauto|simpl in Hlookup]).
  discriminate.
Qed.

Lemma preflight_never_rejects_witness :
  ∃ result log',
    @performPreflightCheck Scripted.offline
      "https://example.com/page" "" "https://news.example/" []
    = (Normal result, log').
Proof.
  apply (@preflight_never_rejects Scripted.offline "https://example.com/page" ""
           "https://news.example/" [] (scripted_reparses _)).
  intros log1 url sniffed Hnet. discriminate Hnet.
Defined.



(** ** The cache, beyond the round trip *)

(** X9. A hit is never stale and never changes the cache: when [get]
    returns an entry, it is the one stored under the key, it is less than
    five minutes old, and the cache is as before.  A key that is not in
    the map misses and leaves the cache as it is, and after [clear] every
    key misses. *)
Theorem cache_hits_are_fresh {T : Type} (now : Z) (key : string)
    (cache : CacheManager T) :
  (∀ entry cache',
     get now key cache = (Some entry, cache') →
     memoryCache cache !! key = Some entry
     ∧ now - timestamp entry < CACHE_DURATION
     ∧ cache' = cache)
  ∧ (memoryCache cache !! key = None → get now key cache = (None, cache))
  ∧ get now key (clear cache) = (None, clear cache).
Proof.
  split; [|split].
  - intros entry cache'. unfold get.
    destruct (memoryCache cache !! key) as [cached|]; [|discriminate].
    destruct (decide (now - timestamp cached < CACHE_DURATION)); [|discriminate].
    intros [= <- <-]. auto.
  - intros Hnone. unfold get. now rewrite Hnone.
  - unfold get, clear; simpl. now rewrite lookup_empty.
Qed.

Lemma cache_hits_are_fresh_witness :
  ∃ entry,
    get 299999 "https://example.com/page" Scripted.titles
    = (Some entry, Scripted.titles)
    ∧ 299999 - timestamp entry < CACHE_DURATION.
Proof.
  destruct (cache_hits_are_fresh 299999 "https://example.com/page" Scripted.titles)
    as (Hhit & _ & _).
  exists {| data := "Example"; timestamp := 1000 |}.
  assert (get 299999 "https://example.com/page" Scripted.titles
          = (Some {| data := "Example"; timestamp := 1000 |}, Scripted.titles))
    as Hget by (vm_compute; reflexivity).
  split; [exact Hget|].
  now destruct (Hhit _ _ Hget) as (_ & Hfresh & _).
Defined.

(** X10. The operations on one key leave every other key alone: [set]
    and [get] of [key] do not change what the map holds under [other], and
    [get] of [other] returns the same entry before and after [set] of
    [key]. *)
Theorem other_keys_are_untouched {T : Type} (stored now : Z) (key other : string)
    (value : T) (cache : CacheManager T) :
  key ≠ other →
  memoryCache (set stored key value cache) !! other = memoryCache cache !! other
  ∧ memoryCache (get now key cache).2 !! other = memoryCache cache !! other
  ∧ (get now other (set stored key value cache)).1 = (get now other cache).1.
Proof.
  intros Hne. split; [|split].
  - unfold set; simpl. now apply lookup_insert_ne.
  - unfold get. destruct (memoryCache cache !! key) as [cached|]; [|reflexivity].
    destruct (decide _); [reflexivity|]. simpl. now apply lookup_delete_ne.
  - unfold get, set; simpl. rewrite lookup_insert_ne by exact Hne.
    destruct (memoryCache cache !! other) as [cached|]; [|reflexivity].
    now destruct (decide _).
Qed.

Lemma other_keys_are_untouched_witness :
  (get 2000 "https://example.com/page"
     (set 1500 "https://example.com/hop1" "Hop" Scripted.titles)).1
  = Some {| data := "Example"; timestamp := 1000 |}.
Proof.
  destruct (other_keys_are_untouched 1500 2000 "https://example.com/hop1"
              "https://example.com/page" "Hop" Scripted.titles) as (_ & _ & ->).
  - discriminate.
  - reflexivity.
Defined.

(** X11. Hydration: after [initialize] the cache is marked initialized,
    whatever the read from the durable store gave.  A stored entry that is
    less than five minutes old is in the map under its key; for every
    other key the map holds what it held before, so a stale stored entry
    does not displace an entry set in the meantime.  A failed read or an
    empty store leaves the map as it was. *)
Theorem hydration_keeps_fresh_entries {T : Type} (now : Z)
    (stored : gmap string (Entry T)) (cache : CacheManager T) (key : string) :
  isInitialized (initialize now (ReadFulfilled (Some stored)) cache) = true
  ∧ memoryCache (initialize now (ReadFulfilled (Some stored)) cache) !! key
    = match stored !! key with
      | Some entry =>
          if decide (now - timestamp entry < CACHE_DURATION) then Some entry
          else memoryCache cache !! key
      | None => memoryCache cache !! key
      end
  ∧ initialize now ReadRejected cache
    = {| memoryCache := memoryCache cache; storageKey := storageKey cache;
         isInitialized := true |}
  ∧ initialize now (ReadFulfilled None) cache = initialize now ReadRejected cache.
Proof.
  split; [reflexivity|]. split; [|split; reflexivity].
  unfold initialize; simpl. revert key.
  apply (map_fold_weak_ind
    (λ memory (stored : gmap string (Entry T)),
       ∀ key, memory !! key
              = match stored !! key with
                | Some entry =>
                    if decide (now - timestamp entry < CACHE_DURATION)
                    then Some entry else memoryCache cache !! key
                | None => memoryCache cache !! key
                end)).
  - intros key. now rewrite lookup_empty.
  - intros i entry m memory Hfresh IH key.
    destruct (decide (i = key)) as [->|Hne].
    + rewrite lookup_insert_eq.
      destruct (decide (now - timestamp entry < CACHE_DURATION)).
      * now rewrite lookup_insert_eq.
      * rewrite IH, Hfresh. reflexivity.
    + rewrite (lookup_insert_ne m) by exact Hne.
      destruct (decide (now - timestamp entry < CACHE_DURATION)).
      * rewrite lookup_insert_ne by exact Hne. apply IH.
      * apply IH.
Qed.

(** ** Persistence with a store that recovers *)

Section PersistenceRuns.
Context {T : Type}.
Variable dateNow : nat → Z.
Variable storageSet : list (gmap string (Entry T)) → gmap string (Entry T) → bool.

Lemma persistToStorage_S (fuel : nat) (run : Persistence (T := T)) :
  persistToStorage dateNow storageSet (S fuel) run
  = if negb (isInitialized (manager run)) then Some run
    else
      let toStore :=
        filter (λ kv, dateNow (clockReads run) - timestamp kv.2 < CACHE_DURATION)
               (memoryCache (manager run)) in
      let run' :=
        {| manager := manager run; attempts := attempts run ++ [toStore];
           clockReads := S (clockReads run) |} in
      if storageSet (attempts run) toStore then Some run'
      else cleanup dateNow storageSet fuel run'.
Proof. reflexivity. Qed.

Lemma cleanup_S (fuel : nat) (run : Persistence (T := T)) :
  cleanup dateNow storageSet (S fuel) run
  = persistToStorage dateNow storageSet fuel
      {| manager :=
           withMemory (manager run)
             (filter (λ kv, ¬ (CACHE_DURATION
                               <= dateNow (clockReads run) - timestamp kv.2))
                     (memoryCache (manager run)));
         attempts := attempts run;
         clockReads := S (clockReads run) |}.
Proof. reflexivity. Qed.

Lemma settledFrom_refl (run : Persistence (T := T)) : settledFrom dateNow run run.
Proof.
  repeat split; auto. exists []. split; [now rewrite app_nil_r|constructor].
Qed.

Lemma persist_settledFrom (fuel : nat) :
  ∀ run run' : Persistence (T := T),
    (persistToStorage dateNow storageSet fuel run = Some run' → settledFrom dateNow run run')
    ∧ (cleanup dateNow storageSet fuel run = Some run' → settledFrom dateNow run run').
Proof.
  induction fuel as [|fuel IH]; intros run run'; [split; discriminate|].
  split; simpl.
  - destruct (negb (isInitialized (manager run))).
    { intros [= <-]. apply settledFrom_refl. }
    set (toStore := filter _ (memoryCache (manager run))).
    destruct (storageSet (attempts run) toStore).
    + intros [= <-]. repeat split; simpl; auto.
      exists [toStore]. split; [reflexivity|].
      constructor; [apply map_filter_subseteq|constructor].
    + intros Hrest. apply IH in Hrest.
      destruct Hrest as (Hsub & Hkey & Hinit & Hclock & (more & Hmore & Hall) & Hkeep).
      simpl in *. repeat split; auto; [lia| |].
      * exists (toStore :: more). rewrite Hmore, <- app_assoc. split; [reflexivity|].
        constructor; [apply map_filter_subseteq|exact Hall].
      * intros key entry Hentry Hfresh. apply Hkeep; [exact Hentry|].
        intros i Hi. apply Hfresh. lia.
  - intros Hrest. apply IH in Hrest.
    destruct Hrest as (Hsub & Hkey & Hinit & Hclock & (more & Hmore & Hall) & Hkeep).
    simpl in *.
    assert (filter (λ kv, ¬ CACHE_DURATION <= dateNow (clockReads run) - timestamp kv.2)
                   (memoryCache (manager run)) ⊆ memoryCache (manager run)) as Hfilter
      by apply map_filter_subseteq.
    repeat split; auto; [etransitivity; eassumption|lia| |].
    + exists more. split; [exact Hmore|].
      eapply Forall_impl; [exact Hall|]. intros record Hrecord. simpl in Hrecord.
      etransitivity; eassumption.
    + intros key entry Hentry Hfresh. apply Hkeep.
      * apply map_lookup_filter_Some. split; [exact Hentry|]. simpl.
        specialize (Hfresh (clockReads run)). lia.
      * intros i Hi. apply Hfresh. lia.
Qed.

Lemma persist_recovers (n : nat) :
  (∀ earlier record, (n ≤ length earlier)%nat → storageSet earlier record = true) →
  ∀ (k : nat) (run : Persistence (T := T)),
    (n - length (attempts run) ≤ k)%nat →
    ∃ run', persistToStorage dateNow storageSet (2 * k + 1) run = Some run'
      ∧ (length (attempts run') ≤ length (attempts run) + k + 1)%nat.
Proof.
  intros Hrecovers. induction k as [|k IH]; intros run Hk.
  - change (2 * 0 + 1)%nat with 1%nat. rewrite persistToStorage_S.
    destruct (negb (isInitialized (manager run)));
      [eexists; split; [reflexivity|lia]|].
    cbv zeta. rewrite Hrecovers by lia. eexists. split; [reflexivity|].
    simpl. rewrite length_app. simpl. lia.
  - replace (2 * S k + 1)%nat with (S (S (2 * k + 1))) by lia.
    rewrite persistToStorage_S.
    destruct (negb (isInitialized (manager run)));
      [eexists; split; [reflexivity|lia]|].
    cbv zeta.
    destruct (storageSet (attempts run) _).
    + eexists. split; [reflexivity|]. simpl. rewrite length_app. simpl. lia.
    + rewrite cleanup_S.
      match goal with |- ∃ run', persistToStorage _ _ _ ?next = _ ∧ _ =>
        destruct (IH next) as (run' & Hrun & Hlen) end.
      * simpl. rewrite length_app. simpl. lia.
      * exists run'. split; [exact Hrun|].
        simpl in Hlen. rewrite length_app in Hlen. simpl in Hlen. lia.
Qed.

End PersistenceRuns.

(** X12. Compaction only drops what has expired.  When a persistence run
    settles, the map holds a part of what it held at the start, every
    entry that was less than five minutes old at each reading of the clock
    during the run is still there, and every record handed to the store
    was a part of the map at the start. *)
Theorem compaction_only_drops_expired {T : Type} (dateNow : nat → Z)
    (storageSet : list (gmap string (Entry T)) → gmap string (Entry T) → bool)
    (fuel : nat) (run run' : Persistence (T := T)) :
  persistToStorage dateNow storageSet fuel run = Some run' →
  memoryCache (manager run') ⊆ memoryCache (manager run)
  ∧ (∀ key entry,
       memoryCache (manager run) !! key = Some entry →
       (∀ i, (clockReads run ≤ i < clockReads run')%nat →
             dateNow i - timestamp entry < CACHE_DURATION) →
       memoryCache (manager run') !! key = Some entry)
  ∧ (∃ more, attempts run' = attempts run ++ more
       ∧ Forall (λ record, record ⊆ memoryCache (manager run)) more).
Proof.
  intros Hrun.
  destruct (persist_settledFrom dateNow storageSet fuel run run') as [Hsettled _].
  destruct (Hsettled Hrun) as (Hsub & _ & _ & _ & Hmore & Hkeep). auto.
Qed.

Lemma compaction_only_drops_expired_witness :
  ∃ settled,
    persistToStorage Scripted.clock Scripted.rejectTwice 5 Scripted.firstRun
    = Some settled
    ∧ memoryCache (manager settled) !! "https://example.com/page"
      = Some {| data := "Example"; timestamp := 1000 |}.
Proof.
  eexists.
  assert (persistToStorage Scripted.clock Scripted.rejectTwice 5 Scripted.firstRun
          = Some _) as Hrun by (vm_compute; reflexivity).
  split; [exact Hrun|].
  destruct (compaction_only_drops_expired _ _ _ _ _ Hrun) as (_ & Hkeep & _).
  apply Hkeep.
  - reflexivity.
  - intros i Hi. simpl in Hi. unfold Scripted.clock, CACHE_DURATION. simpl. lia.
Defined.

(** X13. If the durable store accepts every write once [n] writes have
    been attempted, a persistence run settles: it makes at most [n + 1]
    attempts in all, one more than the failures that can happen. *)
Theorem persist_settles_when_store_recovers {T : Type} (dateNow : nat → Z)
    (storageSet : list (gmap string (Entry T)) → gmap string (Entry T) → bool)
    (n : nat) (cache : CacheManager T) :
  (∀ earlier record, (n ≤ length earlier)%nat → storageSet earlier record = true) →
  ∃ settled,
    persistToStorage dateNow storageSet (2 * n + 1)
      {| manager := cache; attempts := []; clockReads := 0 |} = Some settled
    ∧ (length (attempts settled) ≤ n + 1)%nat.
Proof.
  intros Hrecovers.
  destruct (persist_recovers dateNow storageSet n Hrecovers n
              {| manager := cache; attempts := []; clockReads := 0 |})
    as (settled & Hrun & Hlen); [simpl; lia|].
  exists settled. split; [exact Hrun|]. simpl in Hlen. lia.
Qed.

Lemma persist_settles_when_store_recovers_witness :
  ∃ settled,
    persistToStorage Scripted.clock Scripted.rejectTwice 5
      {| manager := Scripted.titles; attempts := []; clockReads := 0 |}
    = Some settled
    ∧ (length (attempts settled) ≤ 3)%nat.
Proof.
  apply (persist_settles_when_store_recovers Scripted.clock Scripted.rejectTwice 2).
  intros earlier record Hlen. unfold Scripted.rejectTwice.
  now apply bool_decide_eq_true.
Defined.

(** ** The partial fetch, for every stream *)

Lemma readChunks_reads_a_prefix (maxBytes : Z) (stream : list StreamEvent) :
  ∀ (total : Z) (chunks out : list (list Byte.byte)) (total' : Z),
    readChunks maxBytes total chunks stream = Normal (out, total') →
    total = Z.of_nat (length (concat chunks)) →
    ∃ taken,
      out = chunks ++ taken
      ∧ chunkBytes taken `prefix_of` stream
      ∧ total' = Z.of_nat (length (concat out))
      ∧ (∀ front final, taken = front ++ [final] →
           Z.of_nat (length (concat (chunks ++ front))) < maxBytes)
      ∧ (total' < maxBytes → stream = chunkBytes taken).
Proof.
  induction stream as [|event rest IH]; intros total chunks out total' Hread Htotal.
  - exists []. simpl in Hread.
    destruct (total <? maxBytes); injection Hread as <- <-;
      rewrite app_nil_r; repeat split; auto;
      intros front final Heq; now destruct front.
  - simpl in Hread. destruct (total <? maxBytes) eqn:Hroom.
    + apply Z.ltb_lt in Hroom. destruct event as [value|e|]; [|discriminate|discriminate].
      destruct (maxBytes <=? total + Z.of_nat (length value)) eqn:Hfull.
      * injection Hread as <- <-. apply Z.leb_le in Hfull.
        exists [value]. split; [reflexivity|].
        split; [exists rest; reflexivity|].
        split; [rewrite concat_app, length_app; simpl;
                rewrite app_nil_r, Nat2Z.inj_add; lia|].
        split.
        -- intros front final Heq.
           destruct front as [|? [|? ?]]; try discriminate.
           rewrite app_nil_r. lia.
        -- intros Hshort. lia.
      * apply Z.leb_gt in Hfull.
        apply IH in Hread
          as (taken & -> & Hprefix & Hlen & Hlast & Hwhole);
          [|rewrite concat_app, length_app; simpl;
            rewrite app_nil_r, Nat2Z.inj_add; lia].
        exists (value :: taken). rewrite <- app_assoc. split; [reflexivity|].
        split; [unfold chunkBytes; simpl; now apply prefix_cons|].
        split; [rewrite <- app_assoc in Hlen; exact Hlen|].
        split.
        -- intros front final Heq. destruct front as [|first front].
           ++ simpl in Heq. injection Heq as -> ->. rewrite app_nil_r. lia.
           ++ simpl in Heq. injection Heq as <- ->.
              specialize (Hlast front final eq_refl).
              now rewrite <- app_assoc in Hlast.
        -- intros Hshort. unfold chunkBytes; simpl. f_equal. now apply Hwhole.
    + injection Hread as <- <-. apply Z.ltb_ge in Hroom.
      exists []. rewrite app_nil_r. repeat split; auto.
      * apply prefix_nil.
      * intros front final Heq. now destruct front.
      * lia.
Qed.

Ltac rejected :=
  let Hrun := fresh "Hrun" in
  intros Hrun; try discriminate Hrun;
  repeat (match type of Hrun with
          | context [decide ?P] => destruct (decide P)
          end; try discriminate Hrun).

(** X14. What a partial fetch that resolves has read: it made one GET
    request, the response had a 2xx status and a body, and the bytes
    returned are those of the chunks of a prefix of the stream.  Without
    the last chunk taken they are fewer than [maxBytes], so the ceiling is
    exceeded by less than the size of one chunk; and when fewer than
    [maxBytes] bytes are returned the whole body was read. *)
Theorem partial_fetch_reads_a_prefix `{Platform} (url : string) (maxBytes : Z)
    (log log' : list Request) (fetched : PartialFetch.t) :
  performPartialFetch url maxBytes log = (Normal fetched, log') →
  ∃ parsed response stream taken,
    newURL url None = Some parsed
    ∧ log' = log ++ [partialFetchRequest url (URL.origin parsed +:+ "/")]
    ∧ network log (partialFetchRequest url (URL.origin parsed +:+ "/"))
      = Responded response
    ∧ 200 ≤ status response ≤ 299
    ∧ body response = Some stream
    ∧ PartialFetch.contentType fetched
      = Js.orElse (headers_get response "Content-Type") "text/html"
    ∧ chunkBytes taken `prefix_of` stream
    ∧ PartialFetch.data fetched = concat taken
    ∧ (∀ front final, taken = front ++ [final] →
         Z.of_nat (length (concat front)) < maxBytes)
    ∧ (Z.of_nat (length (PartialFetch.data fetched)) < maxBytes →
       stream = chunkBytes taken).
Proof.
  unfold performPartialFetch, fetch. run_async.
  destruct (newURL url None) as [parsed|]; simpl; [|rejected].
  destruct (network log (partialFetchRequest url (URL.origin parsed +:+ "/")))
    as [response|e] eqn:Hnet; simpl; [|rejected].
  destruct (decide (status response = 999)); simpl; [rejected|].
  destruct (negb (ok response)) eqn:Hok; simpl; [rejected|].
  destruct (body response) as [stream|] eqn:Hbody; simpl; [|rejected].
  destruct (readChunks maxBytes 0 [] stream) as [[chunks total]|e|] eqn:Hread;
    simpl; [|rejected|rejected].
  intros [= <- <-].
  apply readChunks_reads_a_prefix in Hread
    as (taken & Hout & Hprefix & Htotal & Hlast & Hwhole); [|reflexivity].
  simpl in Hout. subst chunks.
  exists parsed, response, stream, taken. simpl.
  apply negb_false_iff in Hok. unfold ok in Hok.
  apply andb_true_iff in Hok as [Hlow Hhigh].
  apply Z.leb_le in Hlow. apply Z.leb_le in Hhigh.
  repeat split; auto.
  intros Hshort. apply Hwhole. lia.
Qed.

Lemma partial_fetch_reads_a_prefix_witness :
  ∃ fetched log',
    @performPartialFetch Sample.tenBytes "https://example.com/page" 5 []
    = (Normal fetched, log')
    ∧ length (PartialFetch.data fetched) = 6%nat.
Proof.
  do 2 eexists.
  assert (@performPartialFetch Sample.tenBytes "https://example.com/page" 5 []
          = (Normal _, _)) as Hrun by (vm_compute; reflexivity).
  split; [exact Hrun|].
  destruct (@partial_fetch_reads_a_prefix Sample.tenBytes _ _ _ _ _ Hrun)
    as (parsed & response & stream & taken & _ & _ & _ & _ & _ & _ & _ & Hdata & _).
  reflexivity.
Defined.

(** X15. How a partial fetch fails, and what the preview generator makes
    of the failure.  A URL that does not parse rejects before any request.
    Otherwise one request is made: status 999 rejects with "HTTP 999 -
    Cloudflare protection", which the [catch] block of [generatePreview]
    answers with the Cloudflare notice; any other status outside 200..299
    rejects with "HTTP <status>", which for 404, 403 and 410 only clears
    the loading state; a response without a body rejects with "No response
    body", reported as "Preview unavailable"; an aborted request rejects
    with "Request timed out", which clears the loading state; any other
    rejection of [fetch] is passed on as it is. *)
Theorem partial_fetch_failures `{Platform} (url : string) (maxBytes : Z)
    (log : list Request) :
  (newURL url None = None →
   ∃ e, performPartialFetch url maxBytes log = (Throw e, log))
  ∧ (∀ parsed, newURL url None = Some parsed →
     let request := partialFetchRequest url (URL.origin parsed +:+ "/") in
     (∀ response,
        network log request = Responded response → status response = 999 →
        performPartialFetch url maxBytes log
        = (Throw (mkError "HTTP 999 - Cloudflare protection"), log ++ [request])
        ∧ classifyFailure "HTTP 999 - Cloudflare protection" = CloudflareNotice)
     ∧ (∀ response,
          network log request = Responded response →
          status response ≠ 999 → ¬ (200 ≤ status response ≤ 299) →
          performPartialFetch url maxBytes log
          = (Throw (mkError ("HTTP " +:+ pretty (status response))),
             log ++ [request])
          ∧ (status response ∈ [404; 403; 410] →
             classifyFailure ("HTTP " +:+ pretty (status response)) = ClearLoading))
     ∧ (∀ response,
          network log request = Responded response →
          200 ≤ status response ≤ 299 → body response = None →
          performPartialFetch url maxBytes log
          = (Throw (mkError "No response body"), log ++ [request])
          ∧ classifyFailure "No response body" = PreviewUnavailable)
     ∧ (∀ e,
          network log request = Rejected e → errorName e = "AbortError" →
          performPartialFetch url maxBytes log
          = (Throw (mkError "Request timed out"), log ++ [request])
          ∧ classifyFailure "Request timed out" = ClearLoading)
     ∧ (∀ e,
          network log request = Rejected e → errorName e ≠ "AbortError" →
          performPartialFetch url maxBytes log = (Throw e, log ++ [request]))).
Proof.
  split.
  - intros Hparse. unfold performPartialFetch. run_async. rewrite Hparse.
    eexists. reflexivity.
  - intros parsed Hparse request. subst request.
    unfold performPartialFetch, fetch. run_async. rewrite Hparse. simpl.
    split; [intros response Hnet Hstatus|].
    { rewrite Hnet. simpl. rewrite Hstatus. split; reflexivity. }
    split; [intros response Hnet Hnot Hbad|].
    { rewrite Hnet. simpl.
      destruct (decide (status response = 999)); [contradiction|].
      assert (negb (ok response) = true) as ->.
      { apply negb_true_iff. unfold ok. apply andb_false_iff.
        destruct (Z.leb_spec 200 (status response)); [right|left; reflexivity].
        apply Z.leb_gt. lia. }
      split; [reflexivity|]. intros Hin.
      repeat (apply elem_of_cons in Hin as [->|Hin]; [reflexivity|]).
      inversion Hin. }
    split; [intros response Hnet Hok Hbody|].
    { rewrite Hnet. simpl.
      destruct (decide (status response = 999)); [lia|].
      assert (negb (ok response) = false) as ->.
      { apply negb_false_iff. unfold ok. apply andb_true_iff.
        split; apply Z.leb_le; lia. }
      rewrite Hbody. split; reflexivity. }
    split; [intros e Hnet Hname|intros e Hnet Hname].
    { rewrite Hnet. simpl. rewrite Hname. split; reflexivity. }
    rewrite Hnet. simpl.
    destruct (decide (errorName e = "AbortError")); [contradiction|reflexivity].
Qed.

Lemma partial_fetch_failures_witness :
  @performPartialFetch Sample.challenged "https://example.com/page" 49152 []
  = (Throw (mkError "HTTP 999 - Cloudflare protection"),
     [partialFetchRequest "https://example.com/page" "https://example.com/"]).
Proof.
  destruct (@partial_fetch_failures Sample.challenged
              "https://example.com/page" 49152 []) as (_ & Hfail).
  destruct (Hfail Scripted.page eq_refl) as (Hchallenge & _).
  now destruct (Hchallenge (Scripted.answer 999 [] None) eq_refl eq_refl).
Defined.

(** X16. The generator starts a preview for exactly the results the
    planner lets it fetch: with the plan the planner gives for a type and
    a tier, [shouldProcess] holds for Webpage, PDF and Image at every tier,
    for Download unless the tier is Red, and for no other type. *)
Theorem preview_gate_agrees_with_planner (type : LinkType.t) (tier : RiskLevel.t) :
  shouldProcess type (decideFetchPlan type tier)
  = bool_decide (type ∈ [LinkType.Webpage; LinkType.PDF; LinkType.Image])
    || bool_decide (type = LinkType.Download)
       && negb (bool_decide (tier = RiskLevel.Red)).
Proof. destruct type, tier; reflexivity. Qed.

(** ** Magic bytes *)

Lemma byte_test (b expected : Byte.byte) (v : Z) :
  0 ≤ v → Byte.of_N (Z.to_N v) = Some expected →
  (Z.of_N (Byte.to_N b) =? v) = true ↔ b = expected.
Proof.
  intros Hv Hexpected. rewrite Z.eqb_eq. split.
  - intros Heq.
    assert (Byte.of_N (Byte.to_N b) = Some expected) as Hb
      by (rewrite <- Hexpected, <- Heq, N2Z.id; reflexivity).
    rewrite Byte.of_to_N in Hb. now injection Hb.
  - intros ->. apply Byte.to_of_N in Hexpected.
    rewrite Hexpected, Z2N.id; [reflexivity|lia].
Qed.

(** Splits on the next test of a byte in the goal. *)
Ltac magic_test :=
  match goal with
  | |- context [Z.of_N (Byte.to_N ?b) =? ?v] =>
      let E := fresh "E" in
      destruct (Z.of_N (Byte.to_N b) =? v) eqn:E;
      [ apply (byte_test b _ v ltac:(lia) eq_refl) in E;
        try discriminate E; try subst b
      | assert (∀ expected, Byte.of_N (Z.to_N v) = Some expected → b ≠ expected)
          by (let Heq := fresh in
              intros ? ? Heq; apply (byte_test b _ v ltac:(lia)) in Heq;
              [congruence|assumption]);
        clear E ];
      cbn [andb orb]
  end.

Ltac magic_contra :=
  exfalso;
  match goal with
  | Hne : ∀ expected, _ → ?b ≠ expected |- _ => solve [apply (Hne b); reflexivity]
  end.

Lemma magic_pdf (bytes : list Byte.byte) :
  checkMagicBytes bytes = Some LinkType.PDF
  ↔ ∃ rest, bytes = Byte.x25 :: Byte.x50 :: Byte.x44 :: Byte.x46 :: rest.
Proof.
  unfold checkMagicBytes, byteIs.
  destruct bytes as [|b0 [|b1 [|b2 [|b3 rest]]]];
    cbn [length Nat.leb andb orb lookup list_lookup];
    repeat magic_test.
  all: split; [intros Hfound; try discriminate Hfound; eauto|].
  all: intros [more Hshape]; try discriminate Hshape.
  all: try reflexivity.
  all: injection Hshape; intros; subst; magic_contra.
Qed.

Lemma magic_download (bytes : list Byte.byte) :
  checkMagicBytes bytes = Some LinkType.Download
  ↔ (∃ b rest, bytes = Byte.x50 :: Byte.x4b :: Byte.x03 :: b :: rest)
    ∨ (∃ b rest, bytes = Byte.x50 :: Byte.x4b :: Byte.x05 :: b :: rest)
    ∨ (∃ rest, bytes = Byte.x4d :: Byte.x5a :: rest)
    ∨ (∃ rest, bytes = Byte.x7f :: Byte.x45 :: Byte.x4c :: Byte.x46 :: rest).
Proof.
  unfold checkMagicBytes, byteIs.
  destruct bytes as [|b0 [|b1 [|b2 [|b3 rest]]]];
    cbn [length Nat.leb andb orb lookup list_lookup];
    repeat magic_test.
  all: split; [intros Hfound; try discriminate Hfound; eauto 10|].
  all: intros [(b & more & Hshape)|[(b & more & Hshape)|[(more & Hshape)|(more & Hshape)]]];
    try discriminate Hshape; try reflexivity.
  all: injection Hshape; intros; subst; magic_contra.
Qed.

Lemma magic_range (bytes : list Byte.byte) (type : LinkType.t) :
  checkMagicBytes bytes = Some type →
  type = LinkType.PDF ∨ type = LinkType.Download.
Proof.
  unfold checkMagicBytes.
  repeat (match goal with |- context [if ?c then _ else _] => destruct c end);
    intros [= <-]; auto.
Qed.

(** X17. The signatures the sniff recognises, and nothing else: a buffer
    is a PDF exactly when it starts with the four bytes of "%PDF"; it is a
    Download exactly when it has at least four bytes and starts with "PK"
    followed by 3 or 5, or starts with "MZ", or starts with the four bytes
    of the ELF header; no other type is ever sniffed, and a buffer of fewer
    than two bytes is not recognised. *)
Theorem magic_byte_signatures (bytes : list Byte.byte) :
  (checkMagicBytes bytes = Some LinkType.PDF
   ↔ ∃ rest, bytes = Byte.x25 :: Byte.x50 :: Byte.x44 :: Byte.x46 :: rest)
  ∧ (checkMagicBytes bytes = Some LinkType.Download
     ↔ (∃ b rest, bytes = Byte.x50 :: Byte.x4b :: Byte.x03 :: b :: rest)
       ∨ (∃ b rest, bytes = Byte.x50 :: Byte.x4b :: Byte.x05 :: b :: rest)
       ∨ (∃ rest, bytes = Byte.x4d :: Byte.x5a :: rest)
       ∨ (∃ rest, bytes = Byte.x7f :: Byte.x45 :: Byte.x4c :: Byte.x46 :: rest))
  ∧ (∀ type, checkMagicBytes bytes = Some type →
       type = LinkType.PDF ∨ type = LinkType.Download)
  ∧ ((length bytes < 2)%nat → checkMagicBytes bytes = None).
Proof.
  split; [apply magic_pdf|]. split; [apply magic_download|].
  split; [apply magic_range|].
  intros Hshort. destruct bytes as [|b0 [|b1 rest]]; [reflexivity| |simpl in Hshort; lia].
  unfold checkMagicBytes. reflexivity.
Qed.

(** ** Anchor text *)

Lemma includes_dot_cons (c : ascii) (rest : string) :
  Js.includes (String c rest) "." = false →
  c ≠ "."%char ∧ Js.includes rest "." = false.
Proof.
  change (Js.includes (String c rest) ".")
    with ((match ascii_dec "." c with
           | left _ => String.prefix "" rest
           | right _ => false
           end) || Js.includes rest ".").
  destruct (ascii_dec "." c) as [<-|Hne].
  - now destruct rest.
  - intros Hrest. split; [congruence|exact Hrest].
Qed.

Lemma dropChars_no_dot (k : nat) :
  ∀ text, Js.includes text "." = false →
          Js.includes (Js.dropChars k text) "." = false.
Proof.
  induction k as [|k IH]; intros [|c rest] Hno; try exact Hno.
  simpl. apply IH. now apply includes_dot_cons in Hno.
Qed.

Lemma captureAt_no_dot (k : nat) (text : string) :
  Js.includes text "." = false → DomainPattern.captureAt k text = None.
Proof.
  intros Hno. apply (dropChars_no_dot k) in Hno.
  unfold DomainPattern.captureAt.
  destruct (Js.dropChars k text) as [|c rest]; [reflexivity|].
  apply includes_dot_cons in Hno as [Hc _].
  destruct c as [[] [] [] [] [] [] [] []]; try reflexivity. now contradict Hc.
Qed.

Lemma domainAt_no_dot (text : string) :
  Js.includes text "." = false → DomainPattern.domainAt text = None.
Proof.
  intros Hno. unfold DomainPattern.domainAt.
  generalize (String.length (DomainPattern.run DomainPattern.isDomainChar text)).
  intros k. induction k as [|k IH]; [reflexivity|].
  simpl. now rewrite captureAt_no_dot.
Qed.

Lemma afterScheme_no_dot (text after : string) :
  Js.includes text "." = false → DomainPattern.afterScheme text = Some after →
  Js.includes after "." = false.
Proof.
  intros Hno. unfold DomainPattern.afterScheme.
  destruct (String.prefix "https://" _);
    [intros [= <-]; exact (dropChars_no_dot 8 text Hno)|].
  destruct (String.prefix "http://" _); [|discriminate].
  intros [= <-]. exact (dropChars_no_dot 7 text Hno).
Qed.

Lemma exec_no_dot (text : string) :
  Js.includes text "." = false → DomainPattern.exec text = None.
Proof.
  induction text as [|c rest IH]; intros Hno.
  - reflexivity.
  - assert (DomainPattern.matchAt (String c rest) = None) as Hhere.
    { unfold DomainPattern.matchAt.
      rewrite (domainAt_no_dot _ Hno).
      destruct (DomainPattern.afterScheme (String c rest)) as [after|] eqn:Hafter;
        [|reflexivity].
      cbn [mbind option_bind]. rewrite domainAt_no_dot; [reflexivity|].
      eapply afterScheme_no_dot; eassumption. }
    cbn [DomainPattern.exec]. rewrite Hhere. apply IH.
    now apply includes_dot_cons in Hno.
Qed.

(** X18. An anchor text without a dot names no domain: the pattern does
    not match it and no mismatch is reported, whatever the link's host. *)
Theorem anchor_text_without_dot `{Platform} (anchorText hrefDomain : string) :
  Js.includes anchorText "." = false →
  checkAnchorTextMismatch anchorText hrefDomain = None.
Proof.
  intros Hno. unfold checkAnchorTextMismatch. now rewrite exec_no_dot.
Qed.

Lemma anchor_text_without_dot_witness :
  @checkAnchorTextMismatch Scripted.offline "click here for the report" "evil.example"
  = None.
Proof. apply (@anchor_text_without_dot Scripted.offline). reflexivity. Defined.

(** ** Video platforms *)

(** X19. An embed URL is only ever built from a video id that is not
    empty, and only for YouTube, Vimeo and Dailymotion: it is then the
    embed prefix of that platform followed by the id.  The platform
    reported is one of the six the code names. *)
Theorem embed_url_needs_an_id `{Platform} (url : URL.t) (video : VideoPlatform) :
  detectVideoPlatform url = Some video →
  platform video
  ∈ ["youtube"; "vimeo"; "dailymotion"; "tiktok"; "twitch"; "video-file"]
  ∧ match embedUrl video with
    | Some embed =>
        ∃ id, videoId video = Some id ∧ id ≠ ""
          ∧ (platform video = "youtube"
               ∧ embed = "https://www.youtube.com/embed/" +:+ id
             ∨ platform video = "vimeo"
               ∧ embed = "https://player.vimeo.com/video/" +:+ id
             ∨ platform video = "dailymotion"
               ∧ embed = "https://www.dailymotion.com/embed/video/" +:+ id)
    | None =>
        videoId video = None ∨ videoId video = Some ""
        ∨ platform video ∈ ["tiktok"; "twitch"; "video-file"]
    end.
Proof.
  unfold detectVideoPlatform, embedFor.
  destruct (Js.includes _ "youtube.com" || Js.includes _ "youtu.be").
  { intros [= <-]. simpl. split; [in_list|].
    match goal with |- context [Js.truthy ?v] => destruct v as [[|c id]|] end;
      simpl; auto.
    eexists. split; [reflexivity|]. split; [discriminate|]. auto. }
  destruct (Js.includes _ "vimeo.com").
  { intros [= <-]. simpl. split; [in_list|].
    match goal with |- context [Js.truthy ?v] => destruct v as [[|c id]|] end;
      simpl; auto.
    eexists. split; [reflexivity|]. split; [discriminate|]. auto. }
  destruct (Js.includes _ "dailymotion.com" || Js.includes _ "dai.ly").
  { intros [= <-]. simpl. split; [in_list|].
    match goal with |- context [Js.truthy ?v] => destruct v as [[|c id]|] end;
      simpl; auto.
    eexists. split; [reflexivity|]. split; [discriminate|]. auto 6. }
  destruct (Js.includes _ "tiktok.com").
  { intros [= <-]. simpl. split; [in_list|]. right; right. in_list. }
  destruct (Js.includes _ "twitch.tv").
  { intros [= <-]. simpl. split; [in_list|]. right; right. in_list. }
  destruct (existsb _ videoExts); [|discriminate].
  intros [= <-]. simpl. split; [in_list|]. right; right. in_list.
Qed.

Lemma embed_url_needs_an_id_witness :
  ∃ video,
    @detectVideoPlatform Scripted.offline Sample.watch = Some video
    ∧ embedUrl video = Some "https://www.youtube.com/embed/abc123".
Proof.
  eexists.
  assert (@detectVideoPlatform Scripted.offline Sample.watch = Some _) as Hrun
    by (vm_compute; reflexivity).
  split; [exact Hrun|].
  now destruct (@embed_url_needs_an_id Scripted.offline _ _ Hrun) as [_ _].
Defined.

(** ** Homographs in ASCII host names *)

Lemma code_inj (a b : ascii) : code a = code b → a = b.
Proof.
  unfold code. intros Heq. apply Nat2Z.inj in Heq.
  rewrite <- (ascii_nat_embedding a), <- (ascii_nat_embedding b). now f_equal.
Qed.

Lemma codePoints_go_ascii (bs : list ascii) :
  Forall (λ c, (nat_of_ascii c < 128)%nat) bs →
  Js.codePoints_go 0 0 bs = code <$> bs.
Proof.
  induction 1 as [|b rest Hb _ IH]; [reflexivity|].
  cbn [Js.codePoints_go]. unfold Js.leadByte.
  destruct (Z.ltb_spec (Z.of_nat (nat_of_ascii b)) 128) as [_|Hge]; [|lia].
  cbn [app]. rewrite IH. reflexivity.
Qed.

Lemma existsb_out_of_range (lo hi : Z) (chars : list Z) :
  128 ≤ lo → Forall (λ cp, cp < 128) chars → existsb (inRange lo hi) chars = false.
Proof.
  intros Hlo. induction 1 as [|cp rest Hcp _ IH]; [reflexivity|].
  simpl. rewrite IH. unfold inRange.
  destruct (Z.leb_spec lo cp); [lia|reflexivity].
Qed.

Lemma includesRun_single (cp : Z) (chars : list Z) :
  128 ≤ cp → Forall (λ c, c < 128) chars → Js.includesRun chars [cp] = false.
Proof.
  intros Hcp. induction 1 as [|c rest Hc _ IH].
  - cbn [Js.includesRun]. rewrite orb_false_r. apply bool_decide_eq_false.
    intros [k Hk]. discriminate.
  - cbn [Js.includesRun]. rewrite IH, orb_false_r. apply bool_decide_eq_false.
    intros [k Hk]. injection Hk as Hk _. lia.
Qed.

Lemma prefix_code (needle s : string) :
  String.prefix needle s = true
  ↔ (code <$> String.list_ascii_of_string needle)
      `prefix_of` (code <$> String.list_ascii_of_string s).
Proof.
  revert needle. induction s as [|c rest IH]; intros [|n needle].
  - split; [intros _; apply prefix_nil|reflexivity].
  - split; [discriminate|]. intros [k Hk]. discriminate.
  - split; [intros _; apply prefix_nil|reflexivity].
  - cbn [String.prefix String.list_ascii_of_string fmap list_fmap].
    destruct (ascii_dec n c) as [->|Hne].
    + rewrite IH. split; [apply prefix_cons|apply prefix_cons_inv_2].
    + split; [discriminate|]. intros Hprefix.
      apply prefix_cons_inv_1 in Hprefix. now apply code_inj in Hprefix.
Qed.

Lemma includesRun_code (needle s : string) :
  Js.includesRun (code <$> String.list_ascii_of_string s)
                 (code <$> String.list_ascii_of_string needle)
  = Js.includes s needle.
Proof.
  assert (∀ t, bool_decide
                 ((code <$> String.list_ascii_of_string needle)
                    `prefix_of` (code <$> String.list_ascii_of_string t))
               = String.prefix needle t) as Hprefix.
  { intros t. apply eq_true_iff_eq. rewrite bool_decide_eq_true.
    symmetry. apply prefix_code. }
  induction s as [|c rest IH].
  - cbn [Js.includesRun Js.includes String.list_ascii_of_string fmap list_fmap].
    now rewrite <- (Hprefix "").
  - cbn [Js.includesRun Js.includes String.list_ascii_of_string fmap list_fmap].
    rewrite <- IH. f_equal. apply (Hprefix (String c rest)).
Qed.

(** X20. For a host name written in ASCII the homograph check is the test
    for Punycode: it is flagged exactly when it contains "xn--". *)
Theorem ascii_host_is_flagged_for_punycode (domain : string) :
  isAscii domain → detectHomograph domain = Js.includes domain "xn--".
Proof.
  intros Hascii. unfold detectHomograph, Js.codePoints.
  rewrite (codePoints_go_ascii _ Hascii).
  assert (Forall (λ cp, cp < 128) (code <$> String.list_ascii_of_string domain))
    as Hsmall.
  { apply Forall_fmap. eapply Forall_impl; [exact Hascii|].
    intros c Hc. unfold code, compose. cbv beta in *. lia. }
  rewrite !existsb_out_of_range by (assumption || lia).
  cbn [andb orb existsb confusables].
  rewrite !includesRun_single by (assumption || lia).
  rewrite !orb_false_r.
  exact (includesRun_code "xn--" domain).
Qed.

Lemma ascii_host_is_flagged_for_punycode_witness :
  detectHomograph "xn--80ak6aa92e.com" = true
  ∧ detectHomograph "example.com" = false.
Proof.
  split.
  - rewrite ascii_host_is_flagged_for_punycode; [reflexivity|].
    unfold isAscii. cbn [String.list_ascii_of_string].
    repeat (constructor; [vm_compute; lia|]). constructor.
  - rewrite ascii_host_is_flagged_for_punycode; [reflexivity|].
    unfold isAscii. cbn [String.list_ascii_of_string].
    repeat (constructor; [vm_compute; lia|]). constructor.
Defined.

(** ** Same-page anchors and the anchor text *)

(** X21. A link to the page it is on is never probed: when the link has
    the host, the path and the query of the page and a fragment that is not
    empty, the result is Anchor / Green / NoFetch with the link's host as
    domain, and no request is made.  The schemes of the link and of the
    page are not compared. *)
Theorem same_page_anchor_is_not_probed `{Platform}
    (href anchorText pageOrigin : string) (url pageUrl : URL.t)
    (log : list Request) :
  newURL href (Some pageOrigin) = Some url →
  newURL pageOrigin None = Some pageUrl →
  ¬ (URL.protocol url ∈ dangerousSchemes) →
  URL.protocol url ≠ "mailto:" → URL.protocol url ≠ "tel:" →
  URL.hostname url = URL.hostname pageUrl →
  URL.pathname url = URL.pathname pageUrl →
  URL.search url = URL.search pageUrl →
  URL.hash url ≠ "" →
  performPreflightCheck href anchorText pageOrigin log
  = (Normal (terminal (URL.hostname url) LinkType.Anchor RiskLevel.Green []
               (URL.href url) FetchPlan.NoFetch), log).
Proof.
  intros Hurl Hpage Hsafe Hmail Htel Hhost Hpath Hsearch Hhash.
  unfold performPreflightCheck.
  assert (normalizeAndGate href pageOrigin = Some (url, [])) as ->
    by (apply normalizeAndGate_Some; auto).
  destruct (decide (URL.protocol url = "mailto:")); [contradiction|].
  destruct (decide (URL.protocol url = "tel:")); [contradiction|].
  assert (isSamePageAnchor url pageOrigin = true) as ->.
  { unfold isSamePageAnchor. rewrite Hpage.
    rewrite !andb_true_iff, !bool_decide_eq_true. auto. }
  reflexivity.
Qed.

Lemma same_page_anchor_is_not_probed_witness :
  @performPreflightCheck Sample.challenged
    "http://example.com/page#intro" "Introduction" "https://example.com/page" []
  = (Normal (terminal "example.com" LinkType.Anchor RiskLevel.Green []
               "http://example.com/page#intro" FetchPlan.NoFetch), []).
Proof.
  apply (@same_page_anchor_is_not_probed Sample.challenged _ _ _
           Sample.fragment Scripted.page);
    try reflexivity; try discriminate.
  intros Hin. repeat (apply elem_of_cons in Hin as [Hin|Hin]; [discriminate|]).
  inversion Hin.
Defined.

Section AnchorText.
Context `{Platform}.

Lemma classifyProbed_textMismatch (allSignals : list RiskSignal)
    (mismatch mismatch' : option TextMismatch) (headResult : HeadResult.t)
    (log log' : list Request) (result : PreflightResult.t) :
  classifyProbed allSignals mismatch headResult log = (Normal result, log') →
  ∃ result',
    classifyProbed allSignals mismatch' headResult log = (Normal result', log')
    ∧ PreflightResult.textMismatch result' = mismatch'
    ∧ PreflightResult.domain result' = PreflightResult.domain result
    ∧ PreflightResult.type result' = PreflightResult.type result
    ∧ PreflightResult.risk result' = PreflightResult.risk result
    ∧ PreflightResult.reasons result' = PreflightResult.reasons result
    ∧ PreflightResult.size result' = PreflightResult.size result
    ∧ PreflightResult.finalUrl result' = PreflightResult.finalUrl result
    ∧ PreflightResult.fetchPlan result' = PreflightResult.fetchPlan result
    ∧ PreflightResult.redirectCount result' = PreflightResult.redirectCount result
    ∧ PreflightResult.videoPlatform result' = PreflightResult.videoPlatform result.
Proof.
  unfold classifyProbed. run_async.
  destruct (bool_decide _ && Js.includes _ _).
  - destruct (performSniff (HeadResult.finalUrl headResult) log)
      as [[[sniffed|]|e|] log1]; [| |discriminate|discriminate];
      repeat (match goal with
              | |- context [decide ?P] => destruct (decide P)
              | |- context [newURL ?u ?b] => destruct (newURL u b)
              end);
      try discriminate;
      intros [= <- <-]; eexists; repeat split.
  - repeat (match goal with
            | |- context [decide ?P] => destruct (decide P)
            | |- context [newURL ?u ?b] => destruct (newURL u b)
            end);
      try discriminate;
      intros [= <- <-]; eexists; repeat split.
Qed.

End AnchorText.

(** X22. The anchor text is display only: classifying the same link with
    another anchor text makes the same requests and gives the same domain,
    type, tier, reasons, size, final URL, plan, redirect count and video
    platform.  Only the reported text mismatch can differ. *)
Theorem anchor_text_never_changes_the_tier `{Platform}
    (href anchorText anchorText' pageOrigin : string) (log log' : list Request)
    (result : PreflightResult.t) :
  performPreflightCheck href anchorText pageOrigin log = (Normal result, log') →
  ∃ result',
    performPreflightCheck href anchorText' pageOrigin log = (Normal result', log')
    ∧ PreflightResult.domain result' = PreflightResult.domain result
    ∧ PreflightResult.type result' = PreflightResult.type result
    ∧ PreflightResult.risk result' = PreflightResult.risk result
    ∧ PreflightResult.reasons result' = PreflightResult.reasons result
    ∧ PreflightResult.size result' = PreflightResult.size result
    ∧ PreflightResult.finalUrl result' = PreflightResult.finalUrl result
    ∧ PreflightResult.fetchPlan result' = PreflightResult.fetchPlan result
    ∧ PreflightResult.redirectCount result' = PreflightResult.redirectCount result
    ∧ PreflightResult.videoPlatform result' = PreflightResult.videoPlatform result.
Proof.
  unfold performPreflightCheck.
  destruct (normalizeAndGate href pageOrigin) as [[url gateSignals]|];
    [|intros [= <- <-]; eexists; repeat split].
  destruct (decide (URL.protocol url = "mailto:"));
    [intros [= <- <-]; eexists; repeat split|].
  destruct (decide (URL.protocol url = "tel:"));
    [intros [= <- <-]; eexists; repeat split|].
  destruct (isSamePageAnchor url pageOrigin);
    [intros [= <- <-]; eexists; repeat split|].
  destruct (decide (_ ∨ _)); [|intros [= <- <-]; eexists; repeat split].
  unfold mbind, Async_bind. rewrite performHeadRequest_run.
  intros Hrun.
  change (Lexical.signals (performLexicalChecks url anchorText' pageOrigin))
    with (Lexical.signals (performLexicalChecks url anchorText pageOrigin)).
  destruct (classifyProbed_textMismatch _ _
              (Lexical.textMismatch (performLexicalChecks url anchorText' pageOrigin))
              _ _ _ _ Hrun)
    as (result' & Hrun' & _ & Hfields).
  exists result'. split; [exact Hrun'|exact Hfields].
Qed.

Lemma anchor_text_never_changes_the_tier_witness :
  ∃ result',
    @performPreflightCheck Scripted.threeHops
      "https://example.com/hop1" "paypal.com" "https://news.example/" []
    = (Normal result',
       headRequest <$> ["https://example.com/hop1"; "https://example.com/hop2";
                        "https://example.com/hop3"; "https://example.com/page"])
    ∧ PreflightResult.risk result' = RiskLevel.Amber
    ∧ PreflightResult.reasons result' = ["Redirects x3"].
Proof.
  destruct (@anchor_text_never_changes_the_tier Scripted.threeHops
              "https://example.com/hop1" "" "paypal.com" "https://news.example/"
              [] _ _ ltac:(vm_compute; reflexivity))
    as (result' & Hrun & _ & _ & Hrisk & Hreasons & _).
  exists result'. split; [exact Hrun|]. split; [exact Hrisk|exact Hreasons].
Defined.
